(** * Persistence layer of the AI Study Assistant (src/pro.py)

    A shallow embedding of [DatabaseManager]: the connection gateway, the
    query executor, the additive column migration of [init_db] and the
    repository methods built on the executor, followed by the properties
    proved about them.

    The [sqlite3] module is not code of this program.  The executor is
    written against an interface of the storage engine ([Sqlite3]); the
    repositories run on an instance of it that interprets exactly the
    statements the program issues over tables kept as lists of rows. *)

From Stdlib Require Import String Ascii List ZArith NArith Bool Lia.
From Stdlib Require Import Permutation Sorted OrderedTypeEx.
Import ListNotations.
Local Open Scope string_scope.
Local Open Scope list_scope.

(** ** Python values at the storage boundary *)

(** Exceptions, by the classes the handlers of the program tell apart:
    [sqlite3.OperationalError], the rest of the [sqlite3.Error] hierarchy,
    and exceptions outside of it. *)
Inductive exn : Type :=
| OperationalError (msg : string)
| IntegrityError (msg : string)
| OtherSqliteError (msg : string)
| PyException (msg : string).

(** [isinstance(e, sqlite3.Error)] *)
Definition is_sqlite3_Error (e : exn) : bool :=
  match e with
  | PyException _ => false
  | _ => true
  end.

(** [str(e)] *)
Definition exn_str (e : exn) : string :=
  match e with
  | OperationalError m | IntegrityError m | OtherSqliteError m | PyException m => m
  end.

(** A value of a result row: SQL NULL (Python [None]), INTEGER or TEXT. *)
Inductive value : Type :=
| VNull
| VInt (z : Z)
| VText (s : string).

(** A result row is a Python tuple of values. *)
Definition row : Type := list value.

(** A computation either returns or raises. *)
Inductive outcome (A : Type) : Type :=
| Return (a : A)
| Raise (e : exn).
Arguments Return {A} a.
Arguments Raise {A} e.

(** ** State and exceptions

    A method is a function of the state it runs in that returns or raises
    and leaves a state behind. *)
Definition SE (S A : Type) : Type := S -> outcome A * S.

Definition ret {S A : Type} (a : A) : SE S A := fun s => (Return a, s).

Definition raise {S A : Type} (e : exn) : SE S A := fun s => (Raise e, s).

Definition bind {S A B : Type} (m : SE S A) (k : A -> SE S B) : SE S B :=
  fun s =>
    match m s with
    | (Return a, s') => k a s'
    | (Raise e, s') => (Raise e, s')
    end.

Notation "x <- m ;; k" := (bind m (fun x => k))
  (at level 61, m at next level, right associativity).
Notation "m ;; k" := (bind m (fun _ => k))
  (at level 61, right associativity).

(** [try: body / except Exception as e: handler e], for a handler that
    re-raises what it does not catch. *)
Definition try_except {S A : Type} (body : SE S A) (handler : exn -> SE S A)
  : SE S A :=
  fun s =>
    match body s with
    | (Return a, s') => (Return a, s')
    | (Raise e, s') => handler e s'
    end.

(** [try: body / except sqlite3.Error as e: handler e] *)
Definition try_except_sqlite {S A : Type} (body : SE S A) (handler : exn -> SE S A)
  : SE S A :=
  try_except body (fun e => if is_sqlite3_Error e then handler e else raise e).

(** [try: body / finally: fin]: [fin] runs on every exit of [body]; an
    exception of [fin] replaces the outcome of [body]. *)
Definition try_finally {S A : Type} (body : SE S A) (fin : SE S unit) : SE S A :=
  fun s =>
    match body s with
    | (r, s') =>
        match fin s' with
        | (Return _, s'') => (r, s'')
        | (Raise e, s'') => (Raise e, s'')
        end
    end.

(** What the environment does to the storage calls to come: an entry
    [(n, e)] lets [n] calls through and makes the next one raise [e]; the
    empty schedule stands for a store that never fails. *)
Definition schedule : Type := list (nat * exn).

Definition next_fault (fs : schedule) : option exn * schedule :=
  match fs with
  | [] => (None, [])
  | (O, e) :: rest => (Some e, rest)
  | (S n, e) :: rest => (None, (n, e) :: rest)
  end.

(** ** The storage engine

    [sqlite_step fk now q db] runs one statement (SQL text with its
    parameter tuple bound) against the contents [db] seen by a connection
    whose foreign-key enforcement is [fk], at [CURRENT_TIMESTAMP] [now].
    It raises, or yields the new contents, the rowid of the row it
    inserted (0 when it inserted none) and the result rows.

    The statements meant are those of the repositories: INSERT, UPDATE
    and DELETE, before which the [sqlite3] module opens a transaction
    that lasts until [commit], and SELECT.  Statements that change the
    schema are not held back by that transaction; [init_db], the only
    place that sends them, has a model of its own. *)
Class Sqlite3 (Database Statement : Type) : Type := {
  sqlite_step : bool -> string -> Statement -> Database ->
                exn + (Database * Z * list row)
}.

(** ** Connection gateway and query executor (pro.py 19-68) *)

Section Executor.
Context {Database Statement : Type} `{Sqlite3 Database Statement}.

(** A [sqlite3.Connection]: the contents as this connection sees them
    (statements run in a transaction that [commit] writes to the file),
    and whether [PRAGMA foreign_keys = ON] was issued on it. *)
Record connection : Type := {
  work : Database;
  foreign_keys : bool
}.

(** A [sqlite3.Cursor]: [lastrowid] (0 stands for the falsy value Python
    reports when no row was inserted) and the rows not yet fetched. *)
Record cursor : Type := {
  lastrowid : Z;
  pending : list row
}.

(** The manager object and its environment.
    [self_conn], [self_cursor]: the attributes [self.conn], [self.cursor].
    [disk]: the committed contents of the database file.
    [clock]: what CURRENT_TIMESTAMP evaluates to.
    [open_conns]: connections opened and not closed yet.
    [faults]: what the environment does to the storage calls to come. *)
Record state : Type := {
  self_conn : option connection;
  self_cursor : option cursor;
  disk : Database;
  clock : string;
  open_conns : nat;
  faults : schedule
}.

Definition M (A : Type) : Type := SE state A.

Definition with_faults (s : state) (fs : schedule) : state :=
  {| self_conn := self_conn s; self_cursor := self_cursor s; disk := disk s;
     clock := clock s; open_conns := open_conns s; faults := fs |}.

(** Entering a call of the [sqlite3] module: the environment may make it
    raise. *)
Definition storage_call : M unit :=
  fun s =>
    match next_fault (faults s) with
    | (Some e, fs) => (Raise e, with_faults s fs)
    | (None, fs) => (Return tt, with_faults s fs)
    end.

(** [self.conn = sqlite3.connect(self.db_name, timeout=10)] *)
Definition open_connection : M unit :=
  fun s =>
    (Return tt,
     {| self_conn := Some {| work := disk s; foreign_keys := false |};
        self_cursor := self_cursor s; disk := disk s; clock := clock s;
        open_conns := S (open_conns s); faults := faults s |}).

(** [self.cursor = self.conn.cursor()] *)
Definition new_cursor : M unit :=
  fun s =>
    (Return tt,
     {| self_conn := self_conn s;
        self_cursor := Some {| lastrowid := 0%Z; pending := [] |};
        disk := disk s; clock := clock s;
        open_conns := open_conns s; faults := faults s |}).

(** The effect of [PRAGMA foreign_keys = ON;] on the connection. *)
Definition pragma_foreign_keys_on : M unit :=
  fun s =>
    match self_conn s with
    | Some cn =>
        (Return tt,
         {| self_conn := Some {| work := work cn; foreign_keys := true |};
            self_cursor := self_cursor s; disk := disk s; clock := clock s;
            open_conns := open_conns s; faults := faults s |})
    | None => (Raise (PyException "AttributeError"), s)
    end.

(** pro.py 25-28 *)
Definition connect : M unit :=
  storage_call ;; open_connection ;;
  storage_call ;; new_cursor ;;
  storage_call ;; pragma_foreign_keys_on.

(** [if self.conn: self.conn.close(); self.conn = None; self.cursor = None].
    Closing drops what the connection did not commit. *)
Definition close : M unit :=
  fun s =>
    match self_conn s with
    | Some _ =>
        (Return tt,
         {| self_conn := None; self_cursor := None; disk := disk s;
            clock := clock s; open_conns := pred (open_conns s);
            faults := faults s |})
    | None => (Return tt, s)
    end.

(** [self.cursor.execute(query, params)]: the statement works on what the
    connection sees; for the statements of the repositories that is the
    transaction the module has opened, which [commit] writes to the
    file. *)
Definition cursor_execute (query : Statement) : M unit :=
  fun s =>
    match self_cursor s, self_conn s with
    | Some _, Some cn =>
        match next_fault (faults s) with
        | (Some e, fs) => (Raise e, with_faults s fs)
        | (None, fs) =>
            match sqlite_step (foreign_keys cn) (clock s) query (work cn) with
            | inl e => (Raise e, with_faults s fs)
            | inr (db', rid, rows) =>
                (Return tt,
                 {| self_conn := Some {| work := db'; foreign_keys := foreign_keys cn |};
                    self_cursor := Some {| lastrowid := rid; pending := rows |};
                    disk := disk s; clock := clock s;
                    open_conns := open_conns s; faults := fs |})
            end
        end
    | _, _ => (Raise (PyException "AttributeError"), s)
    end.

(** [self.conn.commit()] *)
Definition conn_commit : M unit :=
  fun s =>
    match self_conn s with
    | Some cn =>
        match next_fault (faults s) with
        | (Some e, fs) => (Raise e, with_faults s fs)
        | (None, fs) =>
            (Return tt,
             {| self_conn := self_conn s; self_cursor := self_cursor s;
                disk := work cn; clock := clock s;
                open_conns := open_conns s; faults := fs |})
        end
    | None => (Raise (PyException "AttributeError"), s)
    end.

(** [self.cursor] *)
Definition get_cursor : M (option cursor) :=
  fun s => (Return (self_cursor s), s).

(** [self.cursor.fetchone()]: the next row, or [None] when there is none. *)
Definition cursor_fetchone : M (option row) :=
  fun s =>
    match self_cursor s with
    | Some cur =>
        match next_fault (faults s) with
        | (Some e, fs) => (Raise e, with_faults s fs)
        | (None, fs) =>
            (Return (hd_error (pending cur)),
             {| self_conn := self_conn s;
                self_cursor := Some {| lastrowid := lastrowid cur;
                                       pending := tl (pending cur) |};
                disk := disk s; clock := clock s;
                open_conns := open_conns s; faults := fs |})
        end
    | None => (Raise (PyException "AttributeError"), s)
    end.

(** [self.cursor.fetchall()]: every remaining row, in order. *)
Definition cursor_fetchall : M (list row) :=
  fun s =>
    match self_cursor s with
    | Some cur =>
        match next_fault (faults s) with
        | (Some e, fs) => (Raise e, with_faults s fs)
        | (None, fs) =>
            (Return (pending cur),
             {| self_conn := self_conn s;
                self_cursor := Some {| lastrowid := lastrowid cur; pending := [] |};
                disk := disk s; clock := clock s;
                open_conns := open_conns s; faults := fs |})
        end
    | None => (Raise (PyException "AttributeError"), s)
    end.

(** pro.py 36-46.  The [print] of the handler is not modelled. *)
Definition execute_query (query : Statement) : M (option cursor) :=
  try_finally
    (try_except_sqlite
       (connect ;;
        cursor_execute query ;;
        conn_commit ;;
        get_cursor)
       (fun _ => ret None))
    close.

(** pro.py 48-57 *)
Definition fetch_one (query : Statement) : M (option row) :=
  try_finally
    (try_except_sqlite
       (connect ;;
        cursor_execute query ;;
        cursor_fetchone)
       (fun _ => ret None))
    close.

(** pro.py 59-68 *)
Definition fetch_all (query : Statement) : M (option (list row)) :=
  try_finally
    (try_except_sqlite
       (connect ;;
        cursor_execute query ;;
        rows <- cursor_fetchall ;;
        ret (Some rows))
       (fun _ => ret None))
    close.

(** The manager between two operations: [__init__] sets both attributes
    to [None] and every operation leaves them so. *)
Definition idle (s : state) : Prop :=
  self_conn s = None /\ self_cursor s = None.

(** Containment for one operation [op] whose guarded body is [body]:
    after it the manager is idle again and no connection it opened is
    left open; no [sqlite3.Error] leaves it; and it returns [None]
    whenever its body raised one. *)
Definition contained {A : Type} (body : M (option A)) (op : M (option A))
    (s : state) : Prop :=
  idle (snd (op s)) /\
  open_conns (snd (op s)) = open_conns s /\
  (forall e, fst (op s) = Raise e -> is_sqlite3_Error e = false) /\
  (forall e, fst (body s) = Raise e -> is_sqlite3_Error e = true ->
             fst (op s) = Return None).

(** The manager after an operation entered in [s]: idle again, same clock
    and connection count, and a fault schedule that holds no exception the
    one of [s] did not hold. *)
Definition settled (s s' : state) : Prop :=
  idle s' /\ clock s' = clock s /\ open_conns s' = open_conns s /\
  incl (map snd (faults s')) (map snd (faults s)).

Definition with_disk (s : state) (db : Database) : state :=
  {| self_conn := self_conn s; self_cursor := self_cursor s; disk := db;
     clock := clock s; open_conns := open_conns s; faults := faults s |}.

End Executor.

(** ** Strings as the program compares them *)

(** [c.lower()] on the ASCII letters.  The table names, column names and
    messages the program folds are ASCII, and no character outside ASCII
    folds to a letter of ["general"] or of ["duplicate column name"]. *)
Definition lower_ascii (c : ascii) : ascii :=
  let n := nat_of_ascii c in
  if (Nat.leb 65 n && Nat.leb n 90)%bool then ascii_of_nat (n + 32) else c.

(** [s.lower()] *)
Fixpoint lower (s : string) : string :=
  match s with
  | EmptyString => EmptyString
  | String c s' => String (lower_ascii c) (lower s')
  end.

(** [needle in hay] on strings *)
Fixpoint contains (needle hay : string) : bool :=
  (prefix needle hay ||
   match hay with
   | EmptyString => false
   | String _ hay' => contains needle hay'
   end)%bool.

(** Comparison of two TEXT values under the BINARY collation. *)
Definition text_lt (a b : string) : bool := String.ltb a b.
Definition text_le (a b : string) : bool := String.leb a b.

(** Comparison of nullable TEXT for ORDER BY: NULL sorts before any text. *)
Definition null_text_compare (a b : option string) : comparison :=
  match a, b with
  | None, None => Eq
  | None, Some _ => Lt
  | Some _, None => Gt
  | Some x, Some y => String.compare x y
  end.

(** ORDER BY as a stable insertion sort: [before a b] says that [a] may
    stand in front of [b].  SQLite leaves the order of rows with equal
    keys open; here they keep their table order. *)
Section OrderBy.
Context {A : Type} (before : A -> A -> bool).

Fixpoint insert_row (x : A) (l : list A) : list A :=
  match l with
  | [] => [x]
  | y :: l' => if before x y then x :: y :: l' else y :: insert_row x l'
  end.

Fixpoint order_by (l : list A) : list A :=
  match l with
  | [] => []
  | x :: l' => insert_row x (order_by l')
  end.

End OrderBy.

(** [LIMIT n]: a negative [n] puts no bound on the rows returned. *)
Definition sql_limit {A : Type} (n : Z) (l : list A) : list A :=
  if (n <? 0)%Z then l else firstn (Z.to_nat n) l.

(** The integers SQLite stores: 64 bits, signed. *)
Definition in_int64 (n : Z) : bool :=
  ((- 2 ^ 63 <=? n) && (n <? 2 ^ 63))%Z%bool.
Arguments in_int64 : simpl never.

(** ** The tables (pro.py 127-207) *)

Local Open Scope Z_scope.

Record user_row : Type := {
  u_user_id : Z;
  u_username : string;
  u_password_hash : string
}.

Record category_row : Type := {
  c_category_id : Z;
  c_user_id : Z;
  c_name : string
}.

Record task_row : Type := {
  t_task_id : Z;
  t_user_id : Z;
  t_description : string;
  t_category : option string;
  t_due_date : option string;
  t_completed : Z;
  t_created_at : option string
}.

Record quiz_row : Type := {
  q_attempt_id : Z;
  q_user_id : Z;
  q_topic : string;
  q_quiz_date : string;
  q_score : Z;
  q_total_questions : Z;
  q_questions_data : option string
}.

Record chat_row : Type := {
  m_message_id : Z;
  m_user_id : Z;
  m_role : string;
  m_content : string;
  m_timestamp : string
}.

(** A table with an INTEGER PRIMARY KEY AUTOINCREMENT: its rows in rowid
    order and its entry in [sqlite_sequence]. *)
Record table (A : Type) : Type := {
  rows : list A;
  seq : Z
}.
Arguments rows {A} t.
Arguments seq {A} t.

Record DB : Type := {
  users : table user_row;
  task_categories : table category_row;
  tasks : table task_row;
  quiz_attempts : table quiz_row;
  ai_chat_history : table chat_row
}.

(** The rowid AUTOINCREMENT gives a new row: one more than the largest
    rowid the table holds or ever held. *)
Definition next_rowid (ids : list Z) (sq : Z) : Z :=
  1 + fold_right Z.max (Z.max 0 sq) ids.

Definition append_row {A : Type} (rowid : A -> Z) (mk : Z -> A) (t : table A)
  : table A * Z :=
  let id := next_rowid (map rowid (rows t)) (seq t) in
  ({| rows := rows t ++ [mk id]; seq := id |}, id).

(** The parent key of a foreign key [REFERENCES users (user_id)] exists. *)
Definition user_exists (db : DB) (uid : Z) : bool :=
  existsb (fun u => u_user_id u =? uid) (rows (users db)).

(** The foreign-key check of an insert on a connection with enforcement
    [fk]. *)
Definition fk_ok (fk : bool) (db : DB) (uid : Z) : bool :=
  (negb fk || user_exists db uid)%bool.

(** ** The statements of the program *)

(** One conjunct appended to the WHERE clause of [get_tasks], with the
    parameter it binds. *)
Inductive task_cond : Type :=
| CompletedIs0                 (* " AND completed = 0" *)
| CategoryIs (c : string)      (* " AND category = ?" *)
| DueIs (d : string)           (* " AND due_date = ?" *)
| DueAfter (d : string)        (* " AND due_date > ?" *)
| DueUpTo (d : string)         (* " AND due_date <= ?" *)
| DueBefore (d : string).      (* " AND due_date < ?" *)

(** Each SQL text of the repositories with its parameter tuple. *)
Inductive stmt : Type :=
(* INSERT INTO users (username, password_hash) VALUES (?, ?) *)
| InsertUser (username password_hash : string)
(* SELECT user_id, username FROM users WHERE username = ? AND password_hash = ? *)
| SelectUser (username password_hash : string)
(* INSERT OR IGNORE INTO task_categories (user_id, name) VALUES (?, ?) *)
| InsertOrIgnoreCategory (user_id : Z) (name : string)
(* SELECT name FROM task_categories WHERE user_id = ? ORDER BY name *)
| SelectCategoryNames (user_id : Z)
(* UPDATE tasks SET category = 'General' WHERE user_id = ? AND category = ? *)
| UpdateTasksToGeneral (user_id : Z) (category : string)
(* DELETE FROM task_categories WHERE user_id = ? AND name = ? *)
| DeleteCategory (user_id : Z) (name : string)
(* INSERT INTO tasks (user_id, description, category, due_date, created_at)
   VALUES (?, ?, ?, ?, CURRENT_TIMESTAMP) *)
| InsertTask (user_id : Z) (description : string) (category : option string)
             (due_date : option string)
(* SELECT task_id, description, category, due_date, completed, created_at
   FROM tasks WHERE user_id = ? <conds>
   ORDER BY CASE WHEN due_date IS NULL OR due_date = '' THEN 1 ELSE 0 END,
            due_date ASC, created_at DESC [LIMIT n] *)
| SelectTasks (user_id : Z) (conds : list task_cond) (limit : option Z)
(* INSERT INTO quiz_attempts (user_id, topic, quiz_date, score,
   total_questions, questions_data) VALUES (?, ?, ?, ?, ?, ?) *)
| InsertQuizAttempt (user_id : Z) (topic quiz_date : string)
                    (score total_questions : Z) (questions_data : option string)
(* SELECT topic, questions_data FROM quiz_attempts WHERE attempt_id = ? *)
| SelectQuizAttempt (attempt_id : Z)
(* INSERT INTO ai_chat_history (user_id, role, content, timestamp)
   VALUES (?, ?, ?, CURRENT_TIMESTAMP) *)
| InsertChatMessage (user_id : Z) (role content : string)
(* SELECT role, content, timestamp FROM ai_chat_history WHERE user_id = ?
   ORDER BY timestamp DESC LIMIT ? *)
| SelectChatHistory (user_id : Z) (limit : Z).

Definition null_or_text (o : option string) : value :=
  match o with
  | None => VNull
  | Some s => VText s
  end.

(** A comparison with NULL is not true. *)
Definition holds (c : task_cond) (t : task_row) : bool :=
  match c with
  | CompletedIs0 => t_completed t =? 0
  | CategoryIs c =>
      match t_category t with Some x => String.eqb x c | None => false end
  | DueIs d =>
      match t_due_date t with Some x => String.eqb x d | None => false end
  | DueAfter d =>
      match t_due_date t with Some x => text_lt d x | None => false end
  | DueUpTo d =>
      match t_due_date t with Some x => text_le x d | None => false end
  | DueBefore d =>
      match t_due_date t with Some x => text_lt x d | None => false end
  end.

(** CASE WHEN due_date IS NULL OR due_date = '' THEN 1 ELSE 0 END *)
Definition no_due_date (t : task_row) : Z :=
  match t_due_date t with
  | None => 1
  | Some d => if String.eqb d "" then 1 else 0
  end.

(** The ORDER BY of [get_tasks]. *)
Definition task_before (a b : task_row) : bool :=
  match no_due_date a ?= no_due_date b with
  | Lt => true
  | Gt => false
  | Eq =>
      match null_text_compare (t_due_date a) (t_due_date b) with
      | Lt => true
      | Gt => false
      | Eq =>
          match null_text_compare (t_created_at b) (t_created_at a) with
          | Gt => false
          | _ => true
          end
      end
  end.

Definition task_tuple (t : task_row) : row :=
  [VInt (t_task_id t); VText (t_description t); null_or_text (t_category t);
   null_or_text (t_due_date t); VInt (t_completed t);
   null_or_text (t_created_at t)].

(** ORDER BY name *)
Definition name_before (a b : category_row) : bool :=
  text_le (c_name a) (c_name b).

(** ORDER BY timestamp DESC *)
Definition newer_first (a b : chat_row) : bool :=
  text_le (m_timestamp b) (m_timestamp a).

Definition chat_tuple (m : chat_row) : row :=
  [VText (m_role m); VText (m_content m); VText (m_timestamp m)].

Definition with_users (db : DB) (t : table user_row) : DB :=
  {| users := t; task_categories := task_categories db; tasks := tasks db;
     quiz_attempts := quiz_attempts db; ai_chat_history := ai_chat_history db |}.

Definition with_task_categories (db : DB) (t : table category_row) : DB :=
  {| users := users db; task_categories := t; tasks := tasks db;
     quiz_attempts := quiz_attempts db; ai_chat_history := ai_chat_history db |}.

Definition with_tasks (db : DB) (t : table task_row) : DB :=
  {| users := users db; task_categories := task_categories db; tasks := t;
     quiz_attempts := quiz_attempts db; ai_chat_history := ai_chat_history db |}.

Definition with_quiz_attempts (db : DB) (t : table quiz_row) : DB :=
  {| users := users db; task_categories := task_categories db; tasks := tasks db;
     quiz_attempts := t; ai_chat_history := ai_chat_history db |}.

Definition with_ai_chat_history (db : DB) (t : table chat_row) : DB :=
  {| users := users db; task_categories := task_categories db; tasks := tasks db;
     quiz_attempts := quiz_attempts db; ai_chat_history := t |}.

Definition fk_failed : exn := IntegrityError "FOREIGN KEY constraint failed".

(** SET category = 'General' on the rows the WHERE clause selects. *)
Definition retarget (uid : Z) (cat : string) (t : task_row) : task_row :=
  if ((t_user_id t =? uid) && holds (CategoryIs cat) t)%bool then
    {| t_task_id := t_task_id t; t_user_id := t_user_id t;
       t_description := t_description t; t_category := Some "General";
       t_due_date := t_due_date t; t_completed := t_completed t;
       t_created_at := t_created_at t |}
  else t.

(** What SQLite does with each statement. *)
Definition run_stmt (fk : bool) (now : string) (q : stmt) (db : DB)
  : exn + (DB * Z * list row) :=
  match q with
  | InsertUser username password_hash =>
      if existsb (fun u => String.eqb (u_username u) username) (rows (users db))
      then inl (IntegrityError "UNIQUE constraint failed: users.username")
      else
        let (t, id) :=
          append_row u_user_id
            (fun id => {| u_user_id := id; u_username := username;
                          u_password_hash := password_hash |})
            (users db) in
        inr (with_users db t, id, [])
  | SelectUser username password_hash =>
      inr (db, 0,
           map (fun u => [VInt (u_user_id u); VText (u_username u)])
             (filter (fun u => (String.eqb (u_username u) username &&
                                String.eqb (u_password_hash u) password_hash)%bool)
                (rows (users db))))
  | InsertOrIgnoreCategory uid name =>
      if existsb (fun c => ((c_user_id c =? uid) && String.eqb (c_name c) name)%bool)
           (rows (task_categories db))
      then
        (* the rowid was drawn before the conflict was seen: the row is
           not added, the counter of the table has advanced *)
        inr (with_task_categories db
               {| rows := rows (task_categories db);
                  seq := next_rowid (map c_category_id (rows (task_categories db)))
                           (seq (task_categories db)) |}, 0, [])
      else if fk_ok fk db uid then
        let (t, id) :=
          append_row c_category_id
            (fun id => {| c_category_id := id; c_user_id := uid; c_name := name |})
            (task_categories db) in
        inr (with_task_categories db t, id, [])
      else inl fk_failed
  | SelectCategoryNames uid =>
      inr (db, 0,
           map (fun c => [VText (c_name c)])
             (order_by name_before
                (filter (fun c => c_user_id c =? uid) (rows (task_categories db)))))
  | UpdateTasksToGeneral uid cat =>
      inr (with_tasks db {| rows := map (retarget uid cat) (rows (tasks db));
                            seq := seq (tasks db) |}, 0, [])
  | DeleteCategory uid name =>
      inr (with_task_categories db
             {| rows := filter (fun c => negb ((c_user_id c =? uid) &&
                                               String.eqb (c_name c) name))
                          (rows (task_categories db));
                seq := seq (task_categories db) |}, 0, [])
  | InsertTask uid description category due_date =>
      if fk_ok fk db uid then
        let (t, id) :=
          append_row t_task_id
            (fun id => {| t_task_id := id; t_user_id := uid;
                          t_description := description; t_category := category;
                          t_due_date := due_date; t_completed := 0;
                          t_created_at := Some now |})
            (tasks db) in
        inr (with_tasks db t, id, [])
      else inl fk_failed
  | SelectTasks uid conds limit =>
      let selected :=
        order_by task_before
          (filter (fun t => ((t_user_id t =? uid) &&
                             forallb (fun c => holds c t) conds)%bool)
             (rows (tasks db))) in
      match limit with
      | Some n =>
          (* the number is part of the text: one that is no 64-bit
             integer is read as a real, which LIMIT refuses *)
          if in_int64 n then inr (db, 0, map task_tuple (sql_limit n selected))
          else inl (IntegrityError "datatype mismatch")
      | None => inr (db, 0, map task_tuple selected)
      end
  | InsertQuizAttempt uid topic quiz_date score total questions_data =>
      if fk_ok fk db uid then
        let (t, id) :=
          append_row q_attempt_id
            (fun id => {| q_attempt_id := id; q_user_id := uid; q_topic := topic;
                          q_quiz_date := quiz_date; q_score := score;
                          q_total_questions := total;
                          q_questions_data := questions_data |})
            (quiz_attempts db) in
        inr (with_quiz_attempts db t, id, [])
      else inl fk_failed
  | SelectQuizAttempt attempt_id =>
      inr (db, 0,
           map (fun q => [VText (q_topic q); null_or_text (q_questions_data q)])
             (filter (fun q => q_attempt_id q =? attempt_id)
                (rows (quiz_attempts db))))
  | InsertChatMessage uid role content =>
      if fk_ok fk db uid then
        let (t, id) :=
          append_row m_message_id
            (fun id => {| m_message_id := id; m_user_id := uid; m_role := role;
                          m_content := content; m_timestamp := now |})
            (ai_chat_history db) in
        inr (with_ai_chat_history db t, id, [])
      else inl fk_failed
  | SelectChatHistory uid limit =>
      (* the limit is a parameter: the module refuses to bind a Python
         int that is no 64-bit integer, with an exception that is no
         [sqlite3.Error] *)
      if in_int64 limit then
        inr (db, 0,
             map chat_tuple
               (sql_limit limit
                  (order_by newer_first
                     (filter (fun m => m_user_id m =? uid)
                        (rows (ai_chat_history db))))))
      else inl (PyException "OverflowError")
  end.

#[export] Instance study_db : Sqlite3 DB stmt := {
  sqlite_step := run_stmt
}.

(** The rows [SELECT name ... ORDER BY name] yields for a user. *)
Definition category_names (db : DB) (user_id : Z) : list string :=
  map c_name
    (order_by name_before
       (filter (fun c => c_user_id c =? user_id) (rows (task_categories db)))).

(** ** Python helpers of the repositories *)

(** [DatabaseManager.__init__] (pro.py 20-23) on a database file holding
    [db], in an environment with the given clock and fault schedule. *)
Definition init_manager (db : DB) (now : string) (fs : schedule) : state :=
  {| self_conn := None; self_cursor := None; disk := db; clock := now;
     open_conns := 0%nat; faults := fs |}.

(** Truth value of a Python int. *)
Definition truthy_int (z : Z) : bool := negb (z =? 0).

(** [for x in l: body x], the value of the body dropped. *)
Fixpoint for_each {S A B : Type} (l : list A) (body : A -> SE S B) : SE S unit :=
  match l with
  | [] => ret tt
  | x :: l' => body x ;; for_each l' body
  end.

Definition value_eqb (a b : value) : bool :=
  match a, b with
  | VNull, VNull => true
  | VInt x, VInt y => x =? y
  | VText x, VText y => String.eqb x y
  | _, _ => false
  end.

(** [x in l] *)
Definition py_in (x : value) (l : list value) : bool :=
  existsb (value_eqb x) l.

(** [l.index(x)], for an [x] that is in [l]: the position of its first
    occurrence.  (Python raises ValueError otherwise; the model then
    yields the length.) *)
Fixpoint py_index (x : value) (l : list value) : nat :=
  match l with
  | [] => O
  | y :: l' => if value_eqb y x then O else S (py_index x l')
  end.

(** [l.pop(i)] for [0 <= i < len(l)]: the list without its element [i]. *)
Fixpoint py_pop (i : nat) (l : list value) : list value :=
  match i, l with
  | _, [] => []
  | O, _ :: l' => l'
  | S i', y :: l' => y :: py_pop i' l'
  end.

(** [cat[0]] on the 1-tuples of the category query. *)
Definition item0 (r : row) : value := hd VNull r.

(** [datetime.date] *)
Record date : Type := {
  year : Z;
  month : Z;
  day : Z
}.

Definition is_leap (y : Z) : bool :=
  ((y mod 4 =? 0) && (negb (y mod 100 =? 0) || (y mod 400 =? 0)))%bool.

Definition days_in_month (y m : Z) : Z :=
  if m =? 2 then (if is_leap y then 29 else 28)
  else if ((m =? 4) || (m =? 6) || (m =? 9) || (m =? 11))%bool then 30
  else 31.

Definition next_day (d : date) : date :=
  if day d <? days_in_month (year d) (month d)
  then {| year := year d; month := month d; day := day d + 1 |}
  else if month d <? 12
  then {| year := year d; month := month d + 1; day := 1 |}
  else {| year := year d + 1; month := 1; day := 1 |}.

(** [d + datetime.timedelta(days=n)] *)
Definition add_days (n : nat) (d : date) : date := Nat.iter n next_day d.

Definition digit (n : Z) : ascii := ascii_of_nat (48 + Z.to_nat (n mod 10)).

Definition pad2 (n : Z) : string :=
  String (digit (n / 10)) (String (digit n) "").

Definition pad4 (n : Z) : string :=
  String (digit (n / 1000)) (String (digit (n / 100)) (pad2 n)).

(** [d.strftime('%Y-%m-%d')], the year on four digits. *)
Definition strftime_Ymd (d : date) : string :=
  pad4 (year d) ++ "-" ++ pad2 (month d) ++ "-" ++ pad2 (day d).

(** ** hashlib

    SHA-256 (FIPS 180-4) on the bytes of a string, with its constants
    computed as the standard defines them.  The repositories take the
    digest as a parameter; this is the one [hashlib] provides. *)

Module Hashlib.
Local Open Scope N_scope.

Definition w32 (x : N) : N := x mod 4294967296.
Definition add32 (x y : N) : N := w32 (x + y).
Definition rotr (n x : N) : N :=
  N.lor (N.shiftr x n) (w32 (N.shiftl x (32 - n))).
Definition Ch (x y z : N) : N :=
  N.lxor (N.land x y) (N.land (N.lxor x 4294967295) z).
Definition Maj (x y z : N) : N :=
  N.lxor (N.lxor (N.land x y) (N.land x z)) (N.land y z).
Definition Sigma0 (x : N) : N := N.lxor (N.lxor (rotr 2 x) (rotr 13 x)) (rotr 22 x).
Definition Sigma1 (x : N) : N := N.lxor (N.lxor (rotr 6 x) (rotr 11 x)) (rotr 25 x).
Definition sigma0 (x : N) : N := N.lxor (N.lxor (rotr 7 x) (rotr 18 x)) (N.shiftr x 3).
Definition sigma1 (x : N) : N := N.lxor (N.lxor (rotr 17 x) (rotr 19 x)) (N.shiftr x 10).

Definition primes64 : list N :=
  [2; 3; 5; 7; 11; 13; 17; 19; 23; 29; 31; 37; 41; 43; 47; 53;
   59; 61; 67; 71; 73; 79; 83; 89; 97; 101; 103; 107; 109; 113; 127; 131;
   137; 139; 149; 151; 157; 163; 167; 173; 179; 181; 191; 193; 197; 199; 211; 223;
   227; 229; 233; 239; 241; 251; 257; 263; 269; 271; 277; 281; 283; 293; 307; 311].

(** Integer cube root, bit by bit from bit [b] down. *)
Fixpoint cbrt_bits (b : nat) (n r : N) : N :=
  let r' := r + N.shiftl 1 (N.of_nat b) in
  let r := if r' * r' * r' <=? n then r' else r in
  match b with
  | O => r
  | S b' => cbrt_bits b' n r
  end.

(** The first 32 bits of the fractional part of the cube root of [p]. *)
Definition frac_cbrt (p : N) : N := w32 (cbrt_bits 40 (N.shiftl p 96) 0).
(** The first 32 bits of the fractional part of the square root of [p]. *)
Definition frac_sqrt (p : N) : N := w32 (N.sqrt (N.shiftl p 64)).

Definition K : list N := Eval vm_compute in map frac_cbrt primes64.
Definition H0 : list N := Eval vm_compute in map frac_sqrt (firstn 8 primes64).

Fixpoint bytes_of (s : string) : list N :=
  match s with
  | EmptyString => []
  | String c s' => N_of_ascii c :: bytes_of s'
  end.

(** The message followed by 0x80, zeros up to 56 modulo 64, and its length
    in bits on 8 bytes. *)
Definition pad (msg : list N) : list N :=
  let len := N.of_nat (length msg) in
  let zeros := N.to_nat ((119 - len mod 64) mod 64) in
  let bits := 8 * len in
  msg ++ [128] ++ repeat 0 zeros ++
  map (fun i => N.shiftr bits (8 * i) mod 256) [7; 6; 5; 4; 3; 2; 1; 0].

(** Big-endian 32-bit words. *)
Fixpoint words (bytes : list N) : list N :=
  match bytes with
  | a :: b :: c :: d :: rest =>
      (((a * 256 + b) * 256 + c) * 256 + d) :: words rest
  | _ => []
  end.

(** The message schedule kept newest first: [w] holds W[t-1], W[t-2], ... *)
Fixpoint extend (n : nat) (w : list N) : list N :=
  match n with
  | O => w
  | S n' =>
      let x := add32 (add32 (sigma1 (nth 1 w 0)) (nth 6 w 0))
                     (add32 (sigma0 (nth 14 w 0)) (nth 15 w 0)) in
      extend n' (x :: w)
  end.

Definition message_schedule (block : list N) : list N :=
  rev (extend 48 (rev block)).

Definition round (st : list N) (kw : N * N) : list N :=
  match st with
  | [a; b; c; d; e; f; g; h] =>
      let t1 := add32 (add32 (add32 h (Sigma1 e)) (add32 (Ch e f g) (fst kw))) (snd kw) in
      let t2 := add32 (Sigma0 a) (Maj a b c) in
      [add32 t1 t2; a; b; c; add32 d t1; e; f; g]
  | _ => st
  end.

Definition compress (h : list N) (block : list N) : list N :=
  map (fun p => add32 (fst p) (snd p))
    (combine h (fold_left round (combine K (message_schedule block)) h)).

Fixpoint blocks (n : nat) (ws : list N) : list (list N) :=
  match n with
  | O => []
  | S n' =>
      match ws with
      | [] => []
      | _ => firstn 16 ws :: blocks n' (skipn 16 ws)
      end
  end.

Definition hex_digit (n : N) : ascii :=
  if n <? 10 then ascii_of_N (48 + n) else ascii_of_N (87 + n).

Definition hex32 (x : N) : string :=
  fold_right (fun i acc => String (hex_digit (N.shiftr x (4 * i) mod 16)) acc)
    EmptyString [7; 6; 5; 4; 3; 2; 1; 0].

(** [hashlib.sha256(s.encode()).hexdigest()] *)
Definition sha256_hexdigest (s : string) : string :=
  let ws := words (pad (bytes_of s)) in
  let h := fold_left compress (blocks (length ws) ws) H0 in
  fold_right (fun x acc => (hex32 x ++ acc)%string) EmptyString h.

End Hashlib.

(** ** Repositories (pro.py 218-374) *)

Section Repositories.

(** [hashlib.sha256(password.encode()).hexdigest()] *)
Variable sha256_hexdigest : string -> string.

Definition default_categories : list string :=
  ["General"; "Academic"; "Personal"; "Project"; "Urgent"].

(** pro.py 234-235 *)
Definition add_task_category (user_id : Z) (category_name : string)
  : M (option cursor) :=
  execute_query (InsertOrIgnoreCategory user_id category_name).

(** pro.py 219-227.  A cursor object is truthy, [None] is not. *)
Definition add_user (username password : string) : M (option cursor) :=
  let password_hash := sha256_hexdigest password in
  res <- execute_query (InsertUser username password_hash) ;;
  match res with
  | Some c =>
      if truthy_int (lastrowid c) then
        let user_id := lastrowid c in
        for_each default_categories
          (fun cat_name => add_task_category user_id cat_name)
      else ret tt
  | None => ret tt
  end ;;
  ret res.

(** pro.py 229-231 *)
Definition check_user (username password : string) : M (option row) :=
  let password_hash := sha256_hexdigest password in
  fetch_one (SelectUser username password_hash).

(** pro.py 239-245, on the list [cat_list]. *)
Definition general_first (cat_list : list value) : list value :=
  if negb (py_in (VText "General") cat_list) then
    VText "General" :: cat_list
  else if (py_in (VText "General") cat_list &&
           negb (Nat.eqb (py_index (VText "General") cat_list) 0))%bool then
    VText "General" :: py_pop (py_index (VText "General") cat_list) cat_list
  else cat_list.

(** pro.py 237-245.  [categories] is falsy when it is [None] or empty. *)
Definition get_task_categories (user_id : Z) : M (list value) :=
  categories <- fetch_all (SelectCategoryNames user_id) ;;
  let cat_list :=
    match categories with
    | Some (c :: cs) => map item0 (c :: cs)
    | _ => []
    end in
  ret (general_first cat_list).

(** What [delete_task_category] returns: [False], or the result of its
    last [execute_query]. *)
Inductive delete_result : Type :=
| PyFalse
| Executed (res : option cursor).

Definition truthy_result (r : delete_result) : bool :=
  match r with
  | Executed (Some _) => true
  | _ => false
  end.

(** pro.py 248-252 *)
Definition delete_task_category (user_id : Z) (category_name : string)
  : M delete_result :=
  if String.eqb (lower category_name) "general" then ret PyFalse
  else
    execute_query (UpdateTasksToGeneral user_id category_name) ;;
    res <- execute_query (DeleteCategory user_id category_name) ;;
    ret (Executed res).

(** pro.py 256-262; [user_id] may be [None].  The [print]s are not
    modelled. *)
Definition add_task (user_id : option Z) (description : string)
    (category : option string) (due_date : option string) : M (option cursor) :=
  match user_id with
  | None => ret None
  | Some uid => execute_query (InsertTask uid description category due_date)
  end.

(** Truth value of an optional Python string. *)
Definition truthy_str (o : option string) : bool :=
  match o with
  | Some s => negb (String.eqb s "")
  | None => false
  end.

(** pro.py 264-288.  [today] is [datetime.date.today()]; an argument left
    at its default [None] is [None] here.  A [limit] that is truthy is
    written into the text as [int(limit)], of any size: the engine
    refuses the statement when the number is no 64-bit integer. *)
Definition get_tasks (today : date) (user_id : Z) (show_completed : bool)
    (category_filter due_filter : option string) (limit : option Z)
  : M (option (list row)) :=
  let query := [] in
  let query := if negb show_completed then query ++ [CompletedIs0] else query in
  let query :=
    match category_filter with
    | Some c =>
        if (truthy_str category_filter && negb (String.eqb c "All Categories"))%bool
        then query ++ [CategoryIs c] else query
    | None => query
    end in
  let today_str := strftime_Ymd today in
  let query :=
    match due_filter with
    | Some f =>
        if String.eqb f "today" then query ++ [DueIs today_str]
        else if String.eqb f "upcoming" then
          let next_week_str := strftime_Ymd (add_days 7 today) in
          query ++ [DueAfter today_str; DueUpTo next_week_str]
        else if String.eqb f "overdue" then
          query ++ [DueBefore today_str; CompletedIs0]
        else query
    | None => query
    end in
  let lim :=
    match limit with
    | Some n => if truthy_int n then Some n else None
    | None => None
    end in
  fetch_all (SelectTasks user_id query lim).

(** pro.py 317-321 *)
Definition add_quiz_attempt (user_id : Z) (topic quiz_date : string)
    (score total_questions : Z) (questions_data_json : string)
  : M (option cursor) :=
  execute_query
    (InsertQuizAttempt user_id topic quiz_date score total_questions
       (Some questions_data_json)).

(** pro.py 329-332 *)
Definition get_quiz_attempt_details (attempt_id : Z) : M (option row) :=
  fetch_one (SelectQuizAttempt attempt_id).

(** pro.py 357-361 *)
Definition add_chat_message (user_id : Z) (role content : string)
  : M (option cursor) :=
  execute_query (InsertChatMessage user_id role content).

(** pro.py 363-366.  [history] is falsy when it is [None] or empty.  The
    limit is a parameter of the statement: one that is no 64-bit integer
    makes [execute] raise OverflowError, which [fetch_all] lets pass. *)
Definition get_chat_history (user_id : Z) (limit : Z) : M (list row) :=
  history <- fetch_all (SelectChatHistory user_id limit) ;;
  ret (match history with
       | Some (h :: hs) => rev (h :: hs)
       | _ => []
       end).

End Repositories.

(** The list [get_task_categories] builds from what [fetch_all] gave it. *)
Definition cat_list_of (categories : option (list row)) : list value :=
  match categories with
  | Some (c :: cs) => map item0 (c :: cs)
  | _ => []
  end.

(** ** Vocabulary of the properties *)

(** The stored tasks the overdue listing may show. *)
Definition overdue_task (today : date) (user_id : Z) (t : task_row) : Prop :=
  t_user_id t = user_id /\ t_completed t = 0 /\
  exists d, t_due_date t = Some d /\ text_lt d (strftime_Ymd today) = true.

(** The row [INSERT INTO users] adds. *)
Definition new_user_row (db : DB) (username password_hash : string) : user_row :=
  {| u_user_id := next_rowid (map u_user_id (rows (users db))) (seq (users db));
     u_username := username; u_password_hash := password_hash |}.

(** The store and the tables are the same except for [task_categories]. *)
Definition same_but_categories (db db' : DB) : Prop :=
  users db' = users db /\ tasks db' = tasks db /\
  quiz_attempts db' = quiz_attempts db /\ ai_chat_history db' = ai_chat_history db.

(** What the seeding loop keeps true of the state it runs in. *)
Definition seeded_from (db1 : DB) (uid : Z) (s : state) : Prop :=
  idle s /\ same_but_categories db1 (disk s) /\
  forall x, In x (rows (task_categories (disk s))) ->
            In x (rows (task_categories db1)) \/
            (c_user_id x = uid /\ In (c_name x) default_categories).

(** The database after one seeding insert that adds its row. *)
Definition seed (uid : Z) (db : DB) (name : string) : DB :=
  with_task_categories db
    {| rows := rows (task_categories db) ++
               [{| c_category_id :=
                     next_rowid (map c_category_id (rows (task_categories db)))
                       (seq (task_categories db));
                   c_user_id := uid; c_name := name |}];
       seq := next_rowid (map c_category_id (rows (task_categories db)))
                (seq (task_categories db)) |}.

(** Every category row belongs to a stored user: what the foreign key of
    [task_categories] maintains on connections that enforce it. *)
Definition referential_integrity (db : DB) : bool :=
  forallb (fun c => user_exists db (c_user_id c)) (rows (task_categories db)).

Definition has_category (db : DB) (uid : Z) (name : string) : bool :=
  existsb (fun c => ((c_user_id c =? uid) && String.eqb (c_name c) name)%bool)
    (rows (task_categories db)).

Definition categories_of (db : DB) (uid : Z) : list category_row :=
  filter (fun c => c_user_id c =? uid) (rows (task_categories db)).

(** The messages of a user as [ORDER BY timestamp DESC] yields them. *)
Definition recent_first (db : DB) (user_id : Z) : list chat_row :=
  order_by newer_first
    (filter (fun m => m_user_id m =? user_id) (rows (ai_chat_history db))).

Definition not_after (a b : chat_row) : Prop :=
  text_le (m_timestamp a) (m_timestamp b) = true.

(** The fields of a date fit the widths [strftime('%Y-%m-%d')] gives
    them. *)
Definition fits_Ymd (d : date) : Prop :=
  0 <= year d <= 9999 /\ 0 <= month d <= 99 /\ 0 <= day d <= 99.

(** [d1 < d2] on dates. *)
Definition date_before (d1 d2 : date) : bool :=
  match year d1 ?= year d2 with
  | Lt => true
  | Gt => false
  | Eq =>
      match month d1 ?= month d2 with
      | Lt => true
      | Gt => false
      | Eq => day d1 <? day d2
      end
  end.

(** The numbers two decimal digits write. *)
Definition two_digits : list Z := map Z.of_nat (List.seq 0%nat 100%nat).

(** ** Schema migrator: the additive column migration (pro.py 70-125)

    [init_db] works on a connection of its own, not on the handles of the
    manager, and what it reads and changes is the schema: the tables of
    [sqlite_master] with their columns in [PRAGMA table_info] order. *)

Module Migrator.

Definition schema : Type := list (string * list string).

(** [sent]: the ALTER statements handed to the cursor so far, as (table,
    column definition). *)
Record state : Type := {
  tables : schema;
  sent : list (string * string);
  faults : schedule
}.

Definition M (A : Type) : Type := SE state A.

Definition storage_call : M unit :=
  fun s =>
    match next_fault (faults s) with
    | (Some e, fs) =>
        (Raise e, {| tables := tables s; sent := sent s; faults := fs |})
    | (None, fs) =>
        (Return tt, {| tables := tables s; sent := sent s; faults := fs |})
    end.

(** The columns of the table named exactly [t] ([name=?] compares under
    the BINARY collation). *)
Fixpoint table_columns (sch : schema) (t : string) : option (list string) :=
  match sch with
  | [] => None
  | (name, cols) :: sch' =>
      if String.eqb name t then Some cols else table_columns sch' t
  end.

(** The name of the column a definition clause declares: its first word. *)
Fixpoint first_word (s : string) : string :=
  match s with
  | EmptyString => EmptyString
  | String c s' =>
      if Ascii.eqb c " "%char then EmptyString else String c (first_word s')
  end.

Fixpoint add_column (sch : schema) (t col : string) : schema :=
  match sch with
  | [] => []
  | (name, cols) :: sch' =>
      if String.eqb name t then (name, cols ++ [col]) :: sch'
      else (name, cols) :: add_column sch' t col
  end.

(** SQLite matches column names without regard to ASCII case. *)
Definition has_column_nocase (cols : list string) (col : string) : bool :=
  existsb (fun c => String.eqb (lower c) (lower col)) cols.

(** What [ALTER TABLE t ADD COLUMN definition] does to the schema.  DDL is
    not held back by a transaction of the [sqlite3] module, so its effect
    does not wait for [commit]. *)
Definition alter_table_add_column (sch : schema) (t definition : string)
  : exn + schema :=
  match table_columns sch t with
  | None => inl (OperationalError ("no such table: " ++ t))
  | Some cols =>
      let col := first_word definition in
      if has_column_nocase cols col
      then inl (OperationalError ("duplicate column name: " ++ col))
      else inr (add_column sch t col)
  end.

(** pro.py 70-72: [cursor.execute] of the lookup in [sqlite_master], then
    [cursor.fetchone() is not None]. *)
Definition _table_exists (table_name : string) : M bool :=
  storage_call ;;
  storage_call ;;
  fun s =>
    (Return (match table_columns (tables s) table_name with
             | Some _ => true
             | None => false
             end), s).

(** pro.py 74-79 *)
Definition _column_exists (table_name column_name : string) : M bool :=
  te <- _table_exists table_name ;;
  if negb te then ret false
  else
    storage_call ;;
    storage_call ;;
    fun s =>
      (Return (match table_columns (tables s) table_name with
               | Some columns => existsb (String.eqb column_name) columns
               | None => false
               end), s).

(** [cursor.execute(f"ALTER TABLE {table_name} ADD COLUMN {sql}")] *)
Definition execute_alter (table_name column_definition_sql : string) : M unit :=
  fun s =>
    let log := sent s ++ [(table_name, column_definition_sql)] in
    match next_fault (faults s) with
    | (Some e, fs) => (Raise e, {| tables := tables s; sent := log; faults := fs |})
    | (None, fs) =>
        match alter_table_add_column (tables s) table_name column_definition_sql with
        | inl e => (Raise e, {| tables := tables s; sent := log; faults := fs |})
        | inr sch => (Return tt, {| tables := sch; sent := log; faults := fs |})
        end
    end.

(** The two [except] clauses of pro.py 89-98. *)
Definition alter_handler (e : exn) : M bool :=
  match e with
  | OperationalError _ =>
      if contains "duplicate column name" (lower (exn_str e)) then ret false
      else raise e
  | _ => raise e
  end.

(** pro.py 81-103.  The [print]s are not modelled. *)
Definition _try_add_column
    (table_name column_definition_sql column_name_for_check : string) : M bool :=
  te <- _table_exists table_name ;;
  missing <- (if te
              then ce <- _column_exists table_name column_name_for_check ;;
                   ret (negb ce)
              else ret false) ;;
  if missing then
    try_except
      (execute_alter table_name column_definition_sql ;; ret true)
      alter_handler
  else
    _column_exists table_name column_name_for_check ;;
    ret false.

(** [conn.commit()] *)
Definition conn_commit : M unit := storage_call.

(** pro.py 110-125: the first [try] of [init_db]. *)
Definition init_db_migration : M unit :=
  try_except_sqlite
    (let made_schema_changes := false in
     r <- _try_add_column "tasks" "category TEXT DEFAULT 'General'" "category" ;;
     let made_schema_changes := if r then true else made_schema_changes in
     r <- _try_add_column "tasks" "created_at TEXT" "created_at" ;;
     let made_schema_changes := if r then true else made_schema_changes in
     r <- _try_add_column "quiz_attempts" "questions_data TEXT" "questions_data" ;;
     let made_schema_changes := if r then true else made_schema_changes in
     if made_schema_changes then conn_commit else ret tt)
    (fun _ => ret tt).

(** What one call of [_try_add_column] does to the schema of a store that
    answers as SQLite does. *)
Definition step (t def c : string) (sch : schema) : schema :=
  match table_columns sch t with
  | None => sch
  | Some cols =>
      if existsb (String.eqb c) cols then sch
      else if has_column_nocase cols (first_word def) then sch
      else add_column sch t (first_word def)
  end.

(** Whether that call hands an ALTER to the store. *)
Definition alters (t c : string) (sch : schema) : bool :=
  match table_columns sch t with
  | None => false
  | Some cols => negb (existsb (String.eqb c) cols)
  end.

(** Nothing is left to do for a triple: its table is missing, or the
    column checked for is there, or the column of the definition is
    there up to case. *)
Definition done (t def c : string) (sch : schema) : Prop :=
  match table_columns sch t with
  | None => True
  | Some cols =>
      existsb (String.eqb c) cols = true \/
      has_column_nocase cols (first_word def) = true
  end.

(** [sch'] has the tables of [sch], each with the columns it had and
    possibly more. *)
Definition grows (sch sch' : schema) : Prop :=
  forall t,
    match table_columns sch t, table_columns sch' t with
    | None, None => True
    | Some cols, Some cols' => exists extra, cols' = cols ++ extra
    | _, _ => False
    end.

(** The schema after the three triples of [init_db]. *)
Definition migrated (sch : schema) : schema :=
  step "quiz_attempts" "questions_data TEXT" "questions_data"
    (step "tasks" "created_at TEXT" "created_at"
       (step "tasks" "category TEXT DEFAULT 'General'" "category" sch)).

End Migrator.

(** ** Sample data *)

Module Sample.

Definition empty_db : DB :=
  {| users := {| rows := []; seq := 0 |};
     task_categories := {| rows := []; seq := 0 |};
     tasks := {| rows := []; seq := 0 |};
     quiz_attempts := {| rows := []; seq := 0 |};
     ai_chat_history := {| rows := []; seq := 0 |} |}.

Definition alice : user_row :=
  {| u_user_id := 1; u_username := "alice";
     u_password_hash := Hashlib.sha256_hexdigest "secret1" |}.

Definition category (id : Z) (name : string) : category_row :=
  {| c_category_id := id; c_user_id := 1; c_name := name |}.

Definition task (id : Z) (description category due : string) (completed : Z)
  : task_row :=
  {| t_task_id := id; t_user_id := 1; t_description := description;
     t_category := Some category; t_due_date := Some due;
     t_completed := completed; t_created_at := Some "2024-01-02 08:00:00" |}.

Definition message (id : Z) (role content timestamp : string) : chat_row :=
  {| m_message_id := id; m_user_id := 1; m_role := role; m_content := content;
     m_timestamp := timestamp |}.

(** Alice with the default categories and one of her own, four tasks and
    three chat messages. *)
Definition db : DB :=
  {| users := {| rows := [alice]; seq := 1 |};
     task_categories :=
       {| rows := [category 1 "General"; category 2 "Academic";
                   category 3 "Personal"; category 4 "Project";
                   category 5 "Urgent"; category 6 "Errands"];
          seq := 6 |};
     tasks :=
       {| rows := [task 1 "Read Ch.3" "Academic" "2024-01-10" 0;
                   task 2 "Essay draft" "Academic" "2024-03-01" 0;
                   task 3 "Buy stamps" "Errands" "2024-01-05" 1;
                   task 4 "Call home" "Personal" "2024-01-15" 0];
          seq := 4 |};
     quiz_attempts := {| rows := []; seq := 0 |};
     ai_chat_history :=
       {| rows := [message 1 "user" "What is a monad?" "2024-01-14 10:00:00";
                   message 2 "model" "A monoid in ..." "2024-01-14 10:00:05";
                   message 3 "user" "Thanks" "2024-01-14 10:01:00"];
          seq := 3 |} |}.

Definition now : string := "2024-01-15 12:00:00".

Definition today : date := {| year := 2024; month := 1; day := 15 |}.

(** A fresh manager on [db] with a store that does not fail. *)
Definition manager : state := init_manager db now [].

(** The same with a store that is locked at the first storage call. *)
Definition locked_manager : state :=
  init_manager db now [(0%nat, OperationalError "database is locked")].

(** The schema of an installation that predates the three columns. *)
Definition old_schema : Migrator.schema :=
  [("users", ["user_id"; "username"; "password_hash"]);
   ("tasks", ["task_id"; "user_id"; "description"; "due_date"; "completed"]);
   ("quiz_attempts", ["attempt_id"; "user_id"; "topic"; "quiz_date"; "score";
                      "total_questions"])].

Definition old_installation : Migrator.state :=
  {| Migrator.tables := old_schema; Migrator.sent := []; Migrator.faults := [] |}.

(** C6 and C7 at the registration of Alice on an empty database, with
    SHA-256 as the digest. *)
Definition registered : outcome (option cursor) * state :=
  add_user Hashlib.sha256_hexdigest "alice" "secret1"
    (init_manager empty_db now []).

(** C8 at a quiz attempt of Alice with one unanswered question. *)
Definition quoted (s : string) : string :=
  (String (ascii_of_nat 34) s ++ String (ascii_of_nat 34) "")%string.

Definition quiz_snapshot : string :=
  ("[{" ++ quoted "question_text" ++ ": " ++ quoted "2+2?" ++ ", " ++
   quoted "options" ++ ": [" ++ quoted "3" ++ ", " ++ quoted "4" ++ "], " ++
   quoted "correct_option_index" ++ ": 1, " ++
   quoted "explanation" ++ ": " ++ quoted "sum" ++ ", " ++
   quoted "user_answer_index" ++ ": null}]")%string.

Definition attempted : outcome (option cursor) * state :=
  add_quiz_attempt 1 "Arithmetic" "2024-01-15 12:00:00" 0 1 quiz_snapshot
    manager.

End Sample.


(** ** Vocabulary of the further properties *)

(** The category filter of [get_tasks] said of a task: [None], the empty
    string and "All Categories" select every task. *)
Definition category_selected (category_filter : option string) (t : task_row)
  : bool :=
  match category_filter with
  | None => true
  | Some c =>
      if (String.eqb c "" || String.eqb c "All Categories")%bool then true
      else match t_category t with
           | Some x => String.eqb x c
           | None => false
           end
  end.

(** The due-date filter of [get_tasks] said of a task. *)
Definition due_selected (today : date) (due_filter : option string) (t : task_row)
  : bool :=
  match due_filter with
  | None => true
  | Some f =>
      if String.eqb f "today" then
        match t_due_date t with
        | Some d => String.eqb d (strftime_Ymd today)
        | None => false
        end
      else if String.eqb f "upcoming" then
        match t_due_date t with
        | Some d => (text_lt (strftime_Ymd today) d &&
                     text_le d (strftime_Ymd (add_days 7 today)))%bool
        | None => false
        end
      else if String.eqb f "overdue" then
        match t_due_date t with
        | Some d => (text_lt d (strftime_Ymd today) && (t_completed t =? 0))%bool
        | None => false
        end
      else true
  end.

(** The tasks one call of [get_tasks] selects. *)
Definition task_selected (today : date) (user_id : Z) (show_completed : bool)
    (category_filter due_filter : option string) (t : task_row) : bool :=
  ((t_user_id t =? user_id) &&
   (show_completed || (t_completed t =? 0)) &&
   category_selected category_filter t &&
   due_selected today due_filter t)%bool.

(** What the [limit] argument of [get_tasks] and [get_study_logs] keeps
    of a listing. *)
Definition capped {A : Type} (limit : option Z) (l : list A) : list A :=
  match limit with
  | None => l
  | Some n => if n <=? 0 then l else firstn (Z.to_nat n) l
  end.

(** A task with a due date. *)
Definition dated (t : task_row) : Prop :=
  exists d, t_due_date t = Some d /\ d <> "".

(** [a] may be listed before [b]: a task without due date is not before a
    dated one, and of two dated tasks the one due later is not first. *)
Definition listed_before (a b : task_row) : Prop :=
  (dated b -> dated a) /\
  (forall x y, t_due_date a = Some x -> t_due_date b = Some y ->
               dated a -> dated b -> text_le x y = true).

(** ** Further sample data *)

Module Desk.

(** A task of Alice without due date. *)
Definition note (id : Z) (description : string) (due : option string)
  : task_row :=
  {| t_task_id := id; t_user_id := 1; t_description := description;
     t_category := Some "General"; t_due_date := due;
     t_completed := 0; t_created_at := Some "2024-01-04 08:00:00" |}.

(** The sample database with two more tasks of Alice, stored first: one
    with NULL as due date and one with the empty string. *)
Definition db : DB :=
  with_tasks Sample.db
    {| rows := note 5 "Buy milk" None :: note 6 "Water plants" (Some "") ::
               rows (tasks Sample.db);
       seq := 6 |}.

Definition manager : state := init_manager db Sample.now [].

(** [datetime.date(y, m, d).toordinal()] *)
Definition toordinal (d : date) : Z :=
  let y := year d - 1 in
  y * 365 + y / 4 - y / 100 + y / 400 +
  fold_right Z.add 0
    (map (days_in_month (year d))
       (map Z.of_nat (List.seq 1%nat (Z.to_nat (month d - 1))))) +
  day d.

Definition digit_value (c : ascii) : option Z :=
  let n := nat_of_ascii c in
  if ((48 <=? n) && (n <=? 57))%nat then Some (Z.of_nat (n - 48)) else None.

Fixpoint number (s : string) (acc : Z) : option Z :=
  match s with
  | EmptyString => Some acc
  | String c s' =>
      match digit_value c with
      | Some v => number s' (10 * acc + v)
      | None => None
      end
  end.

(** A reader of dates written with four, two and two digits, which is
    how the study tracker writes them and one of the forms [strptime]
    reads with "%Y-%m-%d"; other texts are not read. *)
Definition read_date (s : string) : option Z :=
  match number (substring 0 4 s) 0, number (substring 5 2 s) 0,
        number (substring 8 2 s) 0 with
  | Some y, Some m, Some d =>
      if ((String.length s =? 10)%nat &&
          String.eqb (substring 4 1 s) "-" && String.eqb (substring 7 1 s) "-" &&
          (1 <=? y) && (1 <=? m) && (m <=? 12) &&
          (1 <=? d) && (d <=? days_in_month y m))%bool
      then Some (toordinal {| year := y; month := m; day := d |})
      else None
  | _, _, _ => None
  end.

(** Rows as [get_study_logs] returns them: sessions on the 15th, 14th
    (two) and 13th of January 2024 and on the 11th, one row with a start
    time that is no date, and one that is too short. *)
Definition study_logs : list row :=
  [ [VInt 7; VText "Logic"; VText "2024-01-15 09:00:00"; VInt 25; VNull];
    [VInt 6; VText "Logic"; VText "2024-01-14 20:10:00"; VInt 50; VText "ch. 2"];
    [VInt 5; VText "Algebra"; VText "2024-01-14 08:00:00"; VInt 25; VNull];
    [VInt 4; VText "Algebra"; VText "2024-01-13 08:00:00"; VInt 25; VNull];
    [VInt 3; VText "Logic"; VText "yesterday"; VInt 25; VNull];
    [VInt 2; VText "Logic"];
    [VInt 1; VText "Logic"; VText "2024-01-11 08:00:00"; VInt 25; VNull] ].

End Desk.

(** The database after an INSERT OR IGNORE into [task_categories] that
    was ignored: the rows are as they were, the AUTOINCREMENT counter of
    the table has advanced by the rowid that was drawn. *)
Definition counter_advanced (db : DB) : DB :=
  with_task_categories db
    {| rows := rows (task_categories db);
       seq := next_rowid (map c_category_id (rows (task_categories db)))
                (seq (task_categories db)) |}.

(** ** Constraints of the schema *)

(** The columns of [UNIQUE(user_id, name)] (pro.py 137). *)
Definition category_key (c : category_row) : Z * string :=
  (c_user_id c, c_name c).

(** The PRIMARY KEY and UNIQUE constraints of the tables (pro.py 127-201). *)
Definition constraints (db : DB) : Prop :=
  NoDup (map u_user_id (rows (users db))) /\
  NoDup (map u_username (rows (users db))) /\
  NoDup (map c_category_id (rows (task_categories db))) /\
  NoDup (map category_key (rows (task_categories db))) /\
  NoDup (map t_task_id (rows (tasks db))) /\
  NoDup (map q_attempt_id (rows (quiz_attempts db))) /\
  NoDup (map m_message_id (rows (ai_chat_history db))).

(** ** The whole of [init_db] (pro.py 105-216) *)

Module Installer.
Import Migrator.

(** One of the [CREATE TABLE IF NOT EXISTS] statements: the table, its
    columns in order, and whether its key is AUTOINCREMENT. *)
Record create_table : Type := {
  ct_name : string;
  ct_columns : list string;
  ct_autoincrement : bool
}.

(** pro.py 127-207 *)
Definition queries : list create_table :=
  [ {| ct_name := "users";
       ct_columns := ["user_id"; "username"; "password_hash"];
       ct_autoincrement := true |};
    {| ct_name := "task_categories";
       ct_columns := ["category_id"; "user_id"; "name"];
       ct_autoincrement := true |};
    {| ct_name := "tasks";
       ct_columns := ["task_id"; "user_id"; "description"; "category";
                      "due_date"; "completed"; "created_at"];
       ct_autoincrement := true |};
    {| ct_name := "study_logs";
       ct_columns := ["log_id"; "user_id"; "subject"; "start_time";
                      "duration_minutes"; "notes"];
       ct_autoincrement := true |};
    {| ct_name := "quiz_attempts";
       ct_columns := ["attempt_id"; "user_id"; "topic"; "quiz_date"; "score";
                      "total_questions"; "questions_data"];
       ct_autoincrement := true |};
    {| ct_name := "config";
       ct_columns := ["key"; "value"];
       ct_autoincrement := false |};
    {| ct_name := "ai_generated_content";
       ct_columns := ["content_id"; "user_id"; "type"; "title"; "input_text";
                      "output_text"; "created_at"];
       ct_autoincrement := true |};
    {| ct_name := "ai_chat_history";
       ct_columns := ["message_id"; "user_id"; "role"; "content"; "timestamp"];
       ct_autoincrement := true |} ].

(** SQLite matches table names without regard to ASCII case. *)
Definition has_table_nocase (sch : schema) (t : string) : bool :=
  existsb (fun p => String.eqb (lower (fst p)) (lower t)) sch.

(** What [CREATE TABLE IF NOT EXISTS] does to a schema that holds tables
    only: nothing when a table of that name, up to case, is there;
    otherwise the table is added, and before the first table with an
    AUTOINCREMENT key so is [sqlite_sequence]. *)
Definition create_table_if_not_exists (sch : schema) (q : create_table)
  : schema :=
  if has_table_nocase sch (ct_name q) then sch
  else
    let sch' := sch ++ [(ct_name q, ct_columns q)] in
    if (ct_autoincrement q && negb (has_table_nocase sch "sqlite_sequence"))%bool
    then sch' ++ [("sqlite_sequence", ["name"; "seq"])]
    else sch'.

(** [cursor.execute(query)] for one of the [queries].  As for ALTER, the
    effect does not wait for [commit]. *)
Definition execute_create (q : create_table) : M unit :=
  fun s =>
    match next_fault (faults s) with
    | (Some e, fs) =>
        (Raise e, {| tables := tables s; sent := sent s; faults := fs |})
    | (None, fs) =>
        (Return tt,
         {| tables := create_table_if_not_exists (tables s) q;
            sent := sent s; faults := fs |})
    end.

(** [conn.close()] *)
Definition conn_close : M unit := ret tt.

(** pro.py 105-216.  The three calls before the first [try] are
    [sqlite3.connect], [conn.cursor] and the PRAGMA. *)
Definition init_db : M unit :=
  storage_call ;;
  storage_call ;;
  storage_call ;;
  init_db_migration ;;
  try_finally
    (try_except_sqlite
       (for_each queries execute_create ;; conn_commit)
       (fun _ => ret tt))
    conn_close.

(** The schema [init_db] leaves on a store that does not fail. *)
Definition installed (sch : schema) : schema :=
  fold_left create_table_if_not_exists queries (migrated sch).

(** The table [t] of query [q] is declared with column [c], when [q] is
    the query of [t]. *)
Definition declares (t c : string) (q : create_table) : bool :=
  (negb (String.eqb (ct_name q) t) || existsb (String.eqb c) (ct_columns q))%bool.

(** A database file before the first start. *)
Definition fresh : state := {| tables := []; sent := []; faults := [] |}.

End Installer.

(** ** The study streak of the analytics page (pro.py 1245-1272) *)

Section Streak.

(** [datetime.datetime.strptime(text, "%Y-%m-%d").date()], the date as its
    proleptic Gregorian ordinal; [None] stands for ValueError. *)
Variable strptime_Ymd : string -> option Z.

(** [d - datetime.timedelta(days=n)]: there is no date before the day of
    ordinal 1. *)
Definition minus_days (n d : Z) : exn + Z :=
  if d - n <? 1 then inl (PyException "OverflowError") else inr (d - n).

(** [d in unique_study_dates] *)
Definition in_set (d : Z) (dates : list Z) : bool := existsb (Z.eqb d) dates.

(** pro.py 1247-1254: the dates of the rows.  [log_item[2]] of a row
    with fewer than three items raises IndexError, which is caught, as is
    the ValueError of [strptime]; [split] on a value that is no string
    raises AttributeError, which is not. *)
Fixpoint unique_study_dates (study_logs_data : list row) : exn + list Z :=
  match study_logs_data with
  | [] => inr []
  | log_item :: rest =>
      match nth_error log_item 2 with
      | Some (VText start_time) =>
          match unique_study_dates rest with
          | inl e => inl e
          | inr dates =>
              inr (match strptime_Ymd (Migrator.first_word start_time) with
                   | Some date_obj => date_obj :: dates
                   | None => dates
                   end)
          end
      | Some _ => inl (PyException "AttributeError")
      | None => unique_study_dates rest
      end
  end.

(** The loop [while check_date in unique_study_dates] of pro.py 1261-1263
    and 1269-1271; [None] when the fuel does not suffice. *)
Fixpoint streak_loop (fuel : nat) (dates : list Z) (check_date current_streak : Z)
  : option (exn + Z) :=
  match fuel with
  | O => None
  | S fuel' =>
      if in_set check_date dates then
        match minus_days 1 check_date with
        | inl e => Some (inl e)
        | inr check_date' =>
            streak_loop fuel' dates check_date' (current_streak + 1)
        end
      else Some (inr current_streak)
  end.

(** pro.py 1245-1272.  [today] is the ordinal of [datetime.date.today()];
    the argument is what [get_study_logs] returned. *)
Definition calculate_study_streak (today : Z) (study_logs_data : option (list row))
  : option (exn + Z) :=
  match study_logs_data with
  | None | Some [] => Some (inr 0)
  | Some logs =>
      match unique_study_dates logs with
      | inl e => Some (inl e)
      | inr [] => Some (inr 0)
      | inr dates =>
          let fuel := S (length dates) in
          let studied_lately :=
            if in_set today dates then inr true
            else match minus_days 1 today with
                 | inl e => inl e
                 | inr yesterday => inr (in_set yesterday dates)
                 end in
          match studied_lately with
          | inl e => Some (inl e)
          | inr false => Some (inr 0)
          | inr true =>
              match streak_loop fuel dates today 0 with
              | Some (inr current_streak) =>
                  if current_streak =? 0 then
                    match minus_days 1 today with
                    | inl e => Some (inl e)
                    | inr yesterday =>
                        if in_set yesterday dates then
                          match minus_days 2 today with
                          | inl e => Some (inl e)
                          | inr check_date => streak_loop fuel dates check_date 1
                          end
                        else Some (inr current_streak)
                    end
                  else Some (inr current_streak)
              | other => other
              end
          end
      end
  end.

End Streak.

(** [k] days in a row up to the day [last] are in [dates], and the day
    before them is not. *)
Definition streak_ending (dates : list Z) (last : Z) (k : nat) : Prop :=
  (forall i, (i < k)%nat -> In (last - Z.of_nat i) dates) /\
  ~ In (last - Z.of_nat k) dates.
(** * Properties *)

(** ** The executor *)

(** One step of a run of the executor: split on what the fault schedule
    holds next and on what the engine answers. *)
Ltac executor_step :=
  match goal with
  | |- context [match ?fs with [] => _ | _ :: _ => _ end] =>
      is_var fs; destruct fs as [|[[|?] ?] ?]
  | |- context [match ?k with O => _ | S _ => _ end] =>
      is_var k; destruct k
  | |- context [sqlite_step ?a ?b ?c ?d] =>
      destruct (sqlite_step a b c d) as [?|[[? ?] ?]] eqn:?
  | |- context [is_sqlite3_Error ?e] =>
      destruct (is_sqlite3_Error e) eqn:?
  end; cbn.

Ltac executor_cases :=
  cbv [execute_query fetch_one fetch_all try_finally try_except_sqlite
       try_except connect bind ret raise storage_call open_connection
       new_cursor pragma_foreign_keys_on cursor_execute conn_commit
       get_cursor cursor_fetchone cursor_fetchall close with_faults
       next_fault idle];
  cbn;
  repeat executor_step.

Section ExecutorFacts.
Context {Database Statement : Type} `{Sqlite3 Database Statement}.

(** C1. For every statement and every behaviour of the store, each of
    [execute_query], [fetch_one] and [fetch_all], entered by an idle
    manager, lets no storage-layer error ([sqlite3.Error]) out, returns
    [None] when one was raised inside it, and on every exit path has closed
    the connection it opened and reset [self.conn] and [self.cursor] to
    [None]. *)
Theorem executor_contains_errors_and_closes :
  forall (query : Statement) (s : state),
    idle s ->
    contained (connect ;; cursor_execute query ;; conn_commit ;; get_cursor)
              (execute_query query) s /\
    contained (connect ;; cursor_execute query ;; cursor_fetchone)
              (fetch_one query) s /\
    contained (connect ;; cursor_execute query ;; rows <- cursor_fetchall ;;
               ret (Some rows))
              (fetch_all query) s.
Proof.
  intros query [cn cu d ck n fs] [Hcn Hcu]; cbn in Hcn, Hcu; subst.
  unfold contained.
  repeat split.
  all: executor_cases.
  all: try (intros; congruence).
  all: try reflexivity.
Qed.


Lemma execute_query_quiet (query : Statement) (s : state) :
  idle s -> faults s = [] ->
  execute_query query s =
    match sqlite_step true (clock s) query (disk s) with
    | inl e => (if is_sqlite3_Error e then Return None else Raise e, s)
    | inr (db', rid, rows) =>
        (Return (Some {| lastrowid := rid; pending := rows |}), with_disk s db')
    end.
Proof.
  destruct s as [cn cu d ck n fs]; intros [Hcn Hcu] Hfs; cbn in *; subst.
  executor_cases; reflexivity.
Qed.

Lemma fetch_one_quiet (query : Statement) (s : state) :
  idle s -> faults s = [] ->
  fetch_one query s =
    match sqlite_step true (clock s) query (disk s) with
    | inl e => (if is_sqlite3_Error e then Return None else Raise e, s)
    | inr (_, _, rows) => (Return (hd_error rows), s)
    end.
Proof.
  destruct s as [cn cu d ck n fs]; intros [Hcn Hcu] Hfs; cbn in *; subst.
  executor_cases; reflexivity.
Qed.

Lemma fetch_all_quiet (query : Statement) (s : state) :
  idle s -> faults s = [] ->
  fetch_all query s =
    match sqlite_step true (clock s) query (disk s) with
    | inl e => (if is_sqlite3_Error e then Return None else Raise e, s)
    | inr (_, _, rows) => (Return (Some rows), s)
    end.
Proof.
  destruct s as [cn cu d ck n fs]; intros [Hcn Hcu] Hfs; cbn in *; subst.
  executor_cases; reflexivity.
Qed.

Ltac settle :=
  repeat split; cbn;
  try reflexivity;
  try (intros ? ?; cbn in *; tauto).

(** Whatever the store does, [execute_query] ends in one of three ways:
    [None] with the file untouched; an exception that is no
    [sqlite3.Error], raised by the environment or the engine, with the
    file untouched; or the cursor of a statement that ran and was
    committed. *)
Lemma execute_query_outcomes (query : Statement) (s : state) :
  idle s ->
  let r := fst (execute_query query s) in
  let s' := snd (execute_query query s) in
  settled s s' /\
  ((r = Return None /\ disk s' = disk s) \/
   (exists e, r = Raise e /\ is_sqlite3_Error e = false /\ disk s' = disk s /\
              (In e (map snd (faults s)) \/
               sqlite_step true (clock s) query (disk s) = inl e)) \/
   (exists db' rid rows,
      sqlite_step true (clock s) query (disk s) = inr (db', rid, rows) /\
      r = Return (Some {| lastrowid := rid; pending := rows |}) /\
      disk s' = db')).
Proof.
  destruct s as [cn cu d ck n fs]; intros [Hcn Hcu]; cbn in *; subst.
  unfold settled.
  executor_cases.
  all: split; [settle|].
  all: first
    [ left; split; reflexivity
    | right; left; eexists; repeat split;
      [eassumption | cbn; tauto]
    | right; left; eexists; repeat split;
      [eassumption | right; eassumption]
    | right; right; do 3 eexists; repeat split; eassumption ].
Qed.

(** The same for the two reads, which never change the file. *)
Lemma fetch_one_outcomes (query : Statement) (s : state) :
  idle s ->
  let r := fst (fetch_one query s) in
  let s' := snd (fetch_one query s) in
  settled s s' /\ disk s' = disk s /\
  (r = Return None \/
   (exists e, r = Raise e /\ is_sqlite3_Error e = false /\
              (In e (map snd (faults s)) \/
               sqlite_step true (clock s) query (disk s) = inl e)) \/
   (exists db' rid rows,
      sqlite_step true (clock s) query (disk s) = inr (db', rid, rows) /\
      r = Return (hd_error rows))).
Proof.
  destruct s as [cn cu d ck n fs]; intros [Hcn Hcu]; cbn in *; subst.
  unfold settled.
  executor_cases.
  all: split; [settle|]; split; [reflexivity|].
  all: first
    [ left; reflexivity
    | right; left; eexists; repeat split;
      [eassumption | cbn; tauto]
    | right; left; eexists; repeat split;
      [eassumption | right; eassumption]
    | right; right; do 3 eexists; repeat split; eassumption ].
Qed.

Lemma fetch_all_outcomes (query : Statement) (s : state) :
  idle s ->
  let r := fst (fetch_all query s) in
  let s' := snd (fetch_all query s) in
  settled s s' /\ disk s' = disk s /\
  (r = Return None \/
   (exists e, r = Raise e /\ is_sqlite3_Error e = false /\
              (In e (map snd (faults s)) \/
               sqlite_step true (clock s) query (disk s) = inl e)) \/
   (exists db' rid rows,
      sqlite_step true (clock s) query (disk s) = inr (db', rid, rows) /\
      r = Return (Some rows))).
Proof.
  destruct s as [cn cu d ck n fs]; intros [Hcn Hcu]; cbn in *; subst.
  unfold settled.
  executor_cases.
  all: split; [settle|]; split; [reflexivity|].
  all: first
    [ left; reflexivity
    | right; left; eexists; repeat split;
      [eassumption | cbn; tauto]
    | right; left; eexists; repeat split;
      [eassumption | right; eassumption]
    | right; right; do 3 eexists; repeat split; eassumption ].
Qed.

(** *** One fault in a run of [execute_query] *)

(** A storage-layer error at one of the five storage calls of
    [execute_query] (three of [connect], the statement, the commit). *)
Lemma execute_query_early_fault (query : Statement) (s : state) (n : nat)
    (e : exn) (rest : schedule) :
  idle s -> faults s = (n, e) :: rest -> is_sqlite3_Error e = true ->
  (n <= 3)%nat \/
  (n = 4%nat /\ exists r, sqlite_step true (clock s) query (disk s) = inr r) ->
  execute_query query s = (Return None, with_faults s rest).
Proof.
  destruct s as [cn cu d ck k fs]; intros [Hcn Hcu] Hfs He Hn; cbn in *; subst.
  destruct Hn as [Hn|[-> ([[db' rid] rws] & Hr)]].
  - do 4 (destruct n as [|n]; [executor_cases; congruence|]). lia.
  - executor_cases; congruence.
Qed.

(** The faults to come after five storage calls leave a statement that
    the engine accepts alone. *)
Lemma execute_query_late_fault (query : Statement) (s : state) (n : nat)
    (e : exn) (rest : schedule) (db' : Database) (rid : Z) (rws : list row) :
  idle s -> faults s = ((5 + n)%nat, e) :: rest ->
  sqlite_step true (clock s) query (disk s) = inr (db', rid, rws) ->
  execute_query query s =
    (Return (Some {| lastrowid := rid; pending := rws |}),
     with_faults (with_disk s db') ((n, e) :: rest)).
Proof.
  destruct s as [cn cu d ck k fs]; intros [Hcn Hcu] Hfs Hr; cbn in *; subst.
  executor_cases; congruence.
Qed.

End ExecutorFacts.

(** ** Ordering and lists *)

Lemma text_le_refl (a : string) : text_le a a = true.
Proof.
  unfold text_le, String.leb.
  replace (String.compare a a) with Eq; [reflexivity|].
  symmetry; apply String_as_OT.cmp_eq; reflexivity.
Qed.

Lemma text_le_total (a b : string) : text_le a b = true \/ text_le b a = true.
Proof. apply String.leb_total. Qed.

Lemma text_le_cases (a b : string) :
  text_le a b = true <-> String_as_OT.lt a b \/ a = b.
Proof.
  unfold text_le, String.leb.
  destruct (String.compare a b) eqn:E.
  - apply String_as_OT.cmp_eq in E. intuition.
  - apply String_as_OT.cmp_lt in E. intuition.
  - split; [discriminate|].
    intros [L|L].
    + apply String_as_OT.cmp_lt in L. unfold String_as_OT.cmp in L. congruence.
    + apply String_as_OT.cmp_eq in L. unfold String_as_OT.cmp in L. congruence.
Qed.

Lemma text_le_trans (a b c : string) :
  text_le a b = true -> text_le b c = true -> text_le a c = true.
Proof.
  rewrite !text_le_cases.
  intros [L1|E1] [L2|E2]; subst; auto.
  left; eapply String_as_OT.lt_trans; eassumption.
Qed.

Lemma text_lt_cases (a b : string) :
  text_lt a b = true <-> String_as_OT.lt a b.
Proof.
  unfold text_lt, String.ltb.
  rewrite <- String_as_OT.cmp_lt. unfold String_as_OT.cmp.
  destruct (String.compare a b); intuition discriminate.
Qed.

(** A text strictly below another is not equal to it and not above it. *)
Lemma text_lt_strict (a b : string) :
  text_lt a b = true -> a <> b /\ text_lt b a = false /\ text_le b a = false.
Proof.
  intros L. apply text_lt_cases in L.
  repeat split.
  - intros ->. exact (String_as_OT.lt_not_eq _ _ L eq_refl).
  - destruct (text_lt b a) eqn:E; [|reflexivity].
    apply text_lt_cases in E.
    exfalso. exact (String_as_OT.lt_not_eq _ _ (String_as_OT.lt_trans _ _ _ L E) eq_refl).
  - destruct (text_le b a) eqn:E; [|reflexivity].
    apply text_le_cases in E. destruct E as [E|E].
    + exfalso. exact (String_as_OT.lt_not_eq _ _ (String_as_OT.lt_trans _ _ _ L E) eq_refl).
    + subst. exfalso. exact (String_as_OT.lt_not_eq _ _ L eq_refl).
Qed.

Section OrderByFacts.
Context {A : Type} (before : A -> A -> bool).

Lemma insert_row_perm (x : A) (l : list A) :
  Permutation (insert_row before x l) (x :: l).
Proof.
  induction l as [|y l IH]; cbn; [reflexivity|].
  destruct (before x y); [reflexivity|].
  rewrite IH. apply perm_swap.
Qed.

Lemma order_by_perm (l : list A) : Permutation (order_by before l) l.
Proof.
  induction l as [|x l IH]; cbn; [reflexivity|].
  rewrite insert_row_perm. now constructor.
Qed.

Lemma order_by_In (x : A) (l : list A) : In x (order_by before l) <-> In x l.
Proof.
  split; apply Permutation_in;
    [apply order_by_perm | symmetry; apply order_by_perm].
Qed.

Hypothesis before_total : forall a b, before a b = true \/ before b a = true.
Hypothesis before_trans :
  forall a b c, before a b = true -> before b c = true -> before a c = true.

Lemma insert_row_sorted (x : A) (l : list A) :
  StronglySorted (fun a b => before a b = true) l ->
  StronglySorted (fun a b => before a b = true) (insert_row before x l).
Proof.
  induction 1 as [|y l S IH F]; cbn.
  - repeat constructor.
  - destruct (before x y) eqn:E.
    + constructor; [constructor; assumption|].
      constructor; [assumption|].
      rewrite Forall_forall in *. eauto.
    + constructor; [assumption|].
      rewrite Forall_forall in *. intros z Hz.
      apply (Permutation_in _ (insert_row_perm x l)) in Hz.
      destruct Hz as [<-|Hz]; [|auto].
      destruct (before_total x y); congruence.
Qed.

Lemma order_by_sorted (l : list A) :
  StronglySorted (fun a b => before a b = true) (order_by before l).
Proof.
  induction l; cbn; [constructor | now apply insert_row_sorted].
Qed.

End OrderByFacts.

Lemma StronglySorted_app_inv {A : Type} (R : A -> A -> Prop) (l1 l2 : list A) :
  StronglySorted R (l1 ++ l2) ->
  StronglySorted R l1 /\ StronglySorted R l2 /\
  (forall x y, In x l1 -> In y l2 -> R x y).
Proof.
  induction l1 as [|a l1 IH]; cbn; intros S.
  - repeat split; [constructor | assumption | contradiction].
  - apply StronglySorted_inv in S. destruct S as [S F].
    destruct (IH S) as (S1 & S2 & C).
    rewrite Forall_forall in F.
    repeat split; [|assumption|].
    + constructor; [assumption|].
      rewrite Forall_forall. intros z Hz. apply F, in_or_app; auto.
    + intros x y [<-|Hx] Hy; [apply F, in_or_app; auto | auto].
Qed.

Lemma StronglySorted_snoc {A : Type} (R : A -> A -> Prop) (l : list A) (a : A) :
  StronglySorted R l -> (forall x, In x l -> R x a) ->
  StronglySorted R (l ++ [a]).
Proof.
  induction 1 as [|b l S IH F]; cbn; intros C.
  - repeat constructor.
  - constructor; [apply IH; auto|].
    rewrite Forall_forall in *. intros z Hz.
    apply in_app_or in Hz. destruct Hz as [Hz|[<-|[]]]; auto.
Qed.

Lemma StronglySorted_rev {A : Type} (R : A -> A -> Prop) (l : list A) :
  StronglySorted R l -> StronglySorted (fun a b => R b a) (rev l).
Proof.
  induction 1 as [|a l S IH F]; cbn; [constructor|].
  apply StronglySorted_snoc; [assumption|].
  rewrite Forall_forall in F. intros x Hx. apply F. now apply in_rev.
Qed.

Lemma StronglySorted_map {A B : Type} (R : B -> B -> Prop) (f : A -> B)
    (l : list A) :
  StronglySorted (fun a b => R (f a) (f b)) l -> StronglySorted R (map f l).
Proof.
  induction 1 as [|a l S IH F]; cbn; constructor; [assumption|].
  rewrite Forall_forall in *. intros y Hy.
  apply in_map_iff in Hy. destruct Hy as (x & <- & Hx). auto.
Qed.

(** ** Categories *)

Lemma value_eqb_eq (a b : value) : value_eqb a b = true <-> a = b.
Proof.
  destruct a, b; cbn; try (split; [discriminate | congruence]).
  - tauto.
  - rewrite Z.eqb_eq. split; congruence.
  - rewrite String.eqb_eq. split; congruence.
Qed.

Lemma py_in_In (x : value) (l : list value) : py_in x l = true <-> In x l.
Proof.
  unfold py_in. rewrite existsb_exists. split.
  - intros (y & Hy & E). apply value_eqb_eq in E. now subst.
  - intros Hx. exists x. split; [assumption | now apply value_eqb_eq].
Qed.

(** Popping the first occurrence of a member splits the list around it. *)
Lemma py_pop_index (x : value) (l : list value) :
  In x l ->
  exists l1 l2, l = l1 ++ x :: l2 /\ ~ In x l1 /\
                py_pop (py_index x l) l = l1 ++ l2 /\
                (py_index x l = 0%nat -> l1 = []).
Proof.
  induction l as [|y l IH]; [contradiction|].
  intros Hin. cbn.
  destruct (value_eqb y x) eqn:E.
  - apply value_eqb_eq in E. subst y.
    exists [], l. repeat split; auto.
  - assert (Hin' : In x l).
    { destruct Hin as [->|]; [|assumption].
      assert (value_eqb x x = true) by now apply value_eqb_eq. congruence. }
    destruct (IH Hin') as (l1 & l2 & -> & Hn & Hp & _).
    exists (y :: l1), l2. repeat split.
    + cbn. intros [->|]; [|auto].
      assert (value_eqb x x = true) by now apply value_eqb_eq. congruence.
    + cbn. now rewrite Hp.
    + discriminate.
Qed.

(** [general_first] puts "General" in front: synthesized when the list
    lacks it, moved from its first position otherwise. *)
Lemma general_first_spec (l : list value) :
  (~ In (VText "General") l /\ general_first l = VText "General" :: l) \/
  (exists l1 l2, l = l1 ++ VText "General" :: l2 /\ ~ In (VText "General") l1 /\
                 general_first l = VText "General" :: l1 ++ l2).
Proof.
  unfold general_first.
  destruct (py_in (VText "General") l) eqn:E; cbn.
  - right. apply py_in_In in E.
    destruct (py_pop_index _ _ E) as (l1 & l2 & Hl & Hn & Hp & H0).
    exists l1, l2. repeat split; [assumption..|].
    destruct (Nat.eqb (py_index (VText "General") l) 0) eqn:E0; cbn.
    + apply Nat.eqb_eq in E0. rewrite (H0 E0) in *. now subst.
    + now rewrite Hp.
  - left. split; [|reflexivity].
    intros Hin. apply py_in_In in Hin. congruence.
Qed.

Lemma general_first_head (l : list value) :
  hd_error (general_first l) = Some (VText "General").
Proof.
  destruct (general_first_spec l) as [[_ ->]|(l1 & l2 & _ & _ & ->)]; reflexivity.
Qed.

Lemma general_first_keeps (x : value) (l : list value) :
  In x (general_first l) -> x = VText "General" \/ In x l.
Proof.
  destruct (general_first_spec l) as [[_ ->]|(l1 & l2 & -> & _ & ->)]; cbn.
  - intros [<-|]; auto.
  - intros [<-|Hx]; auto. right.
    apply in_app_or in Hx. apply in_or_app. cbn. tauto.
Qed.

Lemma category_names_sorted (db : DB) (user_id : Z) :
  StronglySorted (fun a b => text_le a b = true) (category_names db user_id).
Proof.
  unfold category_names. apply StronglySorted_map.
  apply (order_by_sorted name_before).
  - intros a b. apply text_le_total.
  - intros a b c. apply text_le_trans.
Qed.

Lemma map_item0 (names : list string) :
  map item0 (map (fun n => [VText n]) names) = map VText names.
Proof. rewrite map_map. reflexivity. Qed.

Lemma get_task_categories_unfold (user_id : Z) (s : state) :
  get_task_categories user_id s =
    match fetch_all (SelectCategoryNames user_id) s with
    | (Return categories, s') => (Return (general_first (cat_list_of categories)), s')
    | (Raise e, s') => (Raise e, s')
    end.
Proof.
  unfold get_task_categories, bind, ret, cat_list_of.
  destruct (fetch_all _ s) as [[c|e] s']; reflexivity.
Qed.

Lemma select_category_names_rows (fk : bool) (now : string) (db : DB) (uid : Z) :
  run_stmt fk now (SelectCategoryNames uid) db =
    inr (db, 0, map (fun n => [VText n]) (category_names db uid)).
Proof. unfold category_names. cbn. now rewrite map_map. Qed.

Lemma cat_list_of_rows (names : list string) :
  cat_list_of (Some (map (fun n => [VText n]) names)) = map VText names.
Proof. destruct names; cbn; [reflexivity|]. now rewrite map_map. Qed.

Lemma in_map_VText (x : string) (l : list string) :
  In (VText x) (map VText l) <-> In x l.
Proof.
  rewrite in_map_iff. split.
  - intros (y & E & Hy). now inversion E; subst.
  - intros Hx. now exists x.
Qed.

Lemma map_VText_split (l : list string) (v1 v2 : list value) (x : string) :
  map VText l = v1 ++ VText x :: v2 ->
  exists l1 l2, l = l1 ++ x :: l2 /\ v1 = map VText l1 /\ v2 = map VText l2.
Proof.
  revert v1. induction l as [|a l IH]; intros [|b v1] E; cbn in E; try discriminate.
  - inversion E; subst. exists [], l. auto.
  - inversion E; subst. destruct (IH _ H1) as (l1 & l2 & -> & -> & ->).
    exists (a :: l1), l2. auto.
Qed.

(** C5. For every user, what [get_task_categories] returns starts with
    "General", whatever the store does; it does return unless the
    environment raises an exception that is no storage error; and when the
    store does not fail the list is "General" followed by the stored names
    of the user in the order of [ORDER BY name], without the "General" the
    store held. *)
Theorem get_task_categories_general_first :
  forall (user_id : Z) (s : state),
    idle s ->
    (forall l s', get_task_categories user_id s = (Return l, s') ->
                  hd_error l = Some (VText "General")) /\
    (Forall (fun e => is_sqlite3_Error e = true) (map snd (faults s)) ->
     exists l, fst (get_task_categories user_id s) = Return l) /\
    (faults s = [] ->
     let names := category_names (disk s) user_id in
     StronglySorted (fun a b => text_le a b = true) names /\
     exists rest,
       get_task_categories user_id s =
         (Return (VText "General" :: map VText rest), s) /\
       ((~ In "General" names /\ rest = names) \/
        (exists l1 l2, names = l1 ++ "General" :: l2 /\
                       ~ In "General" l1 /\ rest = l1 ++ l2))).
Proof.
  intros user_id s Hidle.
  split; [|split].
  - intros l s'. rewrite get_task_categories_unfold.
    destruct (fetch_all _ s) as [[c|e] s1]; [|discriminate].
    intros E. inversion E; subst. apply general_first_head.
  - intros Hsql. rewrite get_task_categories_unfold.
    pose proof (fetch_all_outcomes (SelectCategoryNames user_id) s Hidle) as O.
    destruct (fetch_all _ s) as [[c|e] s1]; cbn in O |- *; [eauto|].
    exfalso.
    destruct O as (_ & _ & [O|[(e' & E & Hn & [Hin|Hrun])|(? & ? & ? & _ & O)]]);
      try discriminate.
    inversion E; subst e'. rewrite Forall_forall in Hsql.
    rewrite (Hsql _ Hin) in Hn. discriminate.
  - intros Hq names. split; [apply category_names_sorted|].
    rewrite get_task_categories_unfold.
    rewrite (fetch_all_quiet _ s Hidle Hq). cbn [sqlite_step study_db].
    rewrite select_category_names_rows, cat_list_of_rows.
    fold names.
    destruct (general_first_spec (map VText names))
      as [[Hn ->]|(v1 & v2 & Hl & Hn & ->)].
    + exists names. split; [reflexivity|]. left. split; [|reflexivity].
      now rewrite <- in_map_VText.
    + apply map_VText_split in Hl. destruct Hl as (l1 & l2 & Hl & -> & ->).
      exists (l1 ++ l2). split; [now rewrite map_app|].
      right. exists l1, l2. rewrite in_map_VText in Hn. auto.
Qed.

Lemma get_chat_history_unfold (user_id limit : Z) (s : state) :
  get_chat_history user_id limit s =
    match fetch_all (SelectChatHistory user_id limit) s with
    | (Return history, s') =>
        (Return (match history with
                 | Some (h :: hs) => rev (h :: hs)
                 | _ => []
                 end), s')
    | (Raise e, s') => (Raise e, s')
    end.
Proof.
  unfold get_chat_history, bind, ret.
  destruct (fetch_all _ s) as [[c|e] s']; reflexivity.
Qed.

(** What a returned category list can hold: "General" and stored names of
    the user. *)
Lemma get_task_categories_members (user_id : Z) (s s' : state) (l : list value) :
  idle s ->
  get_task_categories user_id s = (Return l, s') ->
  forall x, In x l ->
    x = VText "General" \/
    exists n, x = VText n /\ In n (category_names (disk s) user_id).
Proof.
  intros Hidle. rewrite get_task_categories_unfold.
  pose proof (fetch_all_outcomes (SelectCategoryNames user_id) s Hidle) as O.
  destruct (fetch_all _ s) as [[c|e] s1]; [|discriminate].
  cbn [fst snd] in O. intros E x Hx. inversion E; subst. clear E.
  apply general_first_keeps in Hx. destruct Hx as [Hx|Hx]; [auto|].
  right.
  destruct O as (_ & _ & [O|[(e' & O & _)|(db' & rid & rws & Hrun & O)]]);
    try discriminate.
  - inversion O; subst. contradiction.
  - inversion O; subst. clear O.
    cbn [sqlite_step study_db] in Hrun.
    rewrite select_category_names_rows in Hrun. inversion Hrun; subst.
    rewrite cat_list_of_rows in Hx.
    apply in_map_iff in Hx. destruct Hx as (n & <- & Hn). eauto.
Qed.

(** C10. When its [fetch_all] yields the failure sentinel,
    [get_task_categories] returns the plain list ["General"], which is
    also what it returns for a user whose only stored category is
    "General"; [get_chat_history] then returns the empty list.  Any
    [sqlite3.Error] at the first storage call is such a failure. *)
Theorem fetch_failure_is_masked :
  forall (user_id : Z) (s : state),
    idle s ->
    (forall s', fetch_all (SelectCategoryNames user_id) s = (Return None, s') ->
       get_task_categories user_id s = (Return [VText "General"], s')) /\
    (forall limit s',
       fetch_all (SelectChatHistory user_id limit) s = (Return None, s') ->
       get_chat_history user_id limit s = (Return [], s')) /\
    (forall s2, idle s2 -> faults s2 = [] ->
       category_names (disk s2) user_id = ["General"] ->
       get_task_categories user_id s2 = (Return [VText "General"], s2)) /\
    (forall e rest, is_sqlite3_Error e = true -> faults s = (0%nat, e) :: rest ->
       fst (fetch_all (SelectCategoryNames user_id) s) = Return None /\
       fst (get_task_categories user_id s) = Return [VText "General"] /\
       forall limit,
         fst (fetch_all (SelectChatHistory user_id limit) s) = Return None /\
         fst (get_chat_history user_id limit s) = Return []).
Proof.
  intros user_id s Hidle. repeat split.
  4-7: try rewrite get_task_categories_unfold.
  4-7: try rewrite get_chat_history_unfold.
  4-7: destruct s as [cn cu d ck n fs]; destruct Hidle as [Hcn Hcu];
    cbn in Hcn, Hcu, H0; subst.
  4-7: executor_cases; try reflexivity; congruence.
  - intros s' E. rewrite get_task_categories_unfold, E. reflexivity.
  - intros limit s' E. rewrite get_chat_history_unfold, E. reflexivity.
  - intros s2 Hidle2 Hq Hn.
    rewrite get_task_categories_unfold, (fetch_all_quiet _ s2 Hidle2 Hq).
    cbn [sqlite_step study_db].
    rewrite select_category_names_rows, Hn. reflexivity.
Qed.

(** ** Deleting a category *)

Lemma lower_General_not (name : string) :
  String.eqb (lower name) "general" = false -> name <> "General".
Proof. intros E ->. cbn in E. discriminate. Qed.

Lemma retarget_not_in (uid : Z) (name : string) (t : task_row) :
  name <> "General" ->
  t_user_id (retarget uid name t) = uid ->
  t_category (retarget uid name t) <> Some name.
Proof.
  intros Hne. unfold retarget.
  destruct (t_user_id t =? uid) eqn:Eu; cbn.
  - destruct (t_category t) as [c|] eqn:Ec; cbn.
    + destruct (String.eqb c name) eqn:En; cbn.
      * intros _ E. inversion E. congruence.
      * intros _. rewrite Ec. intros E. inversion E; subst.
        rewrite String.eqb_refl in En. discriminate.
    + intros _. rewrite Ec. discriminate.
  - intros E. apply Z.eqb_neq in Eu. contradiction.
Qed.

Lemma category_names_In (db : DB) (uid : Z) (n : string) :
  In n (category_names db uid) <->
  exists c, In c (rows (task_categories db)) /\ c_user_id c = uid /\ c_name c = n.
Proof.
  unfold category_names. rewrite in_map_iff. split.
  - intros (c & <- & Hc). apply order_by_In, filter_In in Hc.
    destruct Hc as [Hc Hu]. apply Z.eqb_eq in Hu. eauto.
  - intros (c & Hc & Hu & <-). exists c. split; [reflexivity|].
    apply order_by_In, filter_In. split; [assumption | now apply Z.eqb_eq].
Qed.

Lemma idle_with_disk (s : state) (db : DB) : idle s -> idle (with_disk s db).
Proof. intros H; exact H. Qed.

(** C3, as amended. [delete_task_category] refuses a name that is
    "General" up to case: it returns [False] and changes nothing.  For any
    other name, when the store does not fail, it sets the category of
    every task of the user in that category to "General" and then deletes
    the category row of the user: no task of the user keeps the name, the
    tasks that had it are in "General", other tasks are as they were, and
    the name is no longer in what [get_task_categories] returns for the
    user.  The UPDATE is committed before the DELETE is sent: when the
    store fails once, with a storage-layer error, during the DELETE, the
    call returns [None], the tasks have been moved and the category row
    is still there. *)
Theorem delete_task_category_spec :
  forall (user_id : Z) (name : string) (s : state),
    idle s ->
    (String.eqb (lower name) "general" = true ->
     delete_task_category user_id name s = (Return PyFalse, s) /\
     truthy_result PyFalse = false) /\
    (String.eqb (lower name) "general" = false -> faults s = [] ->
     exists res s',
       delete_task_category user_id name s = (Return (Executed (Some res)), s') /\
       idle s' /\ faults s' = [] /\
       rows (tasks (disk s')) = map (retarget user_id name) (rows (tasks (disk s))) /\
       (forall t, In t (rows (tasks (disk s'))) -> t_user_id t = user_id ->
                  t_category t <> Some name) /\
       (forall t, In t (rows (tasks (disk s))) -> t_user_id t = user_id ->
                  t_category t = Some name ->
                  t_category (retarget user_id name t) = Some "General") /\
       (forall t, In t (rows (tasks (disk s))) ->
                  (t_user_id t <> user_id \/ t_category t <> Some name) ->
                  retarget user_id name t = t) /\
       rows (task_categories (disk s')) =
         filter (fun c => negb ((c_user_id c =? user_id) && String.eqb (c_name c) name))
           (rows (task_categories (disk s))) /\
       (forall s2 l s3, idle s2 -> disk s2 = disk s' ->
          get_task_categories user_id s2 = (Return l, s3) ->
          ~ In (VText name) l)) /\
    (forall (n : nat) (e : exn),
       String.eqb (lower name) "general" = false ->
       is_sqlite3_Error e = true ->
       faults s = [(n, e)] -> (5 <= n <= 9)%nat ->
       exists s',
         delete_task_category user_id name s = (Return (Executed None), s') /\
         rows (tasks (disk s')) =
           map (retarget user_id name) (rows (tasks (disk s))) /\
         task_categories (disk s') = task_categories (disk s)).
Proof.
  intros user_id name s Hidle. split; [|split].
  3:{ intros n e Hg He Hf Hn. unfold delete_task_category. rewrite Hg.
      destruct n as [|[|[|[|[|m]]]]]; try lia.
      unfold bind at 1.
      erewrite execute_query_late_fault;
        [|exact Hidle|exact Hf|cbn [sqlite_step study_db run_stmt]; reflexivity].
      unfold bind at 1.
      rewrite (execute_query_early_fault _ _ m e []);
        try assumption; try reflexivity.
      2:{ destruct (Nat.eq_dec m 4) as [->|]; [right|left; lia].
          split; [reflexivity|]. cbn [sqlite_step study_db run_stmt]. eauto. }
      unfold ret. eexists. split; [reflexivity|].
      destruct s; split; reflexivity. }
  - intros E. unfold delete_task_category. rewrite E. split; reflexivity.
  - intros E Hq. unfold delete_task_category. rewrite E.
    pose proof (lower_General_not _ E) as Hne.
    unfold bind at 1.
    rewrite (execute_query_quiet _ s Hidle Hq). cbn [sqlite_step study_db run_stmt].
    unfold bind at 1.
    rewrite (execute_query_quiet _ (with_disk s _)
               (idle_with_disk _ _ Hidle) Hq).
    cbn [sqlite_step study_db run_stmt]. unfold ret.
    eexists _, _. split; [reflexivity|].
    cbn [with_disk disk faults self_conn self_cursor clock open_conns
         with_tasks with_task_categories tasks task_categories rows seq].
    repeat split.
    + apply Hidle.
    + apply Hidle.
    + assumption.
    + intros t Ht Hu. apply in_map_iff in Ht. destruct Ht as (t0 & <- & _).
      now apply retarget_not_in.
    + intros t _ Hu Hc. unfold retarget. cbn. rewrite Hc, Hu, Z.eqb_refl,
        String.eqb_refl. reflexivity.
    + intros t _ Hc. unfold retarget. cbn.
      destruct (t_user_id t =? user_id) eqn:Eu; [|reflexivity].
      apply Z.eqb_eq in Eu.
      destruct (t_category t) as [c|]; [|reflexivity].
      destruct (String.eqb c name) eqn:En; [|reflexivity].
      apply String.eqb_eq in En. subst. destruct Hc; congruence.
    + intros s2 l s3 Hidle2 Hd Hg Hin.
      destruct (get_task_categories_members _ _ _ _ Hidle2 Hg _ Hin)
        as [Hx|(n & Hx & Hn)].
      * inversion Hx. contradiction.
      * inversion Hx; subst n. rewrite Hd in Hn.
        apply category_names_In in Hn. destruct Hn as (c & Hc & Hu & Hcn).
        cbn in Hc. apply filter_In in Hc. destruct Hc as [_ Hc].
        rewrite Hu, Hcn, Z.eqb_refl, String.eqb_refl in Hc. discriminate.
Qed.

(** ** Dates as text *)

Lemma compare_append (a1 a2 b1 b2 : string) :
  String.length a1 = String.length a2 ->
  String.compare (a1 ++ b1) (a2 ++ b2) =
    match String.compare a1 a2 with
    | Eq => String.compare b1 b2
    | c => c
    end.
Proof.
  revert a2. induction a1 as [|c1 a1 IH]; intros [|c2 a2] L; cbn in L;
    try discriminate; cbn; [reflexivity|].
  destruct (Ascii.compare c1 c2); [|reflexivity..].
  apply IH. now inversion L.
Qed.

Lemma two_digits_In (n : Z) : 0 <= n <= 99 -> In n two_digits.
Proof.
  intros H. unfold two_digits. apply in_map_iff.
  exists (Z.to_nat n). split; [lia|]. apply in_seq. lia.
Qed.

Lemma pad2_compare (a b : Z) :
  0 <= a <= 99 -> 0 <= b <= 99 ->
  String.compare (pad2 a) (pad2 b) = (a ?= b).
Proof.
  intros Ha Hb.
  assert (H : forallb (fun a => forallb (fun b =>
                match String.compare (pad2 a) (pad2 b), a ?= b with
                | Eq, Eq | Lt, Lt | Gt, Gt => true
                | _, _ => false
                end) two_digits) two_digits = true)
    by (vm_compute; reflexivity).
  rewrite forallb_forall in H. specialize (H a (two_digits_In a Ha)).
  rewrite forallb_forall in H. specialize (H b (two_digits_In b Hb)).
  destruct (String.compare (pad2 a) (pad2 b)), (a ?= b);
    congruence || discriminate.
Qed.

Lemma digit_mod (a b : Z) : a mod 10 = b mod 10 -> digit a = digit b.
Proof. unfold digit. now intros ->. Qed.

Lemma pad4_split (n : Z) :
  pad4 n = (pad2 (n / 100) ++ pad2 (n mod 100))%string.
Proof.
  unfold pad4, pad2. cbn.
  f_equal; [apply digit_mod|f_equal; f_equal; [apply digit_mod|f_equal; apply digit_mod]].
  - rewrite Z.div_div by lia. reflexivity.
  - pose proof (Z.div_mod n 100). pose proof (Z.mod_pos_bound n 100).
    pose proof (Z.div_mod (n mod 100) 10). pose proof (Z.mod_pos_bound (n mod 100) 10).
    pose proof (Z.div_mod n 10). pose proof (Z.mod_pos_bound n 10).
    pose proof (Z.div_mod (n / 10) 10). pose proof (Z.mod_pos_bound (n / 10) 10).
    pose proof (Z.div_mod (n mod 100 / 10) 10).
    pose proof (Z.mod_pos_bound (n mod 100 / 10) 10).
    lia.
  - pose proof (Z.div_mod n 100). pose proof (Z.mod_pos_bound n 100).
    pose proof (Z.div_mod (n mod 100) 10). pose proof (Z.mod_pos_bound (n mod 100) 10).
    pose proof (Z.div_mod n 10). pose proof (Z.mod_pos_bound n 10).
    lia.
Qed.

Lemma pad2_length (n : Z) : String.length (pad2 n) = 2%nat.
Proof. reflexivity. Qed.

Lemma pad4_compare (a b : Z) :
  0 <= a <= 9999 -> 0 <= b <= 9999 ->
  String.compare (pad4 a) (pad4 b) = (a ?= b).
Proof.
  intros Ha Hb. rewrite !pad4_split, compare_append by reflexivity.
  assert (0 <= a / 100 <= 99 /\ 0 <= a mod 100 <= 99 /\
          0 <= b / 100 <= 99 /\ 0 <= b mod 100 <= 99) as (H1 & H2 & H3 & H4).
  { pose proof (Z.div_mod a 100). pose proof (Z.mod_pos_bound a 100).
    pose proof (Z.div_mod b 100). pose proof (Z.mod_pos_bound b 100). lia. }
  rewrite !pad2_compare by assumption.
  pose proof (Z.div_mod a 100). pose proof (Z.div_mod b 100).
  destruct (a / 100 ?= b / 100) eqn:E1.
  - apply Z.compare_eq in E1.
    destruct (a mod 100 ?= b mod 100) eqn:E2; symmetry.
    + apply Z.compare_eq in E2. apply Z.compare_eq_iff. lia.
    + rewrite Z.compare_lt_iff in *. lia.
    + rewrite Z.compare_gt_iff in *. lia.
  - symmetry. rewrite Z.compare_lt_iff in *. lia.
  - symmetry. rewrite Z.compare_gt_iff in *. lia.
Qed.

(** For dates whose fields fit their widths, the text order of
    [strftime('%Y-%m-%d')] is the order of the calendar. *)
Lemma strftime_Ymd_order (d1 d2 : date) :
  fits_Ymd d1 -> fits_Ymd d2 ->
  text_lt (strftime_Ymd d1) (strftime_Ymd d2) = date_before d1 d2.
Proof.
  intros (Y1 & M1 & D1) (Y2 & M2 & D2).
  unfold text_lt, String.ltb, strftime_Ymd, date_before.
  rewrite compare_append by reflexivity.
  rewrite pad4_compare by assumption.
  destruct (year d1 ?= year d2); [|reflexivity..].
  rewrite (compare_append "-" "-") by reflexivity. cbn [String.compare Ascii.compare].
  change (String.compare "-" "-") with Eq. cbv iota.
  rewrite compare_append by reflexivity.
  rewrite pad2_compare by assumption.
  destruct (month d1 ?= month d2); [|reflexivity..].
  rewrite (compare_append "-" "-" _ _) by reflexivity.
  change (String.compare "-" "-") with Eq. cbv iota.
  rewrite pad2_compare by assumption.
  unfold Z.ltb. reflexivity.
Qed.

(** ** Tasks *)

Lemma sql_limit_In {A : Type} (n : Z) (l : list A) (x : A) :
  In x (sql_limit n l) -> In x l.
Proof.
  unfold sql_limit. destruct (n <? 0); [auto|].
  intros Hx. rewrite <- (firstn_skipn (Z.to_nat n) l).
  apply in_or_app. now left.
Qed.

(** With [due_filter="overdue"] the WHERE clause ends in
    [due_date < today AND completed = 0], whatever the other arguments. *)
Lemma get_tasks_overdue_query (today : date) (user_id : Z) (show_completed : bool)
    (category_filter : option string) (limit : option Z) :
  exists pre lim,
    get_tasks today user_id show_completed category_filter (Some "overdue") limit =
      fetch_all (SelectTasks user_id
                   (pre ++ [DueBefore (strftime_Ymd today); CompletedIs0]) lim) /\
    (forall n, lim = Some n -> limit = Some n).
Proof.
  unfold get_tasks.
  change (String.eqb "overdue" "today") with false.
  change (String.eqb "overdue" "upcoming") with false.
  change (String.eqb "overdue" "overdue") with true.
  cbv iota.
  eexists _, _. split; [reflexivity|].
  intros n. destruct limit as [m|]; [|discriminate].
  destruct (truthy_int m); [trivial | discriminate].
Qed.

Lemma select_tasks_rows (fk : bool) (now : string) (db db' : DB) (uid rid : Z)
    (conds : list task_cond) (lim : option Z) (rws : list row) (r : row) :
  run_stmt fk now (SelectTasks uid conds lim) db = inr (db', rid, rws) ->
  In r rws ->
  exists t, In t (rows (tasks db)) /\ r = task_tuple t /\ t_user_id t = uid /\
            forall c, In c conds -> holds c t = true.
Proof.
  cbn [run_stmt]. intros E Hr.
  assert (Hs : exists t,
             task_tuple t = r /\
             In t (order_by task_before
                     (filter (fun t => ((t_user_id t =? uid) &&
                                        forallb (fun c => holds c t) conds)%bool)
                        (rows (tasks db))))).
  { destruct lim as [n|].
    - destruct (in_int64 n); [|discriminate].
      inversion E as [[Hdb Hrid Hrws]]. rewrite <- Hrws in Hr.
      apply in_map_iff in Hr. destruct Hr as (t & Et & Ht).
      exists t. split; [exact Et|]. now apply sql_limit_In in Ht.
    - inversion E as [[Hdb Hrid Hrws]]. rewrite <- Hrws in Hr.
      apply in_map_iff in Hr. destruct Hr as (t & Et & Ht). eauto. }
  clear E Hr. destruct Hs as (t & <- & Hs).
  apply order_by_In, filter_In in Hs. destruct Hs as [Hin Hc].
  apply andb_true_iff in Hc. destruct Hc as [Hu Hc].
  exists t. split; [exact Hin|]. split; [reflexivity|].
  split; [now apply Z.eqb_eq|].
  rewrite forallb_forall in Hc. exact Hc.
Qed.

(** C4. With [due_filter="overdue"], for every user, stored task set,
    [show_completed], category filter and limit, and whatever the store
    does, every row [get_tasks] returns is the tuple of a stored task of
    the user with [completed = 0] and a due date that is not NULL and
    strictly below today's date text: so not equal to it and not above
    it, and a calendar date before today when it is a date written as
    [strftime('%Y-%m-%d')] writes it.  When the store does not fail and
    the limit, if there is one, is a 64-bit integer, the listing is
    returned. *)
Theorem get_tasks_overdue_sound :
  forall (today : date) (user_id : Z) (show_completed : bool)
         (category_filter : option string) (limit : option Z) (s : state),
    idle s ->
    (forall rws s',
       get_tasks today user_id show_completed category_filter
         (Some "overdue") limit s = (Return (Some rws), s') ->
       forall r, In r rws ->
         (exists t, In t (rows (tasks (disk s))) /\ r = task_tuple t /\
                    overdue_task today user_id t) /\
         nth 4 r VNull = VInt 0 /\
         exists d, nth 3 r VNull = VText d /\
                   text_lt d (strftime_Ymd today) = true /\
                   d <> strftime_Ymd today /\
                   text_lt (strftime_Ymd today) d = false /\
                   (forall due, fits_Ymd today -> fits_Ymd due ->
                                d = strftime_Ymd due ->
                                date_before due today = true)) /\
    (faults s = [] ->
     (forall n, limit = Some n -> in_int64 n = true) ->
     exists rws,
       get_tasks today user_id show_completed category_filter
         (Some "overdue") limit s = (Return (Some rws), s)).
Proof.
  intros today user_id show_completed category_filter limit s Hidle.
  destruct (get_tasks_overdue_query today user_id show_completed
              category_filter limit) as (pre & lim & -> & Hlim).
  split.
  - intros rws s' E r Hr.
    pose proof (fetch_all_outcomes (SelectTasks user_id
                  (pre ++ [DueBefore (strftime_Ymd today); CompletedIs0]) lim)
                  s Hidle) as O.
    rewrite E in O. cbn [fst snd] in O.
    destruct O as (_ & _ & [O|[(e & O & _)|(db' & rid & rws' & Hrun & O)]]);
      try discriminate.
    inversion O; subst rws'. clear O.
    cbn [sqlite_step study_db] in Hrun.
    destruct (select_tasks_rows _ _ _ _ _ _ _ _ _ _ Hrun Hr)
      as (t & Hin & -> & Hu & Hc).
    assert (Hdue : holds (DueBefore (strftime_Ymd today)) t = true).
    { apply Hc, in_or_app. right. cbn. auto. }
    assert (Hdone : holds CompletedIs0 t = true).
    { apply Hc, in_or_app. right. cbn. auto. }
    cbn in Hdue, Hdone. apply Z.eqb_eq in Hdone.
    destruct (t_due_date t) as [d|] eqn:Ed; [|discriminate].
    destruct (text_lt_strict _ _ Hdue) as (Hne & Hnlt & _).
    split; [|split].
    + exists t. unfold overdue_task. repeat split; eauto.
    + cbn. now rewrite Hdone.
    + exists d. cbn. rewrite Ed. cbn. repeat split; auto.
      intros due Ht Hd ->. now rewrite <- strftime_Ymd_order.
  - intros Hq Hb. rewrite (fetch_all_quiet _ s Hidle Hq).
    cbn [sqlite_step study_db run_stmt].
    destruct lim as [n|]; [rewrite (Hb n (Hlim n eq_refl))|]; eauto.
Qed.

(** ** The digest *)

Module HashlibFacts.
Import Hashlib.

Lemma round_length (st : list N) (kw : N * N) :
  length st = 8%nat -> length (round st kw) = 8%nat.
Proof.
  destruct st as [|a [|b [|c [|d [|e [|f [|g [|h [|]]]]]]]]]; cbn;
    try discriminate; reflexivity.
Qed.

Lemma rounds_length (kws : list (N * N)) (st : list N) :
  length st = 8%nat -> length (fold_left round kws st) = 8%nat.
Proof.
  revert st. induction kws as [|kw kws IH]; intros st L; cbn; [exact L|].
  apply IH, round_length, L.
Qed.

Lemma compress_length (h block : list N) :
  length h = 8%nat -> length (compress h block) = 8%nat.
Proof.
  intros L. unfold compress.
  rewrite length_map, length_combine, rounds_length, L; reflexivity || exact L.
Qed.

Lemma blocks_length (bs : list (list N)) (h : list N) :
  length h = 8%nat -> length (fold_left compress bs h) = 8%nat.
Proof.
  revert h. induction bs as [|b bs IH]; intros h L; cbn; [exact L|].
  apply IH, compress_length, L.
Qed.

(** A hexdigest of SHA-256 has 64 characters. *)
Lemma sha256_hexdigest_length (s : string) :
  String.length (sha256_hexdigest s) = 64%nat.
Proof.
  unfold sha256_hexdigest.
  pose proof (blocks_length
                (blocks (length (words (pad (bytes_of s)))) (words (pad (bytes_of s))))
                H0 eq_refl) as L.
  destruct (fold_left compress _ H0)
    as [|a [|b [|c [|d [|e [|f [|g [|h [|]]]]]]]]]; try discriminate.
  reflexivity.
Qed.

(** So what [add_user] stores differs from any password that is not
    itself 64 characters long. *)
Lemma sha256_hexdigest_not_password (password : string) :
  String.length password <> 64%nat ->
  sha256_hexdigest password <> password.
Proof.
  intros L E. apply L. rewrite <- E at 1. apply sha256_hexdigest_length.
Qed.

End HashlibFacts.

(** ** Users *)

Lemma fold_max_ge (ids : list Z) (b : Z) : b <= fold_right Z.max b ids.
Proof. induction ids; cbn; lia. Qed.

Lemma fold_max_In (ids : list Z) (b i : Z) :
  In i ids -> i <= fold_right Z.max b ids.
Proof.
  induction ids as [|a ids IH]; cbn; [contradiction|].
  intros [->|Hi]; [lia|]. specialize (IH Hi). lia.
Qed.

(** AUTOINCREMENT gives a positive rowid above every rowid of the table. *)
Lemma next_rowid_fresh (ids : list Z) (sq : Z) :
  1 <= next_rowid ids sq /\ forall i, In i ids -> i < next_rowid ids sq.
Proof.
  unfold next_rowid. split.
  - pose proof (fold_max_ge ids (Z.max 0 sq)). lia.
  - intros i Hi. pose proof (fold_max_In ids (Z.max 0 sq) i Hi). lia.
Qed.

Lemma next_rowid_truthy (ids : list Z) (sq : Z) :
  truthy_int (next_rowid ids sq) = true.
Proof.
  unfold truthy_int. destruct (next_rowid_fresh ids sq) as [H _].
  apply negb_true_iff, Z.eqb_neq. lia.
Qed.

Lemma existsb_id_fresh {A : Type} (rowid : A -> Z) (l : list A) (sq : Z) :
  existsb (fun r => rowid r =? next_rowid (map rowid l) sq) l = false.
Proof.
  destruct (existsb _ l) eqn:E; [|reflexivity].
  apply existsb_exists in E. destruct E as (r & Hr & E).
  apply Z.eqb_eq in E.
  destruct (next_rowid_fresh (map rowid l) sq) as [_ F].
  specialize (F (rowid r) (in_map rowid l r Hr)). lia.
Qed.

Lemma filter_none {A : Type} (f : A -> bool) (l : list A) :
  existsb f l = false -> filter f l = [].
Proof.
  induction l as [|a l IH]; cbn; [reflexivity|].
  destruct (f a); cbn; [discriminate | exact IH].
Qed.

Lemma run_insert_user (fk : bool) (now : string) (db db' : DB) (u h : string)
    (rid : Z) (rws : list row) :
  run_stmt fk now (InsertUser u h) db = inr (db', rid, rws) ->
  existsb (fun r => String.eqb (u_username r) u) (rows (users db)) = false /\
  rid = u_user_id (new_user_row db u h) /\
  db' = with_users db {| rows := rows (users db) ++ [new_user_row db u h];
                         seq := u_user_id (new_user_row db u h) |}.
Proof.
  cbn. destruct (existsb _ (rows (users db))); [discriminate|].
  intros E. inversion E; subst. auto.
Qed.

(** One seeding insert: the tables besides [task_categories] stay, and a
    row it adds is the one asked for. *)
Lemma run_insert_category (fk : bool) (now : string) (db db' : DB) (uid : Z)
    (name : string) (rid : Z) (rws : list row) :
  run_stmt fk now (InsertOrIgnoreCategory uid name) db = inr (db', rid, rws) ->
  same_but_categories db db' /\
  forall x, In x (rows (task_categories db')) ->
            In x (rows (task_categories db)) \/ (c_user_id x = uid /\ c_name x = name).
Proof.
  cbn. destruct (existsb _ (rows (task_categories db))).
  - intros E. inversion E; subst. unfold same_but_categories. auto.
  - destruct (fk_ok fk db uid); [|discriminate].
    intros E. inversion E; subst. unfold same_but_categories. cbn.
    split; [auto|]. intros x Hx. apply in_app_or in Hx.
    destruct Hx as [Hx|[<-|[]]]; auto.
Qed.

(** Referential integrity is an invariant of the statements of the
    program on connections that enforce foreign keys, which are all the
    connections [connect] opens. *)
Lemma run_stmt_keeps_integrity (now : string) (q : stmt) (db db' : DB)
    (rid : Z) (rws : list row) :
  referential_integrity db = true ->
  run_stmt true now q db = inr (db', rid, rws) ->
  referential_integrity db' = true.
Proof.
  unfold referential_integrity. rewrite !forallb_forall. intros Hri Hrun.
  destruct q; cbn in Hrun;
    repeat match type of Hrun with
           | context [match ?l with Some _ => _ | None => _ end] =>
               is_var l; destruct l
           | context [if ?b then _ else _] => destruct b eqn:?
           end;
    try discriminate; inversion Hrun; subst; clear Hrun; cbn; try exact Hri.
  - intros c Hc. specialize (Hri c Hc). unfold user_exists in *. cbn.
    rewrite existsb_app, Hri. reflexivity.
  - intros c Hc. apply in_app_or in Hc. destruct Hc as [Hc|[<-|[]]].
    + apply (Hri c Hc).
    + cbn. unfold fk_ok in *. cbn in *. assumption.
  - intros c Hc. apply filter_In in Hc. destruct Hc as [Hc _]. apply (Hri c Hc).
Qed.

Lemma empty_db_integrity : referential_integrity Sample.empty_db = true.
Proof. reflexivity. Qed.

Section UserFacts.
Variable sha256_hexdigest : string -> string.

Lemma add_user_unfold (username password : string) (s : state) :
  add_user sha256_hexdigest username password s =
    match execute_query (InsertUser username (sha256_hexdigest password)) s with
    | (Return (Some c), s1) =>
        if truthy_int (lastrowid c) then
          match for_each default_categories
                  (fun cat_name => add_task_category (lastrowid c) cat_name) s1 with
          | (Return _, s2) => (Return (Some c), s2)
          | (Raise e, s2) => (Raise e, s2)
          end
        else (Return (Some c), s1)
    | (Return None, s1) => (Return None, s1)
    | (Raise e, s1) => (Raise e, s1)
    end.
Proof.
  unfold add_user, bind, ret.
  destruct (execute_query _ s) as [[[c|]|e] s1]; try reflexivity.
  destruct (truthy_int (lastrowid c)); [|reflexivity].
  destruct (for_each _ _ s1) as [[[]|e] s2]; reflexivity.
Qed.

Lemma seeding_step (db1 : DB) (uid : Z) (name : string) (s : state) :
  In name default_categories ->
  seeded_from db1 uid s ->
  seeded_from db1 uid (snd (add_task_category uid name s)).
Proof.
  intros Hname (Hidle & Hsame & Hcat).
  unfold add_task_category.
  pose proof (execute_query_outcomes (InsertOrIgnoreCategory uid name) s Hidle) as O.
  destruct (execute_query _ s) as [r s']. cbn [fst snd] in O |- *.
  destruct O as ((Hidle' & _) & [[_ Hd]|[(e & _ & _ & Hd & _)|(db' & rid & rws & Hrun & _ & Hd)]]).
  - unfold seeded_from. rewrite Hd. auto.
  - unfold seeded_from. rewrite Hd. auto.
  - cbn [sqlite_step study_db] in Hrun.
    apply run_insert_category in Hrun. destruct Hrun as [Hs Hx].
    unfold seeded_from. rewrite Hd. split; [assumption|]. split.
    + unfold same_but_categories in *. intuition congruence.
    + intros x Hin. destruct (Hx x Hin) as [Hin'|[Hu Hn]]; [auto|].
      right. split; [assumption | now rewrite Hn].
Qed.

Lemma seeding_loop (db1 : DB) (uid : Z) (names : list string) (s : state) :
  incl names default_categories ->
  seeded_from db1 uid s ->
  seeded_from db1 uid
    (snd (for_each names (fun cat_name => add_task_category uid cat_name) s)).
Proof.
  revert s. induction names as [|name names IH]; intros s Hincl Hs; [exact Hs|].
  cbn [for_each]. unfold bind.
  pose proof (seeding_step db1 uid name s (Hincl _ (or_introl eq_refl)) Hs) as Hstep.
  destruct (add_task_category uid name s) as [[r|e] s1]; cbn [snd] in Hstep |- *.
  - apply IH; [|assumption]. intros x Hx. apply Hincl. now right.
  - assumption.
Qed.

(** A successful [add_user] inserted the user row with a fresh id and the
    digest, and changed nothing else but [task_categories], where every
    row it added is a default category of the new user. *)
Lemma add_user_inserted (username password : string) (s s' : state) (c : cursor) :
  idle s ->
  add_user sha256_hexdigest username password s = (Return (Some c), s') ->
  let new := new_user_row (disk s) username (sha256_hexdigest password) in
  existsb (fun r => String.eqb (u_username r) username) (rows (users (disk s))) = false /\
  lastrowid c = u_user_id new /\
  idle s' /\
  rows (users (disk s')) = rows (users (disk s)) ++ [new] /\
  tasks (disk s') = tasks (disk s) /\
  quiz_attempts (disk s') = quiz_attempts (disk s) /\
  ai_chat_history (disk s') = ai_chat_history (disk s) /\
  (forall x, In x (rows (task_categories (disk s'))) ->
             In x (rows (task_categories (disk s))) \/
             (c_user_id x = lastrowid c /\ In (c_name x) default_categories)).
Proof.
  intros Hidle. rewrite add_user_unfold.
  pose proof (execute_query_outcomes
                (InsertUser username (sha256_hexdigest password)) s Hidle) as O.
  destruct (execute_query _ s) as [[[c1|]|e] s1]; try discriminate.
  cbn [fst snd] in O.
  destruct O as ((Hidle1 & _) & [[O _]|[(e & O & _)|(db' & rid & rws & Hrun & O & Hd)]]);
    try discriminate.
  inversion O; subst c1. clear O.
  cbn [sqlite_step study_db] in Hrun.
  apply run_insert_user in Hrun. destruct Hrun as (Hfree & Hrid & Hdb).
  cbn [lastrowid].
  assert (Hseed : seeded_from db' rid s1).
  { unfold seeded_from, same_but_categories. rewrite Hd. auto 6. }
  assert (Hmain : forall s2, seeded_from db' rid s2 ->
            existsb (fun r => String.eqb (u_username r) username)
              (rows (users (disk s))) = false /\
            rid = u_user_id
                    (new_user_row (disk s) username (sha256_hexdigest password)) /\
            idle s2 /\
            rows (users (disk s2)) =
              rows (users (disk s)) ++
              [new_user_row (disk s) username (sha256_hexdigest password)] /\
            tasks (disk s2) = tasks (disk s) /\
            quiz_attempts (disk s2) = quiz_attempts (disk s) /\
            ai_chat_history (disk s2) = ai_chat_history (disk s) /\
            (forall x, In x (rows (task_categories (disk s2))) ->
                       In x (rows (task_categories (disk s))) \/
                       (c_user_id x = rid /\ In (c_name x) default_categories))).
  { intros s2 (Hi2 & (Hu2 & Ht2 & Hq2 & Hm2) & Hc2).
    rewrite Hu2, Ht2, Hq2, Hm2. subst db'. cbn in Hc2 |- *. auto 10. }
  destruct (truthy_int rid).
  - pose proof (seeding_loop db' rid default_categories s1
                  (fun x H => H) Hseed) as Hloop.
    destruct (for_each _ _ s1) as [[[]|e] s2]; [|discriminate].
    intros E. inversion E; subst s'. apply Hmain. exact Hloop.
  - intros E. inversion E; subst s'. apply Hmain. exact Hseed.
Qed.


Lemma run_seed (now : string) (db : DB) (uid : Z) (name : string) :
  user_exists db uid = true ->
  has_category db uid name = false ->
  exists rid,
    run_stmt true now (InsertOrIgnoreCategory uid name) db = inr (seed uid db name, rid, []).
Proof.
  unfold has_category. intros Hu Hc. cbn. rewrite Hc.
  unfold fk_ok. rewrite Hu. cbn. eauto.
Qed.

Lemma seed_has_category (uid : Z) (db : DB) (name other : string) :
  name <> other ->
  has_category (seed uid db name) uid other = has_category db uid other.
Proof.
  intros Hne. unfold has_category, seed. cbn.
  rewrite existsb_app. cbn.
  replace (String.eqb name other) with false.
  - now rewrite andb_false_r, !orb_false_r.
  - symmetry. now apply String.eqb_neq.
Qed.

Lemma seed_loop_names (uid : Z) (names : list string) (db : DB) :
  map c_name (categories_of (fold_left (seed uid) names db) uid) =
    map c_name (categories_of db uid) ++ names.
Proof.
  revert db. induction names as [|name names IH]; intros db; cbn [fold_left].
  - now rewrite app_nil_r.
  - rewrite IH. unfold categories_of at 1, seed at 1. cbn.
    rewrite filter_app, map_app. cbn. rewrite Z.eqb_refl. cbn.
    now rewrite <- app_assoc.
Qed.

Lemma seed_loop_quiet (uid : Z) (names : list string) (s : state) :
  idle s -> faults s = [] ->
  user_exists (disk s) uid = true ->
  NoDup names ->
  (forall n, In n names -> has_category (disk s) uid n = false) ->
  for_each names (fun cat_name => add_task_category uid cat_name) s =
    (Return tt, with_disk s (fold_left (seed uid) names (disk s))).
Proof.
  revert s. induction names as [|name names IH]; intros s Hidle Hq Hu Hnd Hfree.
  - cbn. unfold ret. destruct s; reflexivity.
  - cbn [for_each fold_left]. unfold bind, add_task_category at 1.
    rewrite (execute_query_quiet _ s Hidle Hq). cbn [sqlite_step study_db].
    destruct (run_seed (clock s) (disk s) uid name Hu (Hfree _ (or_introl eq_refl)))
      as (rid & ->).
    inversion Hnd as [|? ? Hnotin Hnd']; subst.
    rewrite (IH (with_disk s (seed uid (disk s) name))); try assumption.
    + reflexivity.
    + intros n Hn. cbn [with_disk disk]. rewrite seed_has_category.
      * apply Hfree. now right.
      * intros ->. contradiction.
Qed.

Lemma referential_integrity_fresh (db : DB) (name : string) :
  referential_integrity db = true ->
  categories_of db (next_rowid (map u_user_id (rows (users db))) (seq (users db))) = [] /\
  has_category db (next_rowid (map u_user_id (rows (users db))) (seq (users db))) name = false.
Proof.
  unfold referential_integrity, categories_of, has_category. intros Hr.
  rewrite forallb_forall in Hr.
  assert (H : forall c, In c (rows (task_categories db)) ->
            (c_user_id c =? next_rowid (map u_user_id (rows (users db)))
                              (seq (users db))) = false).
  { intros c Hc. specialize (Hr c Hc). unfold user_exists in Hr.
    apply existsb_exists in Hr. destruct Hr as (u & Hu & E).
    apply Z.eqb_eq in E. apply Z.eqb_neq.
    destruct (next_rowid_fresh (map u_user_id (rows (users db))) (seq (users db)))
      as [_ F].
    specialize (F _ (in_map u_user_id _ _ Hu)). lia. }
  split.
  - apply filter_none.
    destruct (existsb _ (rows (task_categories db))) eqn:E; [|reflexivity].
    apply existsb_exists in E. destruct E as (c & Hc & E).
    rewrite (H c Hc) in E. discriminate.
  - destruct (existsb _ (rows (task_categories db))) eqn:E; [|reflexivity].
    apply existsb_exists in E. destruct E as (c & Hc & E).
    rewrite (H c Hc) in E. discriminate.
Qed.

(** [add_user] on a store that does not fail, for a free user name. *)
Lemma add_user_quiet (username password : string) (s : state) :
  idle s -> faults s = [] ->
  existsb (fun r => String.eqb (u_username r) username) (rows (users (disk s))) = false ->
  referential_integrity (disk s) = true ->
  let uid := next_rowid (map u_user_id (rows (users (disk s)))) (seq (users (disk s))) in
  exists dbf,
    add_user sha256_hexdigest username password s =
      (Return (Some {| lastrowid := uid; pending := [] |}), with_disk s dbf) /\
    map c_name (categories_of dbf uid) = default_categories.
Proof.
  intros Hidle Hq Hfree Href uid.
  set (new := new_user_row (disk s) username (sha256_hexdigest password)).
  set (db1 := with_users (disk s)
                {| rows := rows (users (disk s)) ++ [new]; seq := uid |}).
  exists (fold_left (seed uid) default_categories db1).
  split.
  - rewrite add_user_unfold, (execute_query_quiet _ s Hidle Hq).
    cbn [sqlite_step study_db run_stmt]. rewrite Hfree.
    cbn [append_row lastrowid]. fold uid.
    unfold uid at 1. rewrite next_rowid_truthy.
    match goal with
    | |- context [for_each _ _ ?st] => change st with (with_disk s db1)
    end.
    rewrite (seed_loop_quiet uid default_categories (with_disk s db1)).
    + destruct s; reflexivity.
    + exact Hidle.
    + exact Hq.
    + cbn. unfold user_exists. cbn. rewrite existsb_app. cbn.
      rewrite Z.eqb_refl. now rewrite orb_true_r.
    + repeat constructor; cbn; intuition discriminate.
    + intros n _. cbn [with_disk disk].
      destruct (referential_integrity_fresh (disk s) n Href) as [_ H].
      exact H.
  - rewrite seed_loop_names.
    destruct (referential_integrity_fresh (disk s) "" Href) as [He _].
    unfold categories_of in He |- *. cbn [db1 with_users task_categories].
    fold uid in He. rewrite He. reflexivity.
Qed.

Lemma order_by_map {A B : Type} (f : A -> B) (le : B -> B -> bool) (l : list A) :
  map f (order_by (fun a b => le (f a) (f b)) l) = order_by le (map f l).
Proof.
  induction l as [|x l IH]; cbn; [reflexivity|].
  rewrite <- IH. clear IH.
  induction (order_by (fun a b => le (f a) (f b)) l) as [|y l' IH]; cbn;
    [reflexivity|].
  destruct (le (f x) (f y)); cbn; [reflexivity | now rewrite IH].
Qed.

(** What a successful [add_user] has done, for any digest function. *)
Lemma add_user_stores_and_seeds :
  forall (username password : string) (s s' : state) (c : cursor),
    idle s ->
    add_user sha256_hexdigest username password s = (Return (Some c), s') ->
    let uid := lastrowid c in
    (rows (users (disk s')) =
       rows (users (disk s)) ++
       [{| u_user_id := uid; u_username := username;
           u_password_hash := sha256_hexdigest password |}] /\
     ~ In uid (map u_user_id (rows (users (disk s))))) /\
    (forall password2,
       sha256_hexdigest password2 = sha256_hexdigest password ->
       add_user sha256_hexdigest username password2 s =
       add_user sha256_hexdigest username password s) /\
    (tasks (disk s') = tasks (disk s) /\
     quiz_attempts (disk s') = quiz_attempts (disk s) /\
     ai_chat_history (disk s') = ai_chat_history (disk s)) /\
    (forall x, In x (rows (task_categories (disk s'))) ->
               In x (rows (task_categories (disk s))) \/
               (c_user_id x = uid /\ In (c_name x) default_categories)) /\
    (referential_integrity (disk s) = true ->
     forall x, In x (categories_of (disk s') uid) ->
               In (c_name x) default_categories) /\
    (referential_integrity (disk s) = true -> faults s = [] ->
     map c_name (categories_of (disk s') uid) = default_categories /\
     get_task_categories uid s' = (Return (map VText default_categories), s')).
Proof.
  intros username password s s' c Hidle Hadd uid.
  destruct (add_user_inserted _ _ _ _ _ Hidle Hadd)
    as (Hfree & Hid & Hidle' & Husers & Ht & Hq & Hm & Hcats).
  fold uid in Hid, Hcats.
  assert (Hfresh : forall name, referential_integrity (disk s) = true ->
            categories_of (disk s) uid = [] /\ has_category (disk s) uid name = false).
  { intros name Href. rewrite Hid. apply referential_integrity_fresh, Href. }
  split; [split|split; [|split; [|split; [|split]]]].
  - rewrite Husers, Hid. reflexivity.
  - rewrite Hid. intros Hin.
    destruct (next_rowid_fresh (map u_user_id (rows (users (disk s))))
                (seq (users (disk s)))) as [_ F].
    specialize (F _ Hin). cbn in F. lia.
  - intros password2 E. unfold add_user. now rewrite E.
  - auto.
  - exact Hcats.
  - intros Href x Hx. unfold categories_of in Hx. apply filter_In in Hx.
    destruct Hx as [Hx Hu]. destruct (Hcats x Hx) as [Hold|[_ Hn]]; [|exact Hn].
    exfalso. destruct (Hfresh "" Href) as [He _].
    assert (Hin : In x (categories_of (disk s) uid)).
    { unfold categories_of. apply filter_In. auto. }
    rewrite He in Hin. contradiction.
  - intros Href Hquiet.
    destruct (add_user_quiet username password s Hidle Hquiet Hfree Href)
      as (dbf & Q & Hnames).
    rewrite Hadd in Q. inversion Q; subst c s'. clear Q.
    cbn [lastrowid] in uid. cbn [with_disk disk].
    fold uid in Hnames.
    split; [exact Hnames|].
    rewrite get_task_categories_unfold.
    rewrite (fetch_all_quiet _ _ Hidle' Hquiet). cbn [sqlite_step study_db].
    rewrite select_category_names_rows, cat_list_of_rows.
    unfold category_names. cbn [with_disk disk].
    change (filter (fun c => c_user_id c =? uid) (rows (task_categories dbf)))
      with (categories_of dbf uid).
    change name_before with (fun a b => text_le (c_name a) (c_name b)).
    rewrite (order_by_map c_name text_le), Hnames.
    reflexivity.
Qed.


(** C7. After a successful [add_user u p], on any idle manager whose
    [users] table is the one [add_user] left and whose store does not
    fail, [check_user u p] returns the identity of that user, the tuple
    (user_id, username); and [check_user u p2] returns [None] for every
    [p2] whose digest differs from that of [p].  [check_user] hashes what
    it is given with the digest function [add_user] used and selects on
    the pair (username, password_hash). *)
Theorem check_user_after_add_user :
  forall (username password : string) (s s' : state) (c : cursor),
    idle s ->
    add_user sha256_hexdigest username password s = (Return (Some c), s') ->
    forall s2,
      idle s2 -> faults s2 = [] ->
      rows (users (disk s2)) = rows (users (disk s')) ->
      check_user sha256_hexdigest username password s2 =
        (Return (Some [VInt (lastrowid c); VText username]), s2) /\
      (forall password2,
         sha256_hexdigest password2 <> sha256_hexdigest password ->
         check_user sha256_hexdigest username password2 s2 = (Return None, s2)) /\
      (forall password2,
         check_user sha256_hexdigest username password2 s2 =
         fetch_one (SelectUser username (sha256_hexdigest password2)) s2).
Proof.
  intros username password s s' c Hidle Hadd s2 Hidle2 Hq2 Hrows.
  destruct (add_user_inserted _ _ _ _ _ Hidle Hadd)
    as (Hfree & Hid & _ & Husers & _).
  assert (Hsel : forall h,
            filter (fun u => (String.eqb (u_username u) username &&
                              String.eqb (u_password_hash u) h)%bool)
              (rows (users (disk s2))) =
            if String.eqb (sha256_hexdigest password) h
            then [new_user_row (disk s) username (sha256_hexdigest password)]
            else []).
  { intros h. rewrite Hrows, Husers, filter_app.
    rewrite (filter_none _ (rows (users (disk s)))).
    - cbn. rewrite String.eqb_refl. cbn.
      destruct (String.eqb (sha256_hexdigest password) h); reflexivity.
    - apply not_true_is_false. intros E.
      apply existsb_exists in E. destruct E as (u & Hu & E).
      apply andb_true_iff in E. destruct E as [E _].
      assert (existsb (fun r => String.eqb (u_username r) username)
                (rows (users (disk s))) = true)
        by (apply existsb_exists; eauto).
      congruence. }
  split; [|split].
  - unfold check_user. rewrite (fetch_one_quiet _ s2 Hidle2 Hq2).
    cbn [sqlite_step study_db run_stmt].
    rewrite Hsel, String.eqb_refl, Hid. reflexivity.
  - intros password2 Hne. unfold check_user.
    rewrite (fetch_one_quiet _ s2 Hidle2 Hq2).
    cbn [sqlite_step study_db run_stmt]. rewrite Hsel.
    replace (String.eqb (sha256_hexdigest password) (sha256_hexdigest password2))
      with false; [reflexivity|].
    symmetry. apply String.eqb_neq. congruence.
  - reflexivity.
Qed.

End UserFacts.

(** C6, as amended. A successful [add_user] adds to [users] one row: a
    fresh id, the user name and the SHA-256 digest of the password in
    hexadecimal, which is 64 characters long and so is not the password
    unless that has 64 characters itself; what it stores depends on the
    password through the digest only.  It touches no other table than
    [task_categories], where every row it adds is one of the five default
    categories for the new user.  On a store with referential integrity
    the new user then has no category but defaults; and when the store
    does not fail the new user has exactly the five, in the order General,
    Academic, Personal, Project, Urgent, which is also what
    [get_task_categories] lists. *)
Theorem add_user_stores_digest_and_seeds_defaults :
  forall (username password : string) (s s' : state) (c : cursor),
    idle s ->
    add_user Hashlib.sha256_hexdigest username password s = (Return (Some c), s') ->
    let uid := lastrowid c in
    let digest := Hashlib.sha256_hexdigest password in
    (rows (users (disk s')) =
       rows (users (disk s)) ++
       [{| u_user_id := uid; u_username := username;
           u_password_hash := digest |}] /\
     ~ In uid (map u_user_id (rows (users (disk s))))) /\
    (String.length digest = 64%nat /\
     (String.length password <> 64%nat -> digest <> password)) /\
    (forall password2,
       Hashlib.sha256_hexdigest password2 = digest ->
       add_user Hashlib.sha256_hexdigest username password2 s =
       add_user Hashlib.sha256_hexdigest username password s) /\
    (tasks (disk s') = tasks (disk s) /\
     quiz_attempts (disk s') = quiz_attempts (disk s) /\
     ai_chat_history (disk s') = ai_chat_history (disk s)) /\
    (forall x, In x (rows (task_categories (disk s'))) ->
               In x (rows (task_categories (disk s))) \/
               (c_user_id x = uid /\ In (c_name x) default_categories)) /\
    (referential_integrity (disk s) = true ->
     forall x, In x (categories_of (disk s') uid) ->
               In (c_name x) default_categories) /\
    (referential_integrity (disk s) = true -> faults s = [] ->
     map c_name (categories_of (disk s') uid) = default_categories /\
     get_task_categories uid s' = (Return (map VText default_categories), s')).
Proof.
  intros username password s s' c Hidle Hadd uid digest.
  destruct (add_user_stores_and_seeds Hashlib.sha256_hexdigest username password
              s s' c Hidle Hadd) as (H1 & H2 & H3 & H4 & H5 & H6).
  split; [exact H1|]. split.
  - split; [apply HashlibFacts.sha256_hexdigest_length|].
    apply HashlibFacts.sha256_hexdigest_not_password.
  - split; [exact H2|]. split; [exact H3|]. split; [exact H4|].
    split; [exact H5 | exact H6].
Qed.

(** ** Quiz attempts *)

(** C8. After a successful [add_quiz_attempt] whose cursor reports the
    rowid A, on any idle manager whose [quiz_attempts] table is the one
    it left and whose store does not fail, [get_quiz_attempt_details A]
    returns the tuple of the topic and the snapshot text that were
    submitted, unchanged. *)
Theorem quiz_attempt_round_trip :
  forall (user_id : Z) (topic quiz_date : string) (score total : Z)
         (snapshot : string) (s s' : state) (c : cursor),
    idle s ->
    add_quiz_attempt user_id topic quiz_date score total snapshot s =
      (Return (Some c), s') ->
    forall s2,
      idle s2 -> faults s2 = [] ->
      rows (quiz_attempts (disk s2)) = rows (quiz_attempts (disk s')) ->
      get_quiz_attempt_details (lastrowid c) s2 =
        (Return (Some [VText topic; VText snapshot]), s2).
Proof.
  intros user_id topic quiz_date score total snapshot s s' c Hidle Hadd
         s2 Hidle2 Hq2 Hrows.
  unfold add_quiz_attempt in Hadd.
  pose proof (execute_query_outcomes
                (InsertQuizAttempt user_id topic quiz_date score total
                   (Some snapshot)) s Hidle) as O.
  rewrite Hadd in O. cbn [fst snd] in O.
  destruct O as (_ & [[O _]|[(e & O & _)|(db' & rid & rws & Hrun & O & Hd)]]);
    try discriminate.
  inversion O; subst c. clear O. cbn [lastrowid].
  cbn [sqlite_step study_db run_stmt] in Hrun.
  destruct (fk_ok true (disk s) user_id); [|discriminate].
  cbn [append_row] in Hrun. inversion Hrun as [[Hdb Hrid Hrws]]. clear Hrun.
  unfold get_quiz_attempt_details.
  rewrite (fetch_one_quiet _ s2 Hidle2 Hq2).
  cbn [sqlite_step study_db run_stmt].
  rewrite Hrows, Hd, <- Hdb. cbn [with_quiz_attempts quiz_attempts rows].
  rewrite filter_app, (filter_none _ (rows (quiz_attempts (disk s)))).
  - cbn. rewrite Z.eqb_refl. reflexivity.
  - apply (existsb_id_fresh q_attempt_id).
Qed.

(** ** Chat history *)

Lemma recent_first_sorted (db : DB) (user_id : Z) :
  StronglySorted (fun a b => newer_first a b = true) (recent_first db user_id).
Proof.
  apply (order_by_sorted newer_first).
  - intros a b. unfold newer_first. apply text_le_total.
  - intros a b c. unfold newer_first. intros H1 H2.
    eapply text_le_trans; eassumption.
Qed.

Lemma select_chat_history_rows (fk : bool) (now : string) (db : DB)
    (user_id limit : Z) :
  in_int64 limit = true ->
  run_stmt fk now (SelectChatHistory user_id limit) db =
    inr (db, 0, map chat_tuple (sql_limit limit (recent_first db user_id))).
Proof. intros H. cbn [run_stmt]. rewrite H. reflexivity. Qed.

(** A limit that is no 64-bit integer is refused when it is bound. *)
Lemma select_chat_history_overflow (fk : bool) (now : string) (db : DB)
    (user_id limit : Z) :
  in_int64 limit = false ->
  run_stmt fk now (SelectChatHistory user_id limit) db =
    inl (PyException "OverflowError").
Proof. intros H. cbn [run_stmt]. rewrite H. reflexivity. Qed.

Lemma in_int64_range (n : Z) : in_int64 n = true <-> - 2 ^ 63 <= n < 2 ^ 63.
Proof.
  unfold in_int64. rewrite andb_true_iff, Z.leb_le, Z.ltb_lt. tauto.
Qed.

Lemma reversed_history (l : list row) :
  match l with
  | h :: hs => rev (h :: hs)
  | [] => []
  end = rev l.
Proof. destruct l; reflexivity. Qed.

(** What [get_chat_history] hands over is the fetched prefix, reversed. *)
Lemma get_chat_history_shown (user_id limit : Z) (s s' : state) (l : list row) :
  idle s ->
  get_chat_history user_id limit s = (Return l, s') ->
  l = [] \/
  l = map chat_tuple (rev (sql_limit limit (recent_first (disk s) user_id))).
Proof.
  intros Hidle. rewrite get_chat_history_unfold.
  pose proof (fetch_all_outcomes (SelectChatHistory user_id limit) s Hidle) as O.
  destruct (fetch_all _ s) as [[h|e] s1]; [|discriminate].
  cbn [fst snd] in O. intros E. inversion E; subst. clear E.
  destruct O as (_ & _ & [O|[(e' & O & _)|(db' & rid & rws & Hrun & O)]]);
    try discriminate.
  - inversion O; subst. now left.
  - inversion O; subst. clear O. right.
    cbn [sqlite_step study_db] in Hrun.
    destruct (in_int64 limit) eqn:Hb.
    + rewrite (select_chat_history_rows _ _ _ _ _ Hb) in Hrun.
      inversion Hrun; subst.
      rewrite reversed_history. now rewrite map_rev.
    + rewrite (select_chat_history_overflow _ _ _ _ _ Hb) in Hrun.
      discriminate.
Qed.

(** The newest [n] of a list sorted newest first, put oldest first. *)
Lemma newest_prefix (n : nat) (l : list chat_row) :
  StronglySorted (fun a b => newer_first a b = true) l ->
  let shown := rev (firstn n l) in
  let older := skipn n l in
  length shown = Nat.min n (length l) /\
  StronglySorted not_after shown /\
  Permutation (shown ++ older) l /\
  (forall x y, In x older -> In y shown -> not_after x y).
Proof.
  intros S shown older.
  rewrite <- (firstn_skipn n l) in S.
  apply StronglySorted_app_inv in S. destruct S as (S1 & _ & C).
  repeat split.
  - unfold shown. now rewrite length_rev, length_firstn.
  - unfold shown. apply (StronglySorted_rev _ _ S1).
  - unfold shown, older. rewrite <- (firstn_skipn n l) at 3.
    apply Permutation_app_tail. symmetry. apply Permutation_rev.
  - intros x y Hx Hy. unfold shown in Hy. apply in_rev in Hy.
    exact (C y x Hy Hx).
Qed.

(** C9, as amended. For every user and every limit N that is not
    negative: whatever the store does, what [get_chat_history] returns are
    at most N tuples of stored messages of the user in non-decreasing
    timestamp order.  When the store does not fail and N is a 64-bit
    integer, they are the N most recent messages of the user (all of them
    when there are fewer), the rows fetched by [ORDER BY timestamp DESC
    LIMIT N] reversed: every message left out is not after any message
    shown.  When the store does not fail and N is no 64-bit integer, the
    call raises OverflowError. *)
Theorem get_chat_history_recent_chronological :
  forall (user_id limit : Z) (s : state),
    idle s -> 0 <= limit ->
    (forall l s',
       get_chat_history user_id limit s = (Return l, s') ->
       exists shown,
         l = map chat_tuple shown /\
         Z.of_nat (length l) <= limit /\
         StronglySorted not_after shown /\
         (forall m, In m shown ->
                    In m (rows (ai_chat_history (disk s))) /\ m_user_id m = user_id)) /\
    (faults s = [] -> limit < 2 ^ 63 ->
     let shown := rev (sql_limit limit (recent_first (disk s) user_id)) in
     get_chat_history user_id limit s = (Return (map chat_tuple shown), s) /\
     length shown = Nat.min (Z.to_nat limit)
                      (length (filter (fun m => m_user_id m =? user_id)
                                 (rows (ai_chat_history (disk s))))) /\
     exists older,
       Permutation (shown ++ older)
         (filter (fun m => m_user_id m =? user_id)
            (rows (ai_chat_history (disk s)))) /\
       (forall x y, In x older -> In y shown -> not_after x y)) /\
    (faults s = [] -> 2 ^ 63 <= limit ->
     get_chat_history user_id limit s = (Raise (PyException "OverflowError"), s)).
Proof.
  intros user_id limit s Hidle Hlim.
  assert (Hsql : sql_limit limit (recent_first (disk s) user_id) =
                 firstn (Z.to_nat limit) (recent_first (disk s) user_id)).
  { unfold sql_limit. destruct (limit <? 0) eqn:E; [|reflexivity].
    apply Z.ltb_lt in E. lia. }
  destruct (newest_prefix (Z.to_nat limit) _ (recent_first_sorted (disk s) user_id))
    as (Hlen & Hsorted & Hperm & Holder).
  assert (Hcount : length (recent_first (disk s) user_id) =
                   length (filter (fun m => m_user_id m =? user_id)
                             (rows (ai_chat_history (disk s))))).
  { apply Permutation_length, order_by_perm. }
  split; [|split].
  - intros l s' E.
    destruct (get_chat_history_shown _ _ _ _ _ Hidle E) as [->| ->].
    + exists []. cbn. repeat split; [lia | constructor | contradiction..].
    + rewrite Hsql. eexists. split; [reflexivity|]. split; [|split].
      * rewrite length_map, Hlen. lia.
      * exact Hsorted.
      * intros m Hm. apply in_rev in Hm.
        assert (Hin : In m (recent_first (disk s) user_id)).
        { rewrite <- (firstn_skipn (Z.to_nat limit)). apply in_or_app. now left. }
        apply order_by_In, filter_In in Hin. destruct Hin as [Hin Hu].
        split; [assumption | now apply Z.eqb_eq].
  - intros Hq Hhi shown. unfold shown. rewrite Hsql. split; [|split].
    + assert (Hb : in_int64 limit = true) by (apply in_int64_range; lia).
      rewrite get_chat_history_unfold, (fetch_all_quiet _ s Hidle Hq).
      cbn [sqlite_step study_db].
      rewrite (select_chat_history_rows _ _ _ _ _ Hb).
      rewrite reversed_history, Hsql. now rewrite map_rev.
    + now rewrite Hlen, Hcount.
    + exists (skipn (Z.to_nat limit) (recent_first (disk s) user_id)).
      split; [|exact Holder].
      rewrite Hperm. apply order_by_perm.
  - intros Hq Hhi.
    assert (Hb : in_int64 limit = false).
    { apply not_true_iff_false. rewrite in_int64_range. lia. }
    rewrite get_chat_history_unfold, (fetch_all_quiet _ s Hidle Hq).
    cbn [sqlite_step study_db].
    rewrite (select_chat_history_overflow _ _ _ _ _ Hb). reflexivity.
Qed.

(** ** Schema migrator *)

Module MigratorFacts.
Import Migrator.

Lemma table_columns_add_column (sch : schema) (t col t' : string) :
  table_columns (add_column sch t col) t' =
    match table_columns sch t' with
    | Some cols => if String.eqb t t' then Some (cols ++ [col]) else Some cols
    | None => None
    end.
Proof.
  induction sch as [|[name cols] sch IH]; cbn; [reflexivity|].
  destruct (String.eqb name t) eqn:E; cbn.
  - apply String.eqb_eq in E. subst name.
    destruct (String.eqb t t'); [reflexivity|].
    now destruct (table_columns sch t').
  - destruct (String.eqb name t') eqn:E'; [|exact IH].
    apply String.eqb_eq in E'. subst name.
    rewrite String.eqb_sym, E. reflexivity.
Qed.

Lemma grows_refl (sch : schema) : grows sch sch.
Proof.
  intros t. destruct (table_columns sch t); [|exact I].
  exists []. now rewrite app_nil_r.
Qed.

Lemma grows_trans (a b c : schema) : grows a b -> grows b c -> grows a c.
Proof.
  intros H1 H2 t. specialize (H1 t). specialize (H2 t).
  destruct (table_columns a t), (table_columns b t), (table_columns c t);
    try contradiction; [|exact I].
  destruct H1 as [x ->], H2 as [y ->]. exists (x ++ y). now rewrite app_assoc.
Qed.

Lemma step_grows (t def c : string) (sch : schema) : grows sch (step t def c sch).
Proof.
  unfold step.
  destruct (table_columns sch t) as [cols|] eqn:E; [|apply grows_refl].
  destruct (existsb _ cols); [apply grows_refl|].
  destruct (has_column_nocase _ _); [apply grows_refl|].
  intros t'. rewrite table_columns_add_column.
  destruct (table_columns sch t') as [cols'|]; [|exact I].
  destruct (String.eqb t t'); [eauto|].
  exists []. now rewrite app_nil_r.
Qed.

Lemma has_column_nocase_last (cols : list string) (col : string) :
  has_column_nocase (cols ++ [col]) col = true.
Proof.
  unfold has_column_nocase. rewrite existsb_app. cbn.
  rewrite String.eqb_refl. now rewrite orb_true_r.
Qed.

Lemma step_done (t def c : string) (sch : schema) : done t def c (step t def c sch).
Proof.
  unfold done, step.
  destruct (table_columns sch t) as [cols|] eqn:E; [|now rewrite E].
  destruct (existsb (String.eqb c) cols) eqn:Ec; [rewrite E; auto|].
  destruct (has_column_nocase cols (first_word def)) eqn:Ed; [rewrite E; auto|].
  rewrite table_columns_add_column, E, String.eqb_refl.
  right. apply has_column_nocase_last.
Qed.

Lemma done_grows (t def c : string) (sch sch' : schema) :
  grows sch sch' -> done t def c sch -> done t def c sch'.
Proof.
  unfold done. intros G. specialize (G t).
  destruct (table_columns sch t) as [cols|], (table_columns sch' t) as [cols'|];
    try contradiction; [|auto].
  destruct G as [extra ->].
  unfold has_column_nocase. rewrite !existsb_app.
  intros [-> | ->]; auto.
Qed.

Lemma done_step (t def c : string) (sch : schema) :
  done t def c sch -> step t def c sch = sch.
Proof.
  unfold done, step.
  destruct (table_columns sch t) as [cols|]; [|reflexivity].
  intros [-> | H]; [reflexivity|].
  rewrite H. now destruct (existsb _ cols).
Qed.

Lemma migrated_idempotent (sch : schema) : migrated (migrated sch) = migrated sch.
Proof.
  unfold migrated.
  set (s1 := step "tasks" "category TEXT DEFAULT 'General'" "category" sch).
  set (s2 := step "tasks" "created_at TEXT" "created_at" s1).
  set (s3 := step "quiz_attempts" "questions_data TEXT" "questions_data" s2).
  assert (D1 : done "tasks" "category TEXT DEFAULT 'General'" "category" s3).
  { apply (done_grows _ _ _ s1); [|apply step_done].
    eapply grows_trans; apply step_grows. }
  assert (D2 : done "tasks" "created_at TEXT" "created_at" s3).
  { apply (done_grows _ _ _ s2); [apply step_grows | apply step_done]. }
  assert (D3 : done "quiz_attempts" "questions_data TEXT" "questions_data" s3)
    by apply step_done.
  now rewrite (done_step _ _ _ _ D1), (done_step _ _ _ _ D2), (done_step _ _ _ _ D3).
Qed.

Lemma lower_app (a b : string) : lower (a ++ b)%string = (lower a ++ lower b)%string.
Proof. induction a as [|c a IH]; cbn; [reflexivity | now rewrite IH]. Qed.

(** The message SQLite gives for a duplicate column is recognised by
    the handler. *)
Lemma duplicate_message_recognised (col : string) :
  contains "duplicate column name"
    (lower (exn_str (OperationalError ("duplicate column name: " ++ col)))) = true.
Proof. cbn [exn_str]. rewrite lower_app. reflexivity. Qed.

(** [_try_add_column] on a store that answers as SQLite does and is not
    disturbed. *)
Lemma try_add_column_quiet (t def c : string) (s : state) :
  faults s = [] ->
  exists r,
    _try_add_column t def c s =
      (Return r,
       {| tables := step t def c (tables s);
          sent := sent s ++ (if alters t c (tables s) then [(t, def)] else []);
          faults := [] |}).
Proof.
  destruct s as [sch log fs]. cbn [faults tables sent]. intros ->.
  unfold step, alters.
  unfold _try_add_column, _column_exists, _table_exists, bind, ret, raise,
    storage_call, try_except, execute_alter, alter_handler,
    alter_table_add_column.
  cbn [next_fault faults tables sent].
  destruct (table_columns sch t) as [cols|] eqn:E.
  - destruct (existsb (String.eqb c) cols) eqn:Ec.
    + repeat (progress (rewrite ?E, ?Ec; cbn [negb next_fault faults tables sent])).
      rewrite app_nil_r. eauto.
    + destruct (has_column_nocase cols (first_word def)) eqn:Ed.
      * repeat (progress (rewrite ?E, ?Ec, ?Ed;
                          cbn [negb next_fault faults tables sent])).
        rewrite duplicate_message_recognised. unfold ret. eauto.
      * repeat (progress (rewrite ?E, ?Ec, ?Ed;
                          cbn [negb next_fault faults tables sent])).
        eauto.
  - repeat (progress (rewrite ?E; cbn [negb next_fault faults tables sent])).
    rewrite app_nil_r. eauto.
Qed.


Lemma init_db_migration_quiet (s : state) :
  faults s = [] ->
  exists log,
    init_db_migration s =
      (Return tt, {| tables := migrated (tables s); sent := log; faults := [] |}).
Proof.
  intros Hq. unfold init_db_migration, try_except_sqlite, try_except, migrated.
  unfold bind at 1.
  destruct (try_add_column_quiet "tasks" "category TEXT DEFAULT 'General'"
              "category" s Hq) as [r1 ->].
  unfold bind at 1.
  match goal with
  | |- context [_try_add_column ?t ?d ?c ?st] =>
      destruct (try_add_column_quiet t d c st eq_refl) as [r2 E2];
      cbn [tables sent] in E2; rewrite E2; clear E2
  end.
  unfold bind at 1.
  match goal with
  | |- context [_try_add_column ?t ?d ?c ?st] =>
      destruct (try_add_column_quiet t d c st eq_refl) as [r3 E3];
      cbn [tables sent] in E3; rewrite E3; clear E3
  end.
  destruct r1, r2, r3; cbn; eauto.
Qed.

Ltac migrator_step :=
  match goal with
  | |- context [match ?fs with [] => _ | _ :: _ => _ end] =>
      is_var fs; destruct fs as [|[[|?] ?] ?]
  | |- context [match ?k with O => _ | S _ => _ end] =>
      is_var k; destruct k
  end.

(** With the column there, [_try_add_column] hands no ALTER to the store
    and leaves the schema, whatever the store does to its lookups. *)
Lemma try_add_column_present (t def c : string) (s : state) (cols : list string) :
  table_columns (tables s) t = Some cols ->
  existsb (String.eqb c) cols = true ->
  sent (snd (_try_add_column t def c s)) = sent s /\
  tables (snd (_try_add_column t def c s)) = tables s /\
  (faults s = [] -> _try_add_column t def c s = (Return false, s)).
Proof.
  destruct s as [sch log fs]. cbn [faults tables sent]. intros E Ec.
  unfold _try_add_column, _column_exists, _table_exists, bind, ret, raise,
    storage_call, try_except, execute_alter, alter_handler,
    alter_table_add_column, next_fault.
  cbn [faults tables sent].
  repeat (migrator_step;
          repeat (progress (rewrite ?E, ?Ec; cbn [negb faults tables sent fst snd]))).
  all: repeat split; try reflexivity; try discriminate.
Qed.

(** A duplicate-column report of the store is answered with [False]: the
    call returns and the migration goes on. *)
Lemma duplicate_column_tolerated (msg : string) (s : state) :
  contains "duplicate column name" (lower msg) = true ->
  alter_handler (OperationalError msg) s = (Return false, s).
Proof. intros H. unfold alter_handler. cbn [exn_str]. now rewrite H. Qed.

(** The same seen from the caller: the column is missing by the lookup,
    the six lookups go through, and the store answers the ALTER with the
    duplicate-column error. *)
Lemma try_add_column_duplicate (t def c msg : string) (s : state)
    (cols : list string) (rest : schedule) :
  table_columns (tables s) t = Some cols ->
  existsb (String.eqb c) cols = false ->
  faults s = (6%nat, OperationalError msg) :: rest ->
  contains "duplicate column name" (lower msg) = true ->
  _try_add_column t def c s =
    (Return false,
     {| tables := tables s; sent := sent s ++ [(t, def)]; faults := rest |}).
Proof.
  destruct s as [sch log fs]. cbn [faults tables sent]. intros E Ec -> Hmsg.
  unfold _try_add_column, _column_exists, _table_exists, bind, ret, raise,
    storage_call, try_except, execute_alter, alter_handler,
    alter_table_add_column, next_fault.
  cbn [faults tables sent exn_str].
  repeat (progress (rewrite ?E, ?Ec, ?Hmsg; cbn [negb faults tables sent exn_str])).
  reflexivity.
Qed.

(** The phase ends without an exception of the storage layer, whatever
    the store does. *)
Lemma init_db_migration_contained (s : state) (e : exn) :
  fst (init_db_migration s) = Raise e -> is_sqlite3_Error e = false.
Proof.
  unfold init_db_migration, try_except_sqlite, try_except.
  match goal with
  | |- context [let (_, _) := ?body s in _] => destruct (body s) as [[[]|e'] s']
  end; cbn.
  - discriminate.
  - destruct (is_sqlite3_Error e') eqn:E; cbn; [discriminate|].
    intros H. inversion H; subst. exact E.
Qed.

End MigratorFacts.

(** C2. On a store that answers as SQLite does and is not disturbed, the
    additive column migration run twice in a row ends normally both
    times, and the second run leaves the schema the first run produced.
    Whatever the store does, no storage-layer error leaves the phase; a
    column that is there makes [_try_add_column] send no ALTER; and a
    duplicate-column error of the store is answered by returning [False],
    not by failing. *)
Theorem additive_migration_idempotent :
  forall (s : Migrator.state),
    (Migrator.faults s = [] ->
     exists s1 s2,
       Migrator.init_db_migration s = (Return tt, s1) /\
       Migrator.init_db_migration s1 = (Return tt, s2) /\
       Migrator.tables s1 = Migrator.migrated (Migrator.tables s) /\
       Migrator.tables s2 = Migrator.tables s1) /\
    (forall e, fst (Migrator.init_db_migration s) = Raise e ->
               is_sqlite3_Error e = false) /\
    (forall t def c cols,
       Migrator.table_columns (Migrator.tables s) t = Some cols ->
       existsb (String.eqb c) cols = true ->
       Migrator.sent (snd (Migrator._try_add_column t def c s)) = Migrator.sent s /\
       Migrator.tables (snd (Migrator._try_add_column t def c s)) = Migrator.tables s /\
       (Migrator.faults s = [] ->
        Migrator._try_add_column t def c s = (Return false, s))) /\
    (forall msg,
       contains "duplicate column name" (lower msg) = true ->
       Migrator.alter_handler (OperationalError msg) s = (Return false, s)) /\
    (forall t def c msg cols rest,
       Migrator.table_columns (Migrator.tables s) t = Some cols ->
       existsb (String.eqb c) cols = false ->
       Migrator.faults s = (6%nat, OperationalError msg) :: rest ->
       contains "duplicate column name" (lower msg) = true ->
       Migrator._try_add_column t def c s =
         (Return false,
          {| Migrator.tables := Migrator.tables s;
             Migrator.sent := Migrator.sent s ++ [(t, def)];
             Migrator.faults := rest |})).
Proof.
  intros s. split; [|split; [|split; [|split]]].
  - intros Hq.
    destruct (MigratorFacts.init_db_migration_quiet s Hq) as [log1 E1].
    destruct (MigratorFacts.init_db_migration_quiet _ (eq_refl :
                Migrator.faults {| Migrator.tables := Migrator.migrated (Migrator.tables s);
                                   Migrator.sent := log1;
                                   Migrator.faults := [] |} = [])) as [log2 E2].
    eexists _, _. split; [exact E1|]. split; [exact E2|]. cbn.
    split; [reflexivity | apply MigratorFacts.migrated_idempotent].
  - apply MigratorFacts.init_db_migration_contained.
  - intros t def c cols. apply MigratorFacts.try_add_column_present.
  - intros msg. apply MigratorFacts.duplicate_column_tolerated.
  - intros t def c msg cols rest. apply MigratorFacts.try_add_column_duplicate.
Qed.

(** ** The theorems at sample inputs *)

Example sha256_abc :
  Hashlib.sha256_hexdigest "abc" =
    "ba7816bf8f01cfea414140de5dae2223b00361a396177a9cb410ff61f20015ad".
Proof. vm_compute. reflexivity. Qed.

Example sha256_empty :
  Hashlib.sha256_hexdigest "" =
    "e3b0c44298fc1c149afbf4c8996fb92427ae41e4649b934ca495991b7852b855".
Proof. vm_compute. reflexivity. Qed.

Lemma idle_sample : idle Sample.manager.
Proof. split; reflexivity. Defined.

Lemma idle_locked : idle Sample.locked_manager.
Proof. split; reflexivity. Defined.

(** C1 at a locked store: the insert of a task returns [None] and the
    manager is idle again. *)
Lemma executor_contains_errors_and_closes_witness :
  idle Sample.locked_manager /\
  fst (execute_query (InsertTask 1 "Revise" (Some "General") None)
         Sample.locked_manager) = Return None /\
  idle (snd (execute_query (InsertTask 1 "Revise" (Some "General") None)
               Sample.locked_manager)) /\
  open_conns (snd (execute_query (InsertTask 1 "Revise" (Some "General") None)
                     Sample.locked_manager)) = 0%nat.
Proof.
  split; [exact idle_locked|].
  destruct (executor_contains_errors_and_closes
              (InsertTask 1 "Revise" (Some "General") None)
              Sample.locked_manager idle_locked)
    as [(Hidle & Hopen & _ & Hnone) _].
  split; [|split; [exact Hidle | exact Hopen]].
  apply (Hnone (OperationalError "database is locked")); reflexivity.
Defined.

(** C2 at an installation that predates the three columns. *)
Lemma additive_migration_idempotent_witness :
  Migrator.faults Sample.old_installation = [] /\
  exists s1 s2,
    Migrator.init_db_migration Sample.old_installation = (Return tt, s1) /\
    Migrator.init_db_migration s1 = (Return tt, s2) /\
    Migrator.tables s1 =
      [("users", ["user_id"; "username"; "password_hash"]);
       ("tasks", ["task_id"; "user_id"; "description"; "due_date"; "completed";
                  "category"; "created_at"]);
       ("quiz_attempts", ["attempt_id"; "user_id"; "topic"; "quiz_date"; "score";
                          "total_questions"; "questions_data"])] /\
    Migrator.tables s2 = Migrator.tables s1.
Proof.
  split; [reflexivity|].
  destruct (additive_migration_idempotent Sample.old_installation) as [H _].
  destruct (H eq_refl) as (s1 & s2 & E1 & E2 & T1 & T2).
  exists s1, s2.
  split; [exact E1|]. split; [exact E2|]. split; [exact T1 | exact T2].
Defined.

(** C3 at the deletion of "Academic": the two academic tasks of Alice end
    in "General". *)
Lemma delete_task_category_spec_witness :
  idle Sample.manager /\ faults Sample.manager = [] /\
  String.eqb (lower "Academic") "general" = false /\
  exists res s',
    delete_task_category 1 "Academic" Sample.manager =
      (Return (Executed (Some res)), s') /\
    map t_category (rows (tasks (disk s'))) =
      [Some "General"; Some "General"; Some "Errands"; Some "Personal"] /\
    (forall t, In t (rows (tasks (disk s'))) -> t_user_id t = 1 ->
               t_category t <> Some "Academic").
Proof.
  split; [exact idle_sample|]. split; [reflexivity|]. split; [reflexivity|].
  destruct (delete_task_category_spec 1 "Academic" Sample.manager idle_sample)
    as (_ & H & _).
  destruct (H eq_refl eq_refl) as (res & s' & E & _ & _ & Hrows & Hno & _).
  exists res, s'. split; [exact E|]. split; [|exact Hno].
  rewrite Hrows. reflexivity.
Defined.

(** C3 as the claim states it fails when the store fails: with a database
    that is locked once, at the commit of the UPDATE, the call for
    "Academic" returns a cursor and the category is deleted, while the
    two academic tasks of Alice keep it as their category. *)
Lemma delete_task_category_store_failure :
  let s := init_manager Sample.db Sample.now
             [(4%nat, OperationalError "database is locked")] in
  idle s /\ String.eqb (lower "Academic") "general" = false /\
  fst (delete_task_category 1 "Academic" s) =
    Return (Executed (Some {| lastrowid := 0; pending := [] |})) /\
  map t_category (rows (tasks (disk (snd (delete_task_category 1 "Academic" s))))) =
    [Some "Academic"; Some "Academic"; Some "Errands"; Some "Personal"] /\
  category_names (disk (snd (delete_task_category 1 "Academic" s))) 1 =
    ["Errands"; "General"; "Personal"; "Project"; "Urgent"] /\
  ~ (forall t, In t (rows (tasks (disk (snd (delete_task_category 1 "Academic" s)))))
               -> t_user_id t = 1 -> t_category t <> Some "Academic").
Proof.
  intros s. split; [split; reflexivity|]. split; [reflexivity|].
  split; [vm_compute; reflexivity|]. split; [vm_compute; reflexivity|].
  split; [vm_compute; reflexivity|].
  intros H.
  apply (H (Sample.task 1 "Read Ch.3" "Academic" "2024-01-10" 0));
    [vm_compute; auto | reflexivity..].
Qed.

(** C4 on the sample tasks: the only overdue one is "Read Ch.3". *)
Lemma overdue_run :
  get_tasks Sample.today 1 true None (Some "overdue") None Sample.manager =
    (Return (Some [[VInt 1; VText "Read Ch.3"; VText "Academic";
                    VText "2024-01-10"; VInt 0; VText "2024-01-02 08:00:00"]]),
     Sample.manager).
Proof. reflexivity. Defined.

Lemma get_tasks_overdue_sound_witness :
  idle Sample.manager /\
  get_tasks Sample.today 1 true None (Some "overdue") None Sample.manager =
    (Return (Some [[VInt 1; VText "Read Ch.3"; VText "Academic";
                    VText "2024-01-10"; VInt 0; VText "2024-01-02 08:00:00"]]),
     Sample.manager) /\
  forall r,
    In r [[VInt 1; VText "Read Ch.3"; VText "Academic";
           VText "2024-01-10"; VInt 0; VText "2024-01-02 08:00:00"]] ->
    nth 4 r VNull = VInt 0 /\
    exists d, nth 3 r VNull = VText d /\
              text_lt d (strftime_Ymd Sample.today) = true.
Proof.
  split; [exact idle_sample|]. split; [exact overdue_run|].
  destruct (get_tasks_overdue_sound Sample.today 1 true None None
              Sample.manager idle_sample) as [Hsound _].
  intros r Hr.
  destruct (Hsound _ _ overdue_run r Hr) as (_ & Hc & d & Hd & Hlt & _).
  split; [exact Hc|]. exists d. split; [exact Hd | exact Hlt].
Defined.

(** C5 on the sample categories. *)
Lemma get_task_categories_general_first_witness :
  idle Sample.manager /\ faults Sample.manager = [] /\
  get_task_categories 1 Sample.manager =
    (Return (map VText ["General"; "Academic"; "Errands"; "Personal";
                        "Project"; "Urgent"]), Sample.manager) /\
  hd_error (map VText ["General"; "Academic"; "Errands"; "Personal";
                       "Project"; "Urgent"]) = Some (VText "General").
Proof.
  split; [exact idle_sample|]. split; [reflexivity|].
  destruct (get_task_categories_general_first 1 Sample.manager idle_sample)
    as (Hhead & _ & _).
  split; [reflexivity|].
  apply (Hhead _ Sample.manager). reflexivity.
Defined.

Lemma registration_run :
  add_user Hashlib.sha256_hexdigest "alice" "secret1"
    (init_manager Sample.empty_db Sample.now []) =
  (Return (Some {| lastrowid := 1; pending := [] |}), snd Sample.registered).
Proof. vm_compute. reflexivity. Defined.

Lemma idle_empty : idle (init_manager Sample.empty_db Sample.now []).
Proof. split; reflexivity. Defined.

Lemma add_user_stores_digest_and_seeds_defaults_witness :
  idle (init_manager Sample.empty_db Sample.now []) /\
  referential_integrity Sample.empty_db = true /\
  rows (users (disk (snd Sample.registered))) =
    [{| u_user_id := 1; u_username := "alice";
        u_password_hash :=
          "5b11618c2e44027877d0cd0921ed166b9f176f50587fc91e7534dd2946db77d6" |}] /\
  Hashlib.sha256_hexdigest "secret1" <> "secret1" /\
  map c_name (categories_of (disk (snd Sample.registered)) 1) =
    ["General"; "Academic"; "Personal"; "Project"; "Urgent"].
Proof.
  split; [exact idle_empty|]. split; [reflexivity|].
  destruct (add_user_stores_digest_and_seeds_defaults
              "alice" "secret1" _ _ _ idle_empty registration_run)
    as ((Hrow & _) & (_ & Hnot) & _ & _ & _ & _ & Hfive).
  split; [|split].
  - rewrite Hrow. vm_compute. reflexivity.
  - apply Hnot. vm_compute. discriminate.
  - destruct (Hfive eq_refl eq_refl) as [Hnames _]. exact Hnames.
Defined.

(** C6 as the claim states it fails when the store fails: with a database
    that is locked once while the first category is inserted, [add_user]
    on an empty database still returns the cursor of the new user, who
    then has four categories; "General" is not stored. *)
Lemma add_user_seeding_failure :
  let s := init_manager Sample.empty_db Sample.now
             [(7%nat, OperationalError "database is locked")] in
  idle s /\
  fst (add_user Hashlib.sha256_hexdigest "alice" "secret1" s) =
    Return (Some {| lastrowid := 1; pending := [] |}) /\
  map c_name
    (categories_of
       (disk (snd (add_user Hashlib.sha256_hexdigest "alice" "secret1" s))) 1) =
    ["Academic"; "Personal"; "Project"; "Urgent"] /\
  map c_name
    (categories_of
       (disk (snd (add_user Hashlib.sha256_hexdigest "alice" "secret1" s))) 1) <>
    default_categories.
Proof.
  intros s. split; [split; reflexivity|].
  split; [vm_compute; reflexivity|].
  assert (E : map c_name
                (categories_of
                   (disk (snd (add_user Hashlib.sha256_hexdigest "alice"
                                 "secret1" s))) 1) =
              ["Academic"; "Personal"; "Project"; "Urgent"])
    by (vm_compute; reflexivity).
  split; [exact E|]. rewrite E. discriminate.
Qed.

Lemma check_user_after_add_user_witness :
  idle (init_manager Sample.empty_db Sample.now []) /\
  idle (snd Sample.registered) /\ faults (snd Sample.registered) = [] /\
  check_user Hashlib.sha256_hexdigest "alice" "secret1" (snd Sample.registered) =
    (Return (Some [VInt 1; VText "alice"]), snd Sample.registered) /\
  check_user Hashlib.sha256_hexdigest "alice" "wrong" (snd Sample.registered) =
    (Return None, snd Sample.registered).
Proof.
  split; [exact idle_empty|].
  assert (Hidle : idle (snd Sample.registered)) by (split; reflexivity).
  split; [exact Hidle|]. split; [reflexivity|].
  destruct (check_user_after_add_user Hashlib.sha256_hexdigest
              "alice" "secret1" _ _ _ idle_empty registration_run
              (snd Sample.registered) Hidle eq_refl eq_refl) as (Hok & Hbad & _).
  split; [exact Hok|].
  apply Hbad. vm_compute. discriminate.
Defined.

Lemma attempt_run :
  add_quiz_attempt 1 "Arithmetic" "2024-01-15 12:00:00" 0 1 Sample.quiz_snapshot
    Sample.manager =
  (Return (Some {| lastrowid := 1; pending := [] |}), snd Sample.attempted).
Proof. vm_compute. reflexivity. Defined.

Lemma quiz_attempt_round_trip_witness :
  idle Sample.manager /\ idle (snd Sample.attempted) /\ faults (snd Sample.attempted) = [] /\
  get_quiz_attempt_details 1 (snd Sample.attempted) =
    (Return (Some [VText "Arithmetic"; VText Sample.quiz_snapshot]), snd Sample.attempted).
Proof.
  split; [exact idle_sample|].
  assert (Hidle : idle (snd Sample.attempted)) by (split; reflexivity).
  split; [exact Hidle|]. split; [reflexivity|].
  exact (quiz_attempt_round_trip 1 "Arithmetic" "2024-01-15 12:00:00" 0 1
           Sample.quiz_snapshot _ _ _ idle_sample attempt_run
           (snd Sample.attempted) Hidle eq_refl eq_refl).
Defined.

(** C9 as the claim states it fails for a negative limit: with LIMIT -1
    all three messages of Alice come back, which is more than -1 and more
    than any "-1 most recent". *)
Lemma get_chat_history_negative_limit :
  idle Sample.manager /\
  get_chat_history 1 (-1) Sample.manager =
    (Return [[VText "user"; VText "What is a monad?"; VText "2024-01-14 10:00:00"];
             [VText "model"; VText "A monoid in ..."; VText "2024-01-14 10:00:05"];
             [VText "user"; VText "Thanks"; VText "2024-01-14 10:01:00"]],
     Sample.manager) /\
  ~ (forall l s',
       get_chat_history 1 (-1) Sample.manager = (Return l, s') ->
       Z.of_nat (length l) <= -1).
Proof.
  split; [exact idle_sample|]. split; [reflexivity|].
  intros H. specialize (H _ _ eq_refl). apply H. reflexivity.
Qed.

(** C9 as amended, at limit 2: the two latest messages, oldest first. *)
Lemma get_chat_history_recent_chronological_witness :
  idle Sample.manager /\ 0 <= 2 /\ faults Sample.manager = [] /\ 2 < 2 ^ 63 /\
  get_chat_history 1 2 Sample.manager =
    (Return [[VText "model"; VText "A monoid in ..."; VText "2024-01-14 10:00:05"];
             [VText "user"; VText "Thanks"; VText "2024-01-14 10:01:00"]],
     Sample.manager) /\
  (forall l s', get_chat_history 1 2 Sample.manager = (Return l, s') ->
                Z.of_nat (length l) <= 2).
Proof.
  split; [exact idle_sample|].
  assert (H02 : 0 <= 2) by (intros H; discriminate H).
  assert (Hhi : 2 < 2 ^ 63) by reflexivity.
  split; [exact H02|]. split; [reflexivity|]. split; [exact Hhi|].
  destruct (get_chat_history_recent_chronological 1 2 Sample.manager
              idle_sample H02) as (Hany & Hquiet & _).
  split.
  - destruct (Hquiet eq_refl Hhi) as [E _]. rewrite E. reflexivity.
  - intros l s' E. destruct (Hany l s' E) as (shown & _ & Hlen & _).
    exact Hlen.
Defined.

(** C10 at a locked store: the category list is ["General"] and the chat
    history is empty. *)
Lemma fetch_failure_is_masked_witness :
  idle Sample.locked_manager /\
  fst (fetch_all (SelectCategoryNames 1) Sample.locked_manager) = Return None /\
  fst (get_task_categories 1 Sample.locked_manager) = Return [VText "General"] /\
  fst (get_chat_history 1 20 Sample.locked_manager) = Return [].
Proof.
  split; [exact idle_locked|].
  destruct (fetch_failure_is_masked 1 Sample.locked_manager idle_locked)
    as (_ & _ & _ & H).
  destruct (H (OperationalError "database is locked") [] eq_refl eq_refl)
    as (Hfetch & Hcats & Hchat).
  split; [exact Hfetch|]. split; [exact Hcats|].
  destruct (Hchat 20) as [_ Hc]. exact Hc.
Defined.

(** * Further properties *)

(** ** The executor: one statement, all or nothing *)

(** X1. [execute_query] of a statement of the repositories (the INSERT,
    UPDATE, DELETE and SELECT statements of [stmt], which the [sqlite3]
    module runs in a transaction) on an idle manager either returns the
    cursor of the statement, which the engine ran, with foreign keys
    enforced, on the committed contents of the file, and whose result is
    then what the file holds; or it returns [None] or raises and the file
    is as it was.  [fetch_one] and [fetch_all] never change the file,
    whichever of these statements they are given: what they do not commit
    is dropped when the connection is closed. *)
Theorem execute_query_all_or_nothing :
  forall (query : stmt) (s : state),
    idle s ->
    (forall c s',
       execute_query query s = (Return (Some c), s') ->
       exists db',
         run_stmt true (clock s) query (disk s) =
           inr (db', lastrowid c, pending c) /\
         disk s' = db') /\
    (forall r s',
       execute_query query s = (r, s') ->
       (forall c, r <> Return (Some c)) ->
       disk s' = disk s) /\
    disk (snd (fetch_one query s)) = disk s /\
    disk (snd (fetch_all query s)) = disk s.
Proof.
  intros query s Hidle.
  pose proof (execute_query_outcomes query s Hidle) as O.
  destruct (execute_query query s) as [r0 s0]. cbn [fst snd] in O.
  destruct O as (_ & O).
  split; [|split; [|split]].
  - intros c s' E. inversion E; subst r0 s0. clear E.
    destruct O as [[O _]|[(e & O & _)|(db' & rid & rws & Hrun & O & Hd)]];
      try discriminate.
    inversion O; subst c. cbn [lastrowid pending].
    exists db'. split; [exact Hrun | exact Hd].
  - intros r s' E Hr. inversion E; subst r0 s0. clear E.
    destruct O as [[_ O]|[(e & _ & _ & O & _)|(db' & rid & rws & _ & O & _)]];
      try assumption.
    exfalso. exact (Hr _ O).
  - apply (fetch_one_outcomes query s Hidle).
  - apply (fetch_all_outcomes query s Hidle).
Qed.

(** X1 on the sample manager: marking the retarget of Alice's academic
    tasks. *)
Lemma execute_query_all_or_nothing_witness :
  idle Sample.manager /\
  disk (snd (fetch_all (UpdateTasksToGeneral 1 "Academic") Sample.manager)) =
    Sample.db /\
  disk (snd (execute_query (UpdateTasksToGeneral 1 "Academic")
               Sample.locked_manager)) = Sample.db.
Proof.
  split; [exact idle_sample|].
  split.
  - apply (execute_query_all_or_nothing
             (UpdateTasksToGeneral 1 "Academic") Sample.manager idle_sample).
  - destruct (execute_query_all_or_nothing
                (UpdateTasksToGeneral 1 "Academic") Sample.locked_manager
                idle_locked) as (_ & Hnone & _).
    apply (Hnone (Return None)); [reflexivity | discriminate].
Defined.

(** ** Users and tasks: what fails and what is listed *)

Section AddUserFailure.
Variable sha256_hexdigest : string -> string.

(** X2. [add_user] with a user name that is taken never returns a cursor
    and leaves the file as it was, whatever the store does: the UNIQUE
    constraint on [users.username] makes the insert fail, and no category
    is seeded.  On a store that does not fail it returns [None]. *)
Theorem add_user_rejects_taken_name :
  forall (username password : string) (s : state),
    idle s ->
    existsb (fun r => String.eqb (u_username r) username)
      (rows (users (disk s))) = true ->
    (forall c, fst (add_user sha256_hexdigest username password s) <>
               Return (Some c)) /\
    disk (snd (add_user sha256_hexdigest username password s)) = disk s /\
    (faults s = [] ->
     add_user sha256_hexdigest username password s = (Return None, s)).
Proof.
  intros username password s Hidle Htaken.
  rewrite add_user_unfold.
  pose proof (execute_query_outcomes
                (InsertUser username (sha256_hexdigest password)) s Hidle) as O.
  pose proof (execute_query_quiet
                (InsertUser username (sha256_hexdigest password)) s Hidle) as Q.
  cbn [sqlite_step study_db run_stmt] in O, Q. rewrite Htaken in O, Q.
  destruct (execute_query _ s) as [r s1]. cbn [fst snd] in O.
  destruct O as (_ & [[-> Hd]|[(e & -> & _ & Hd & _)|(db' & rid & rws & Hrun & _)]]);
    try discriminate.
  - cbn. repeat split; [discriminate | exact Hd |].
    intros Hq. specialize (Q Hq). cbn in Q. now inversion Q.
  - cbn. repeat split; [discriminate | exact Hd |].
    intros Hq. specialize (Q Hq). cbn in Q. discriminate.
Qed.

End AddUserFailure.

(** X2 on the sample database, where "alice" is registered. *)
Lemma add_user_rejects_taken_name_witness :
  idle Sample.manager /\
  existsb (fun r => String.eqb (u_username r) "alice")
    (rows (users (disk Sample.manager))) = true /\
  add_user Hashlib.sha256_hexdigest "alice" "another" Sample.manager =
    (Return None, Sample.manager).
Proof.
  split; [exact idle_sample|]. split; [reflexivity|].
  apply (add_user_rejects_taken_name Hashlib.sha256_hexdigest
           "alice" "another" Sample.manager idle_sample eq_refl).
  reflexivity.
Defined.

(** The row [add_task] inserts. *)
Lemma run_insert_task (now : string) (db db' : DB) (uid : Z) (description : string)
    (category due_date : option string) (rid : Z) (rws : list row) :
  run_stmt true now (InsertTask uid description category due_date) db =
    inr (db', rid, rws) ->
  user_exists db uid = true /\
  rid = next_rowid (map t_task_id (rows (tasks db))) (seq (tasks db)) /\
  db' = with_tasks db
          {| rows := rows (tasks db) ++
                     [{| t_task_id := rid; t_user_id := uid;
                         t_description := description; t_category := category;
                         t_due_date := due_date; t_completed := 0;
                         t_created_at := Some now |}];
             seq := rid |}.
Proof.
  cbn [run_stmt]. unfold fk_ok. cbn [negb orb].
  destruct (user_exists db uid); [|discriminate].
  cbn [append_row]. intros E. inversion E; subst. auto.
Qed.

(** X3. [add_task] without a user identity returns [None] and touches
    nothing.  For a user that is not stored it never succeeds and leaves
    the file as it was (the foreign key is enforced).  When it returns a
    cursor, the [tasks] table has gained exactly one row, with the rowid
    the cursor reports, a rowid no task had, the given description,
    category and due date, [completed = 0] and the store's current
    timestamp; every other table is as before; and the task is in what
    [get_tasks] then lists for the user. *)
Theorem add_task_inserts_pending_task :
  forall (uid : Z) (description : string) (category due_date : option string)
         (s : state),
    idle s ->
    add_task None description category due_date s = (Return None, s) /\
    (user_exists (disk s) uid = false ->
     (forall c, fst (add_task (Some uid) description category due_date s) <>
                Return (Some c)) /\
     disk (snd (add_task (Some uid) description category due_date s)) = disk s) /\
    (forall c s',
       add_task (Some uid) description category due_date s = (Return (Some c), s') ->
       let new := {| t_task_id := lastrowid c; t_user_id := uid;
                     t_description := description; t_category := category;
                     t_due_date := due_date; t_completed := 0;
                     t_created_at := Some (clock s) |} in
       rows (tasks (disk s')) = rows (tasks (disk s)) ++ [new] /\
       ~ In (lastrowid c) (map t_task_id (rows (tasks (disk s)))) /\
       users (disk s') = users (disk s) /\
       task_categories (disk s') = task_categories (disk s) /\
       quiz_attempts (disk s') = quiz_attempts (disk s) /\
       ai_chat_history (disk s') = ai_chat_history (disk s) /\
       (forall today s2,
          idle s2 -> faults s2 = [] -> disk s2 = disk s' ->
          exists rws,
            get_tasks today uid false None None None s2 = (Return (Some rws), s2) /\
            In (task_tuple new) rws)).
Proof.
  intros uid description category due_date s Hidle.
  split; [reflexivity|].
  unfold add_task.
  pose proof (execute_query_outcomes
                (InsertTask uid description category due_date) s Hidle) as O.
  destruct (execute_query _ s) as [r s1]. cbn [fst snd] in O |- *.
  destruct O as (_ & O). split.
  - intros Hno.
    destruct O as [[-> Hd]|[(e & -> & _ & Hd & _)|(db' & rid & rws & Hrun & _)]].
    + split; [discriminate | exact Hd].
    + split; [discriminate | exact Hd].
    + cbn [sqlite_step study_db] in Hrun. apply run_insert_task in Hrun.
      destruct Hrun as [Hu _]. congruence.
  - intros c s' E. inversion E; subst r s1. clear E.
    destruct O as [[O _]|[(e & O & _)|(db' & rid & rws & Hrun & O & Hd)]];
      try discriminate.
    inversion O; subst c. clear O. cbn [lastrowid].
    cbn [sqlite_step study_db] in Hrun. apply run_insert_task in Hrun.
    destruct Hrun as (Hu & Hrid & Hdb). rewrite Hd, Hdb.
    cbn [with_tasks tasks users task_categories quiz_attempts ai_chat_history rows].
    repeat split.
    + rewrite Hrid. intros Hin.
      destruct (next_rowid_fresh (map t_task_id (rows (tasks (disk s))))
                  (seq (tasks (disk s)))) as [_ F].
      specialize (F _ Hin). lia.
    + intros today s2 Hidle2 Hq2 Hd2.
      unfold get_tasks. cbn [negb app truthy_str].
      rewrite (fetch_all_quiet _ s2 Hidle2 Hq2).
      cbn [sqlite_step study_db run_stmt]. eexists. split; [reflexivity|].
      apply in_map, order_by_In, filter_In.
      rewrite Hd2. cbn [with_tasks tasks rows]. split.
      * apply in_or_app. right. now left.
      * cbn. rewrite Z.eqb_refl. reflexivity.
Qed.

(** X3 on the sample manager: Alice adds a task without due date. *)
Lemma add_task_inserts_pending_task_witness :
  idle Sample.manager /\
  add_task (Some 1) "Revise" (Some "General") None Sample.manager =
    (Return (Some {| lastrowid := 5; pending := [] |}),
     snd (add_task (Some 1) "Revise" (Some "General") None Sample.manager)) /\
  map t_description
    (rows (tasks (disk (snd (add_task (Some 1) "Revise" (Some "General") None
                               Sample.manager))))) =
    ["Read Ch.3"; "Essay draft"; "Buy stamps"; "Call home"; "Revise"].
Proof.
  split; [exact idle_sample|].
  assert (E : add_task (Some 1) "Revise" (Some "General") None Sample.manager =
              (Return (Some {| lastrowid := 5; pending := [] |}),
               snd (add_task (Some 1) "Revise" (Some "General") None
                      Sample.manager))) by (vm_compute; reflexivity).
  split; [exact E|].
  destruct (add_task_inserts_pending_task 1 "Revise" (Some "General") None
              Sample.manager idle_sample) as (_ & _ & H).
  destruct (H _ _ E) as (Hrows & _).
  rewrite Hrows. reflexivity.
Defined.

(** ** Listing tasks *)

Lemma forallb_holds_app (t : task_row) (l1 l2 : list task_cond) :
  forallb (fun c => holds c t) (l1 ++ l2) =
    (forallb (fun c => holds c t) l1 && forallb (fun c => holds c t) l2)%bool.
Proof. apply forallb_app. Qed.

(** The WHERE clause [get_tasks] builds selects what [task_selected]
    says. *)
Lemma get_tasks_query (today : date) (user_id : Z) (show_completed : bool)
    (category_filter due_filter : option string) (limit : option Z) :
  exists conds,
    get_tasks today user_id show_completed category_filter due_filter limit =
      fetch_all (SelectTasks user_id conds
                   (match limit with
                    | Some n => if truthy_int n then Some n else None
                    | None => None
                    end)) /\
    (forall t, ((t_user_id t =? user_id) &&
                forallb (fun c => holds c t) conds)%bool =
               task_selected today user_id show_completed category_filter
                 due_filter t).
Proof.
  unfold get_tasks, task_selected.
  eexists. split; [reflexivity|].
  - intros t.
    destruct show_completed; cbn [negb orb app];
      (destruct category_filter as [c|]; cbn [truthy_str category_selected];
       [destruct (String.eqb c "") eqn:E1; cbn [negb andb orb];
        [|destruct (String.eqb c "All Categories") eqn:E2; cbn [negb andb orb]]|]);
      (destruct due_filter as [f|]; cbn [due_selected];
       [destruct (String.eqb f "today"); [|destruct (String.eqb f "upcoming");
                                           [|destruct (String.eqb f "overdue")]]|]);
      rewrite ?forallb_holds_app; cbn [forallb holds app];
      destruct (t_user_id t =? user_id), (t_completed t =? 0);
      destruct (t_category t); destruct (t_due_date t);
      cbn [andb orb];
      repeat match goal with
             | |- context [String.eqb ?a ?b] => destruct (String.eqb a b)
             | |- context [text_lt ?a ?b] => destruct (text_lt a b)
             | |- context [text_le ?a ?b] => destruct (text_le a b)
             end; reflexivity.
Qed.

(** The LIMIT clause [get_tasks] writes: none for a limit that is [None]
    or 0; a number that is a 64-bit integer bounds the listing when it is
    positive; any other number makes the statement fail. *)
Lemma select_tasks_limit (fk : bool) (now : string) (db : DB) (uid : Z)
    (conds : list task_cond) (limit : option Z) :
  run_stmt fk now
    (SelectTasks uid conds
       (match limit with
        | Some n => if truthy_int n then Some n else None
        | None => None
        end)) db =
    let selected :=
      order_by task_before
        (filter (fun t => ((t_user_id t =? uid) &&
                           forallb (fun c => holds c t) conds)%bool)
           (rows (tasks db))) in
    match limit with
    | Some n =>
        if in_int64 n then inr (db, 0, map task_tuple (capped limit selected))
        else inl (IntegrityError "datatype mismatch")
    | None => inr (db, 0, map task_tuple selected)
    end.
Proof.
  cbn [run_stmt]. destruct limit as [n|]; [|reflexivity].
  unfold truthy_int, capped, sql_limit.
  destruct (n =? 0) eqn:E0; cbn [negb].
  - apply Z.eqb_eq in E0. subst n. reflexivity.
  - apply Z.eqb_neq in E0.
    destruct (in_int64 n); [|reflexivity].
    destruct (n <? 0) eqn:E1, (n <=? 0) eqn:E2; try reflexivity; lia.
Qed.

Lemma null_text_compare_antisym (a b : option string) :
  null_text_compare a b = CompOpp (null_text_compare b a).
Proof. destruct a, b; cbn; try reflexivity. apply String.compare_antisym. Qed.

Lemma null_text_compare_eq (a b : option string) :
  null_text_compare a b = Eq -> a = b.
Proof.
  destruct a, b; cbn; try discriminate; [|reflexivity].
  intros E. apply String.compare_eq_iff in E. now subst.
Qed.

Lemma null_text_compare_refl (a : option string) : null_text_compare a a = Eq.
Proof.
  destruct a; cbn; [|reflexivity].
  apply String_as_OT.cmp_eq. reflexivity.
Qed.

Lemma null_text_compare_lt_trans (a b c : option string) :
  null_text_compare a b = Lt -> null_text_compare b c = Lt ->
  null_text_compare a c = Lt.
Proof.
  destruct a, b, c; cbn; try discriminate; try reflexivity.
  intros H1 H2. apply String_as_OT.cmp_lt in H1, H2. apply String_as_OT.cmp_lt.
  eapply String_as_OT.lt_trans; eassumption.
Qed.

Lemma null_text_compare_gt (a b : option string) :
  null_text_compare a b = Gt <-> null_text_compare b a = Lt.
Proof.
  rewrite (null_text_compare_antisym a b).
  destruct (null_text_compare b a); cbn; split; congruence.
Qed.

Lemma task_before_total (a b : task_row) :
  task_before a b = true \/ task_before b a = true.
Proof.
  unfold task_before.
  rewrite (Z.compare_antisym (no_due_date a) (no_due_date b)).
  rewrite (null_text_compare_antisym (t_due_date b) (t_due_date a)).
  rewrite (null_text_compare_antisym (t_created_at a) (t_created_at b)).
  destruct (no_due_date a ?= no_due_date b); cbn; auto.
  destruct (null_text_compare (t_due_date a) (t_due_date b)); cbn; auto.
  destruct (null_text_compare (t_created_at b) (t_created_at a)); cbn; auto.
Qed.

Lemma task_before_trans (a b c : task_row) :
  task_before a b = true -> task_before b c = true -> task_before a c = true.
Proof.
  unfold task_before.
  destruct (no_due_date a ?= no_due_date b) eqn:Z1; try discriminate;
    destruct (no_due_date b ?= no_due_date c) eqn:Z2; try discriminate;
    try (rewrite ?Z.compare_eq_iff, ?Z.compare_lt_iff in *;
         replace (no_due_date a ?= no_due_date c) with Lt
           by (symmetry; apply Z.compare_lt_iff; lia);
         reflexivity).
  apply Z.compare_eq in Z1, Z2.
  replace (no_due_date a ?= no_due_date c) with Eq
    by (symmetry; apply Z.compare_eq_iff; lia).
  destruct (null_text_compare (t_due_date a) (t_due_date b)) eqn:D1;
    try discriminate;
    destruct (null_text_compare (t_due_date b) (t_due_date c)) eqn:D2;
    try discriminate.
  - apply null_text_compare_eq in D1, D2. rewrite D1, D2.
    rewrite null_text_compare_refl.
    destruct (null_text_compare (t_created_at b) (t_created_at a)) eqn:C1;
      try discriminate;
      destruct (null_text_compare (t_created_at c) (t_created_at b)) eqn:C2;
      try discriminate; intros _ _.
    + apply null_text_compare_eq in C1, C2. rewrite C2, C1.
      now rewrite null_text_compare_refl.
    + apply null_text_compare_eq in C1. rewrite <- C1, C2. reflexivity.
    + apply null_text_compare_eq in C2. rewrite C2, C1. reflexivity.
    + now rewrite (null_text_compare_lt_trans _ _ _ C2 C1).
  - apply null_text_compare_eq in D1. rewrite D1, D2. reflexivity.
  - apply null_text_compare_eq in D2. rewrite <- D2, D1. reflexivity.
  - now rewrite (null_text_compare_lt_trans _ _ _ D1 D2).
Qed.

Lemma no_due_date_dated (t : task_row) : no_due_date t = 0 <-> dated t.
Proof.
  unfold no_due_date, dated.
  destruct (t_due_date t) as [d|].
  - destruct (String.eqb d "") eqn:E.
    + apply String.eqb_eq in E. subst. split; [discriminate|].
      intros (d & H & Hne). inversion H; subst. contradiction.
    + apply String.eqb_neq in E. split; [eauto|reflexivity].
  - split; [discriminate|]. intros (d & H & _). discriminate.
Qed.

Lemma no_due_date_cases (t : task_row) : no_due_date t = 0 \/ no_due_date t = 1.
Proof.
  unfold no_due_date. destruct (t_due_date t) as [d|]; [|auto].
  destruct (String.eqb d ""); auto.
Qed.

Lemma task_before_listed (a b : task_row) :
  task_before a b = true -> listed_before a b.
Proof.
  unfold task_before, listed_before. intros H. split.
  - rewrite <- !no_due_date_dated.
    destruct (no_due_date a ?= no_due_date b) eqn:Z1.
    + apply Z.compare_eq in Z1. congruence.
    + rewrite Z.compare_lt_iff in Z1. intros Hb.
      destruct (no_due_date_cases a), (no_due_date_cases b); lia.
    + discriminate.
  - intros x y Hx Hy Da Db.
    apply no_due_date_dated in Da, Db. rewrite Da, Db in H. cbn in H.
    rewrite Hx, Hy in H. cbn in H.
    unfold text_le, String.leb. destruct (String.compare x y); congruence.
Qed.

Lemma StronglySorted_weaken {A : Type} (R S : A -> A -> Prop) (l : list A) :
  (forall a b, R a b -> S a b) -> StronglySorted R l -> StronglySorted S l.
Proof.
  intros HRS. induction 1 as [|a l H IH F]; constructor; [assumption|].
  rewrite Forall_forall in *. auto.
Qed.

Lemma StronglySorted_firstn {A : Type} (R : A -> A -> Prop) (n : nat) (l : list A) :
  StronglySorted R l -> StronglySorted R (firstn n l).
Proof.
  intros S. rewrite <- (firstn_skipn n l) in S.
  now apply StronglySorted_app_inv in S.
Qed.

Lemma capped_sorted {A : Type} (R : A -> A -> Prop) (limit : option Z) (l : list A) :
  StronglySorted R l -> StronglySorted R (capped limit l).
Proof.
  intros S. unfold capped. destruct limit as [n|]; [|exact S].
  destruct (n <=? 0); [exact S | now apply StronglySorted_firstn].
Qed.

Lemma get_tasks_quiet (today : date) (user_id : Z) (show_completed : bool)
    (category_filter due_filter : option string) (limit : option Z) (s : state) :
  idle s -> faults s = [] ->
  get_tasks today user_id show_completed category_filter due_filter limit s =
    (match limit with
     | Some n =>
         if in_int64 n then
           Return (Some (map task_tuple
                           (capped limit
                              (order_by task_before
                                 (filter (task_selected today user_id
                                            show_completed category_filter
                                            due_filter)
                                    (rows (tasks (disk s))))))))
         else Return None
     | None =>
         Return (Some (map task_tuple
                         (order_by task_before
                            (filter (task_selected today user_id show_completed
                                       category_filter due_filter)
                               (rows (tasks (disk s)))))))
     end, s).
Proof.
  intros Hidle Hq.
  destruct (get_tasks_query today user_id show_completed category_filter
              due_filter limit) as (conds & -> & Hsel).
  rewrite (fetch_all_quiet _ s Hidle Hq). cbn [sqlite_step study_db].
  rewrite select_tasks_limit. cbv zeta. rewrite (filter_ext _ _ Hsel).
  destruct limit as [n|]; [destruct (in_int64 n)|]; reflexivity.
Qed.

(** X4. On a store that does not fail, [get_tasks] without a limit
    returns the tuples of exactly the stored tasks that its filters
    select, each once: the tasks of the user, without the completed ones
    unless [show_completed], in the category asked for unless that is
    [None], "" or "All Categories", and with a due-date text equal to
    today's for "today", above today's and at most that of today plus seven
    days for "upcoming", below today's and not completed for "overdue". *)
Theorem get_tasks_selects :
  forall (today : date) (user_id : Z) (show_completed : bool)
         (category_filter due_filter : option string) (s : state),
    idle s -> faults s = [] ->
    exists listing : list task_row,
      get_tasks today user_id show_completed category_filter due_filter None s =
        (Return (Some (map task_tuple listing)), s) /\
      Permutation listing
        (filter (task_selected today user_id show_completed category_filter
                   due_filter) (rows (tasks (disk s)))) /\
      (forall t, In t listing <->
                 In t (rows (tasks (disk s))) /\ t_user_id t = user_id /\
                 (show_completed = false -> t_completed t = 0) /\
                 category_selected category_filter t = true /\
                 due_selected today due_filter t = true).
Proof.
  intros today user_id show_completed category_filter due_filter s Hidle Hq.
  eexists. split; [|split].
  - now apply (get_tasks_quiet today user_id show_completed category_filter
                 due_filter None).
  - apply order_by_perm.
  - intros t. rewrite order_by_In, filter_In. unfold task_selected.
    rewrite !andb_true_iff, orb_true_iff, !Z.eqb_eq.
    split.
    + intros (Hin & ((Hu & Hc) & Hcat) & Hdue). repeat split; try assumption.
      intros ->. destruct Hc; [discriminate | assumption].
    + intros (Hin & Hu & Hc & Hcat & Hdue). repeat split; try assumption.
      destruct show_completed; [now left | right; now apply Hc].
Qed.

(** X4 on the sample tasks: two tasks of Alice are due on 2024-01-15
    or in the seven days after 2024-01-08. *)
Lemma get_tasks_selects_witness :
  idle Sample.manager /\ faults Sample.manager = [] /\
  get_tasks {| year := 2024; month := 1; day := 8 |} 1 false
    (Some "All Categories") (Some "upcoming") None Sample.manager =
    (Return (Some [[VInt 1; VText "Read Ch.3"; VText "Academic";
                    VText "2024-01-10"; VInt 0; VText "2024-01-02 08:00:00"];
                   [VInt 4; VText "Call home"; VText "Personal";
                    VText "2024-01-15"; VInt 0; VText "2024-01-02 08:00:00"]]),
     Sample.manager).
Proof.
  split; [exact idle_sample|]. split; [reflexivity|].
  destruct (get_tasks_selects {| year := 2024; month := 1; day := 8 |} 1 false
              (Some "All Categories") (Some "upcoming") Sample.manager
              idle_sample eq_refl) as (listing & E & _).
  reflexivity.
Defined.

(** X5. What [get_tasks] returns on a store that does not fail is in the
    order of its ORDER BY: no task without a due date (NULL or empty) is
    listed before a task with one, and of two dated tasks the one listed
    first is not due later.  A [limit] of [None], of 0 or of a negative
    64-bit integer keeps the whole listing; a positive 64-bit limit keeps
    that many of its first rows; with a limit that is no 64-bit integer
    the statement fails and the call returns [None]. *)
Theorem get_tasks_order_and_limit :
  forall (today : date) (user_id : Z) (show_completed : bool)
         (category_filter due_filter : option string) (limit : option Z)
         (s : state),
    idle s -> faults s = [] ->
    let listing :=
      order_by task_before
        (filter (task_selected today user_id show_completed category_filter
                   due_filter) (rows (tasks (disk s)))) in
    StronglySorted listed_before listing /\
    ((forall n, limit = Some n -> - 2 ^ 63 <= n < 2 ^ 63) ->
     get_tasks today user_id show_completed category_filter due_filter limit s =
       (Return (Some (map task_tuple
                        (match limit with
                         | None => listing
                         | Some n => if n <=? 0 then listing
                                     else firstn (Z.to_nat n) listing
                         end))), s)) /\
    (forall n, limit = Some n -> ~ (- 2 ^ 63 <= n < 2 ^ 63) ->
     get_tasks today user_id show_completed category_filter due_filter limit s =
       (Return None, s)).
Proof.
  intros today user_id show_completed category_filter due_filter limit s
         Hidle Hq listing.
  pose proof (get_tasks_quiet today user_id show_completed category_filter
                due_filter limit s Hidle Hq) as E.
  split; [|split].
  - apply (StronglySorted_weaken (fun a b => task_before a b = true)).
    + apply task_before_listed.
    + apply order_by_sorted; [apply task_before_total | apply task_before_trans].
  - intros Hb. rewrite E. destruct limit as [n|]; [|reflexivity].
    replace (in_int64 n) with true
      by (symmetry; apply in_int64_range, Hb; reflexivity).
    reflexivity.
  - intros n -> Hb. rewrite E.
    replace (in_int64 n) with false; [reflexivity|].
    symmetry. apply not_true_iff_false. now rewrite in_int64_range.
Qed.

Lemma idle_desk : idle Desk.manager.
Proof. split; reflexivity. Defined.

(** X5 on Alice's desk: the dated open tasks come first, by due date, the
    two without due date last, and a limit of 2 keeps the first two. *)
Lemma get_tasks_order_and_limit_witness :
  idle Desk.manager /\ faults Desk.manager = [] /\
  get_tasks Sample.today 1 false None None (Some 2) Desk.manager =
    (Return (Some [[VInt 1; VText "Read Ch.3"; VText "Academic";
                    VText "2024-01-10"; VInt 0; VText "2024-01-02 08:00:00"];
                   [VInt 4; VText "Call home"; VText "Personal";
                    VText "2024-01-15"; VInt 0; VText "2024-01-02 08:00:00"]]),
     Desk.manager) /\
  StronglySorted listed_before
    [Sample.task 1 "Read Ch.3" "Academic" "2024-01-10" 0;
     Sample.task 4 "Call home" "Personal" "2024-01-15" 0;
     Sample.task 2 "Essay draft" "Academic" "2024-03-01" 0;
     Desk.note 5 "Buy milk" None;
     Desk.note 6 "Water plants" (Some "")].
Proof.
  split; [exact idle_desk|]. split; [reflexivity|].
  destruct (get_tasks_order_and_limit Sample.today 1 false None None (Some 2)
              Desk.manager idle_desk eq_refl) as (Hs & E & _).
  split; [|exact Hs].
  rewrite E; [reflexivity|].
  intros n Hn. inversion Hn; subst n. split; [discriminate | reflexivity].
Defined.

(** ** Categories *)

Lemma with_disk_same {D : Type} (s : @state D) : with_disk s (disk s) = s.
Proof. now destruct s. Qed.

Lemma has_category_In (db : DB) (uid : Z) (name : string) :
  has_category db uid name = true <-> In name (category_names db uid).
Proof.
  unfold has_category. rewrite existsb_exists, category_names_In.
  split; intros (c & Hc & H); exists c; split; try assumption.
  - apply andb_true_iff in H. destruct H as [Hu Hn].
    apply Z.eqb_eq in Hu. apply String.eqb_eq in Hn. auto.
  - destruct H as [Hu Hn]. apply andb_true_iff.
    split; [now apply Z.eqb_eq | now apply String.eqb_eq].
Qed.

(** X6. [add_task_category] on a store that does not fail.  Adding a
    name the user already has adds and changes no row and still returns a
    cursor, so the caller sees a success; only the AUTOINCREMENT counter
    of the table advances.  For a user that is not stored the insert
    fails on the foreign key: [None], nothing changed.  Otherwise the
    user has the new name afterwards, every other listing of categories
    is as before, and adding the name again is such an ignored insert. *)
Theorem add_task_category_idempotent :
  forall (user_id : Z) (category_name : string) (s : state),
    idle s -> faults s = [] ->
    (has_category (disk s) user_id category_name = true ->
     add_task_category user_id category_name s =
       (Return (Some {| lastrowid := 0; pending := [] |}),
        with_disk s (counter_advanced (disk s)))) /\
    (has_category (disk s) user_id category_name = false ->
     user_exists (disk s) user_id = false ->
     add_task_category user_id category_name s = (Return None, s)) /\
    (has_category (disk s) user_id category_name = false ->
     user_exists (disk s) user_id = true ->
     exists c s1,
       add_task_category user_id category_name s = (Return (Some c), s1) /\
       1 <= lastrowid c /\
       (forall u n, In n (category_names (disk s1) u) <->
                    In n (category_names (disk s) u) \/
                    (u = user_id /\ n = category_name)) /\
       add_task_category user_id category_name s1 =
         (Return (Some {| lastrowid := 0; pending := [] |}),
          with_disk s1 (counter_advanced (disk s1)))) /\
    (forall db : DB,
       rows (task_categories (counter_advanced db)) = rows (task_categories db) /\
       same_but_categories db (counter_advanced db) /\
       forall u, category_names (counter_advanced db) u = category_names db u).
Proof.
  intros user_id category_name s Hidle Hq.
  assert (Hdup : forall s0 : state,
             idle s0 -> faults s0 = [] ->
             has_category (disk s0) user_id category_name = true ->
             add_task_category user_id category_name s0 =
               (Return (Some {| lastrowid := 0; pending := [] |}),
                with_disk s0 (counter_advanced (disk s0)))).
  { intros s0 Hidle0 Hq0 Hc. unfold add_task_category.
    rewrite (execute_query_quiet _ s0 Hidle0 Hq0).
    cbn [sqlite_step study_db run_stmt].
    fold (has_category (disk s0) user_id category_name). rewrite Hc.
    reflexivity. }
  split; [apply (Hdup s Hidle Hq)|].
  split; [|split].
  - unfold add_task_category. rewrite (execute_query_quiet _ s Hidle Hq).
    cbn [sqlite_step study_db run_stmt].
    fold (has_category (disk s) user_id category_name).
    unfold fk_ok. cbn [negb orb]. intros -> ->. reflexivity.
  - intros Hc Hu.
    assert (Hrun : add_task_category user_id category_name s =
              (Return (Some {| lastrowid :=
                                 next_rowid (map c_category_id
                                   (rows (task_categories (disk s))))
                                   (seq (task_categories (disk s)));
                               pending := [] |}),
               with_disk s (seed user_id (disk s) category_name))).
    { unfold add_task_category. rewrite (execute_query_quiet _ s Hidle Hq).
      cbn [sqlite_step study_db run_stmt].
      fold (has_category (disk s) user_id category_name).
      unfold fk_ok. cbn [negb orb]. rewrite Hc, Hu. reflexivity. }
    assert (Hn : forall u n,
               In n (category_names
                       (disk (with_disk s (seed user_id (disk s) category_name))) u) <->
               In n (category_names (disk s) u) \/
               (u = user_id /\ n = category_name)).
    { intros u n. rewrite !category_names_In. destruct s; cbn. split.
      - intros (c & Hin & Hcu & Hcn). apply in_app_or in Hin.
        destruct Hin as [Hin|[<-|[]]]; [left; eauto | right]. cbn in *. auto.
      - intros [(c & Hin & Hcu & Hcn)|[-> ->]].
        + exists c. split; [apply in_or_app; auto | auto].
        + eexists. split; [apply in_or_app; right; left; reflexivity|]. auto. }
    eexists _, _. split; [exact Hrun|]. cbn [lastrowid].
    split; [apply next_rowid_fresh|]. split; [exact Hn|].
    apply Hdup; [exact Hidle | destruct s; exact Hq |].
    apply has_category_In, Hn. auto.
  - intros db. split; [reflexivity|]. split; [|reflexivity].
    unfold same_but_categories. auto.
Qed.

(** X6 on the sample data: Alice gets the category "Reading" as row 7;
    "Errands" she has already, and asking for it again leaves the six
    rows and moves the counter from 6 to 7. *)
Lemma add_task_category_idempotent_witness :
  idle Sample.manager /\ faults Sample.manager = [] /\
  has_category (disk Sample.manager) 1 "Reading" = false /\
  user_exists (disk Sample.manager) 1 = true /\
  has_category (disk Sample.manager) 1 "Errands" = true /\
  add_task_category 1 "Errands" Sample.manager =
    (Return (Some {| lastrowid := 0; pending := [] |}),
     with_disk Sample.manager (counter_advanced Sample.db)) /\
  seq (task_categories (counter_advanced Sample.db)) = 7 /\
  exists c s1,
    add_task_category 1 "Reading" Sample.manager = (Return (Some c), s1) /\
    1 <= lastrowid c /\
    add_task_category 1 "Reading" s1 =
      (Return (Some {| lastrowid := 0; pending := [] |}),
       with_disk s1 (counter_advanced (disk s1))).
Proof.
  split; [exact idle_sample|]. split; [reflexivity|].
  split; [reflexivity|]. split; [reflexivity|]. split; [reflexivity|].
  split; [|split; [reflexivity|]].
  - now apply (add_task_category_idempotent 1 "Errands" Sample.manager
                 idle_sample eq_refl).
  - destruct (add_task_category_idempotent 1 "Reading" Sample.manager
                idle_sample eq_refl) as (_ & _ & H & _).
    destruct (H eq_refl eq_refl) as (c & s1 & E & Hid & _ & E2).
    exists c, s1. split; [exact E|]. split; [exact Hid | exact E2].
Defined.

Lemma NoDup_map_snoc {A B : Type} (f : A -> B) (l : list A) (x : A) :
  NoDup (map f l) -> ~ In (f x) (map f l) -> NoDup (map f (l ++ [x])).
Proof.
  intros Hl Hx. rewrite map_app. cbn.
  apply NoDup_rev in Hl. rewrite <- (rev_involutive (map f l ++ [f x])).
  apply NoDup_rev. rewrite rev_app_distr. cbn. constructor; [|assumption].
  now rewrite <- in_rev.
Qed.

(** The rows a DELETE keeps have the distinct keys they had. *)
Lemma filter_keeps_keys_unique {K R : Type} (key : R -> K) (keep : R -> bool) :
  forall rws : list R,
    NoDup (map key rws) -> NoDup (map key (filter keep rws)).
Proof.
  intros rws. induction rws as [|r rws IH]; cbn; [trivial|].
  intros Hk. apply NoDup_cons_iff in Hk. destruct Hk as [Hr Hk].
  destruct (keep r); cbn; [|auto].
  apply NoDup_cons; [|auto].
  intros Hin. apply Hr. apply in_map_iff in Hin.
  destruct Hin as (y & E & Hy). apply filter_In in Hy.
  apply in_map_iff. exists y. tauto.
Qed.

Lemma next_rowid_not_in {A : Type} (rowid : A -> Z) (l : list A) (sq : Z) :
  ~ In (next_rowid (map rowid l) sq) (map rowid l).
Proof.
  intros Hin. destruct (next_rowid_fresh (map rowid l) sq) as [_ F].
  specialize (F _ Hin). lia.
Qed.

Lemma map_id_retarget (uid : Z) (cat : string) (l : list task_row) :
  map t_task_id (map (retarget uid cat) l) = map t_task_id l.
Proof.
  rewrite map_map. apply map_ext. intros t. unfold retarget.
  now destruct (_ && _)%bool.
Qed.

(** The statements of the program keep the keys of the tables unique,
    with or without foreign-key enforcement. *)
Lemma run_stmt_keeps_constraints (fk : bool) (now : string) (q : stmt)
    (db db' : DB) (rid : Z) (rws : list row) :
  constraints db ->
  run_stmt fk now q db = inr (db', rid, rws) ->
  constraints db'.
Proof.
  unfold constraints.
  intros (Hu & Hn & Hc & Hk & Ht & Hq & Hm) Hrun.
  destruct q; cbn in Hrun;
    repeat match type of Hrun with
           | match ?l with Some _ => _ | None => _ end = _ => destruct l
           | (if ?b then _ else _) = _ => destruct b eqn:?; try discriminate
           end;
    inversion Hrun; subst; clear Hrun; cbn; repeat split; try assumption.
  - apply NoDup_map_snoc; [assumption | apply next_rowid_not_in].
  - apply NoDup_map_snoc; [assumption|]. cbn.
    intros Hin. apply in_map_iff in Hin. destruct Hin as (u & E & Hin).
    match goal with
    | H : existsb _ _ = false |- _ =>
        apply not_true_iff_false in H; apply H; apply existsb_exists
    end.
    exists u. split; [assumption | now apply String.eqb_eq].
  - apply NoDup_map_snoc; [assumption | apply next_rowid_not_in].
  - apply NoDup_map_snoc; [assumption|]. cbn.
    intros Hin. apply in_map_iff in Hin. destruct Hin as (c & E & Hin).
    unfold category_key in E. inversion E as [[E1 E2]].
    match goal with
    | H : existsb _ _ = false |- _ =>
        apply not_true_iff_false in H; apply H; apply existsb_exists
    end.
    exists c. split; [assumption|]. apply andb_true_iff.
    split; [now apply Z.eqb_eq | now apply String.eqb_eq].
  - now rewrite map_id_retarget.
  - now apply filter_keeps_keys_unique.
  - now apply filter_keeps_keys_unique.
  - apply NoDup_map_snoc; [assumption | apply next_rowid_not_in].
  - apply NoDup_map_snoc; [assumption | apply next_rowid_not_in].
  - apply NoDup_map_snoc; [assumption | apply next_rowid_not_in].
Qed.

Lemma category_names_NoDup (db : DB) (uid : Z) :
  NoDup (map category_key (rows (task_categories db))) ->
  NoDup (category_names db uid).
Proof.
  intros Hk. unfold category_names.
  eapply Permutation_NoDup.
  { apply Permutation_map. symmetry. apply order_by_perm. }
  apply (filter_keeps_keys_unique category_key (fun c => c_user_id c =? uid)) in Hk.
  assert (Hall : Forall (fun c => c_user_id c = uid)
                   (filter (fun c => c_user_id c =? uid)
                      (rows (task_categories db)))).
  { apply Forall_forall. intros c Hc. apply filter_In in Hc.
    now apply Z.eqb_eq. }
  revert Hk Hall.
  generalize (filter (fun c => c_user_id c =? uid) (rows (task_categories db))).
  induction l as [|a l IH]; cbn; intros Hk Hall; [constructor|].
  inversion Hk as [|? ? Hn Hk']; subst. inversion Hall as [|? ? Ha Hall']; subst.
  constructor; [|auto].
  intros Hin. apply Hn. apply in_map_iff in Hin. destruct Hin as (c & E & Hc).
  apply in_map_iff. exists c. split; [|assumption].
  unfold category_key. rewrite E. f_equal.
  rewrite Forall_forall in Hall'. now apply Hall'.
Qed.

Lemma NoDup_map_VText (l : list string) : NoDup l -> NoDup (map VText l).
Proof.
  induction 1 as [|x l Hn Hl IH]; cbn; constructor; [|assumption].
  now rewrite in_map_VText.
Qed.

Lemma general_first_NoDup (l : list value) : NoDup l -> NoDup (general_first l).
Proof.
  intros Hl.
  destruct (general_first_spec l) as [[Hn ->]|(l1 & l2 & -> & _ & ->)].
  - now constructor.
  - apply NoDup_remove in Hl. destruct Hl as [Hl Hn]. now constructor.
Qed.

(** X7. The keys of the tables stay unique: if the PRIMARY KEY and UNIQUE
    constraints of the schema hold of the file, they hold after any
    [execute_query], whatever the statement gave and whatever the store
    does; and [get_task_categories] then lists no name twice. *)
Theorem categories_listed_once :
  forall (s : state),
    idle s -> constraints (disk s) ->
    (forall query : stmt, constraints (disk (snd (execute_query query s)))) /\
    (forall (user_id : Z) (l : list value) (s' : state),
       get_task_categories user_id s = (Return l, s') -> NoDup l).
Proof.
  intros s Hidle Hc. split.
  - intros query.
    pose proof (execute_query_outcomes query s Hidle) as O.
    destruct (execute_query query s) as [r s']. cbn [fst snd] in *.
    destruct O as (_ & [[_ ->]|[(e & _ & _ & -> & _)|
                                (db' & rid & rws & Hrun & _ & ->)]]);
      try assumption.
    exact (run_stmt_keeps_constraints _ _ _ _ _ _ _ Hc Hrun).
  - intros user_id l s'. rewrite get_task_categories_unfold.
    pose proof (fetch_all_outcomes (SelectCategoryNames user_id) s Hidle) as O.
    destruct (fetch_all _ s) as [[c|e] s1]; [|discriminate].
    cbn [fst snd] in O. intros E. inversion E; subst. clear E.
    apply general_first_NoDup.
    destruct O as (_ & _ & [O|[(e' & O & _)|(db' & rid & rws & Hrun & O)]]);
      try discriminate.
    + inversion O; subst. constructor.
    + inversion O; subst. clear O.
      cbn [sqlite_step study_db] in Hrun.
      rewrite select_category_names_rows in Hrun. inversion Hrun; subst.
      rewrite cat_list_of_rows.
      apply NoDup_map_VText, category_names_NoDup, Hc.
Qed.

Lemma constraints_sample : constraints (disk Sample.manager).
Proof.
  repeat split; cbn;
    repeat (constructor; [cbn; intuition (try discriminate)|]);
    constructor.
Defined.

(** X7 on the sample data. *)
Lemma categories_listed_once_witness :
  idle Sample.manager /\ constraints (disk Sample.manager) /\
  constraints (disk (snd (execute_query (InsertOrIgnoreCategory 1 "Reading")
                            Sample.manager))) /\
  NoDup [VText "General"; VText "Academic"; VText "Errands"; VText "Personal";
         VText "Project"; VText "Urgent"].
Proof.
  split; [exact idle_sample|]. split; [exact constraints_sample|].
  destruct (categories_listed_once Sample.manager idle_sample constraints_sample)
    as [H1 H2].
  split; [apply H1|].
  apply (H2 1 _ Sample.manager). reflexivity.
Defined.

(** ** Deleting a category when the store fails once *)

(** X8. [delete_task_category] is two transactions, and the result of
    the first is dropped.  When the store fails once, with a storage-layer
    error, during the UPDATE (its first five storage calls), the category
    row is deleted all the same and the call reports success, while every
    task is as it was, those in the deleted category too.  When it fails
    once during the DELETE (the next five), the call returns [None] and the
    category is still listed, but the tasks have been moved to "General". *)
Theorem delete_task_category_not_atomic :
  forall (user_id : Z) (name : string) (s : state) (n : nat) (e : exn),
    idle s -> is_sqlite3_Error e = true ->
    String.eqb (lower name) "general" = false ->
    faults s = [(n, e)] -> (n <= 9)%nat ->
    exists res s',
      delete_task_category user_id name s = (Return (Executed res), s') /\
      idle s' /\ faults s' = [] /\
      ((n <= 4)%nat ->
       truthy_result (Executed res) = true /\
       tasks (disk s') = tasks (disk s) /\
       ~ In name (category_names (disk s') user_id)) /\
      ((5 <= n)%nat ->
       res = None /\
       task_categories (disk s') = task_categories (disk s) /\
       rows (tasks (disk s')) =
         map (retarget user_id name) (rows (tasks (disk s)))).
Proof.
  intros user_id name s n e Hidle He Hg Hf Hn.
  unfold delete_task_category. rewrite Hg.
  destruct (Nat.le_gt_cases n 4) as [Hlo|Hhi].
  - unfold bind at 1.
    rewrite (execute_query_early_fault _ s n e [] Hidle Hf He).
    2:{ destruct (Nat.eq_dec n 4) as [->|]; [right|left; lia].
        split; [reflexivity|]. cbn [sqlite_step study_db run_stmt]. eauto. }
    unfold bind at 1.
    rewrite execute_query_quiet; [|exact Hidle|reflexivity].
    cbn [sqlite_step study_db run_stmt]. unfold ret.
    eexists _, _. split; [reflexivity|].
    split; [exact Hidle|]. split; [reflexivity|].
    split; [|intros; lia]. intros _.
    split; [reflexivity|]. split; [destruct s; reflexivity|].
    intros Hin. apply category_names_In in Hin.
    destruct Hin as (c & Hc & Hu & Hcn).
    destruct s; cbn in Hc. apply filter_In in Hc. destruct Hc as [_ Hc].
    rewrite Hu, Hcn, Z.eqb_refl, String.eqb_refl in Hc. discriminate.
  - destruct n as [|[|[|[|[|m]]]]]; try lia.
    unfold bind at 1.
    erewrite execute_query_late_fault;
      [|exact Hidle|exact Hf|cbn [sqlite_step study_db run_stmt]; reflexivity].
    unfold bind at 1.
    rewrite (execute_query_early_fault _ _ m e []); try assumption;
      try reflexivity.
    2:{ destruct (Nat.eq_dec m 4) as [->|]; [right|left; lia].
        split; [reflexivity|]. cbn [sqlite_step study_db run_stmt]. eauto. }
    unfold ret. eexists _, _. split; [reflexivity|].
    split; [exact Hidle|]. split; [reflexivity|].
    split; [intros; lia|]. intros _.
    split; [reflexivity|]. destruct s; split; reflexivity.
Qed.

(** X8 on the sample data, with a database that is locked once at the
    commit of the UPDATE: "Academic" is deleted and Alice's two academic
    tasks keep it as their category. *)
Lemma delete_task_category_not_atomic_witness :
  let s := init_manager Sample.db Sample.now
             [(4%nat, OperationalError "database is locked")] in
  idle s /\ is_sqlite3_Error (OperationalError "database is locked") = true /\
  String.eqb (lower "Academic") "general" = false /\
  exists res s',
    delete_task_category 1 "Academic" s = (Return (Executed res), s') /\
    truthy_result (Executed res) = true /\
    tasks (disk s') = tasks Sample.db /\
    ~ In "Academic" (category_names (disk s') 1).
Proof.
  intros s. split; [split; reflexivity|]. split; [reflexivity|].
  split; [reflexivity|].
  destruct (delete_task_category_not_atomic 1 "Academic" s 4
              (OperationalError "database is locked"))
    as (res & s' & E & _ & _ & Hlo & _);
    try reflexivity; [split; reflexivity | lia |].
  exists res, s'. split; [exact E|]. apply Hlo. lia.
Defined.

(** ** The chat history *)

Lemma order_by_snoc_first {A : Type} (before : A -> A -> bool) (l : list A)
    (x : A) :
  (forall a, In a l -> before a x = false) ->
  order_by before (l ++ [x]) = x :: order_by before l.
Proof.
  induction l as [|a l IH]; intros Hx; [reflexivity|].
  cbn. rewrite IH by (intros; apply Hx; now right).
  cbn. now rewrite (Hx a (or_introl eq_refl)).
Qed.

Lemma get_chat_history_quiet (user_id limit : Z) (s : state) :
  idle s -> faults s = [] -> in_int64 limit = true ->
  get_chat_history user_id limit s =
    (Return (map chat_tuple
               (rev (sql_limit limit (recent_first (disk s) user_id)))), s).
Proof.
  intros Hidle Hq Hb.
  rewrite get_chat_history_unfold, (fetch_all_quiet _ s Hidle Hq).
  cbn [sqlite_step study_db]. rewrite (select_chat_history_rows _ _ _ _ _ Hb).
  now rewrite reversed_history, map_rev.
Qed.

(** X9. A chat message that was stored is the last of the history.  On
    a store that does not fail, [add_chat_message] for a stored user whose
    earlier messages all have a timestamp below the clock gives a cursor,
    and [get_chat_history] with a limit that is a 64-bit integer other
    than 0 then returns what it returned before for one message less (for
    the same limit when that is negative, which stands for no limit),
    followed by the new message with its role, its content and the clock
    as timestamp.  For a user that is not stored nothing is added and the
    result is [None]. *)
Theorem chat_message_round_trip :
  forall (user_id : Z) (role content : string) (limit : Z) (s : state),
    idle s -> faults s = [] ->
    (user_exists (disk s) user_id = false ->
     add_chat_message user_id role content s = (Return None, s)) /\
    (user_exists (disk s) user_id = true ->
     (forall m, In m (rows (ai_chat_history (disk s))) -> m_user_id m = user_id ->
                text_lt (m_timestamp m) (clock s) = true) ->
     limit <> 0 -> - 2 ^ 63 <= limit < 2 ^ 63 ->
     exists c s1 earlier,
       add_chat_message user_id role content s = (Return (Some c), s1) /\
       get_chat_history user_id (if limit <? 0 then limit else limit - 1) s =
         (Return earlier, s) /\
       get_chat_history user_id limit s1 =
         (Return (earlier ++ [[VText role; VText content; VText (clock s)]]), s1)).
Proof.
  intros user_id role content limit s Hidle Hq.
  unfold add_chat_message.
  rewrite (execute_query_quiet _ s Hidle Hq).
  cbn [sqlite_step study_db run_stmt]. unfold fk_ok. cbn [negb orb].
  split.
  - intros ->. reflexivity.
  - intros -> Hnew Hl Hb. cbn [append_row].
    assert (Hb1 : in_int64 limit = true) by now apply in_int64_range.
    assert (Hb0 : in_int64 (if limit <? 0 then limit else limit - 1) = true).
    { apply in_int64_range. destruct (limit <? 0) eqn:El; [exact Hb|].
      apply Z.ltb_ge in El. lia. }
    eexists _, _, _. split; [reflexivity|].
    split; [now apply get_chat_history_quiet|].
    rewrite get_chat_history_quiet; [|exact Hidle|destruct s; exact Hq|exact Hb1].
    f_equal. f_equal.
    unfold recent_first at 1.
    replace (rows (ai_chat_history (disk (with_disk s _))))
      with (rows (ai_chat_history (disk s)) ++
            [{| m_message_id :=
                  next_rowid (map m_message_id (rows (ai_chat_history (disk s))))
                    (seq (ai_chat_history (disk s)));
                m_user_id := user_id; m_role := role; m_content := content;
                m_timestamp := clock s |}])
      by (now destruct s).
    rewrite filter_app. cbn [filter m_user_id]. rewrite Z.eqb_refl.
    rewrite order_by_snoc_first.
    2:{ intros a Ha. apply filter_In in Ha. destruct Ha as [Ha Hu].
        apply Z.eqb_eq in Hu. unfold newer_first. cbn [m_timestamp].
        now apply text_lt_strict, Hnew. }
    fold (recent_first (disk s) user_id).
    unfold sql_limit.
    destruct (limit <? 0) eqn:El.
    + rewrite El. cbn [rev]. rewrite map_app. reflexivity.
    + apply Z.ltb_ge in El.
      replace (limit - 1 <? 0) with false by (symmetry; apply Z.ltb_ge; lia).
      replace (Z.to_nat limit) with (S (Z.to_nat (limit - 1))) by lia.
      cbn [firstn rev]. rewrite map_app. reflexivity.
Qed.

(** X9 on the sample data: Alice's next message closes the two-message
    view of her history. *)
Lemma chat_message_round_trip_witness :
  idle Sample.manager /\ faults Sample.manager = [] /\
  user_exists (disk Sample.manager) 1 = true /\
  exists c s1,
    add_chat_message 1 "user" "And an applicative?" Sample.manager =
      (Return (Some c), s1) /\
    get_chat_history 1 2 s1 =
      (Return [[VText "user"; VText "Thanks"; VText "2024-01-14 10:01:00"];
               [VText "user"; VText "And an applicative?";
                VText "2024-01-15 12:00:00"]], s1).
Proof.
  split; [exact idle_sample|]. split; [reflexivity|]. split; [reflexivity|].
  destruct (chat_message_round_trip 1 "user" "And an applicative?" 2
              Sample.manager idle_sample eq_refl) as [_ H].
  destruct H as (c & s1 & earlier & E1 & E2 & E3); [reflexivity| |lia|lia|].
  - intros m Hm _. cbn in Hm.
    destruct Hm as [<-|[<-|[<-|[]]]]; reflexivity.
  - exists c, s1. split; [exact E1|].
    rewrite E3. f_equal. f_equal.
    cbn [Z.ltb Z.compare Z.sub] in E2.
    rewrite (get_chat_history_quiet 1 (2 - 1) Sample.manager idle_sample
               eq_refl eq_refl) in E2.
    apply (f_equal fst) in E2. cbn [fst] in E2. injection E2 as <-.
    vm_compute. reflexivity.
Defined.

(** ** The whole of [init_db] *)

Module InstallerFacts.
Import Migrator Installer.

Lemma table_columns_app (sch sch' : schema) (t : string) :
  table_columns (sch ++ sch') t =
    match table_columns sch t with
    | Some cols => Some cols
    | None => table_columns sch' t
    end.
Proof.
  induction sch as [|[name cols] sch IH]; cbn; [reflexivity|].
  now destruct (String.eqb name t).
Qed.

Lemma has_table_nocase_app (sch sch' : schema) (t : string) :
  has_table_nocase (sch ++ sch') t =
    (has_table_nocase sch t || has_table_nocase sch' t)%bool.
Proof. apply existsb_app. Qed.

(** A table that is there stays as it is. *)
Lemma create_keeps_columns (sch : schema) (q : create_table) (t : string)
    (cols : list string) :
  table_columns sch t = Some cols ->
  table_columns (create_table_if_not_exists sch q) t = Some cols.
Proof.
  intros E. unfold create_table_if_not_exists.
  destruct (has_table_nocase sch (ct_name q)); [exact E|].
  destruct (_ && _)%bool; rewrite !table_columns_app, E; reflexivity.
Qed.

Lemma create_keeps_table (sch : schema) (q : create_table) (t : string) :
  has_table_nocase sch t = true ->
  has_table_nocase (create_table_if_not_exists sch q) t = true.
Proof.
  intros E. unfold create_table_if_not_exists.
  destruct (has_table_nocase sch (ct_name q)); [exact E|].
  destruct (_ && _)%bool; rewrite !has_table_nocase_app, E; reflexivity.
Qed.

Lemma create_makes_table (sch : schema) (q : create_table) :
  has_table_nocase (create_table_if_not_exists sch q) (ct_name q) = true.
Proof.
  unfold create_table_if_not_exists.
  destruct (has_table_nocase sch (ct_name q)) eqn:E; [exact E|].
  destruct (_ && _)%bool; rewrite !has_table_nocase_app; cbn;
    rewrite String.eqb_refl; cbn; now rewrite ?orb_true_r.
Qed.

Lemma create_present (sch : schema) (q : create_table) :
  has_table_nocase sch (ct_name q) = true ->
  create_table_if_not_exists sch q = sch.
Proof. intros E. unfold create_table_if_not_exists. now rewrite E. Qed.

Lemma fold_create_keeps_columns (qs : list create_table) (sch : schema)
    (t : string) (cols : list string) :
  table_columns sch t = Some cols ->
  table_columns (fold_left create_table_if_not_exists qs sch) t = Some cols.
Proof.
  revert sch. induction qs as [|q qs IH]; intros sch E; [exact E|].
  cbn. apply IH. now apply create_keeps_columns.
Qed.

Lemma fold_create_keeps_table (qs : list create_table) (sch : schema)
    (t : string) :
  has_table_nocase sch t = true ->
  has_table_nocase (fold_left create_table_if_not_exists qs sch) t = true.
Proof.
  revert sch. induction qs as [|q qs IH]; intros sch E; [exact E|].
  cbn. apply IH. now apply create_keeps_table.
Qed.

Lemma fold_create_makes_tables (qs : list create_table) (sch : schema)
    (q : create_table) :
  In q qs ->
  has_table_nocase (fold_left create_table_if_not_exists qs sch) (ct_name q) = true.
Proof.
  revert sch. induction qs as [|q' qs IH]; intros sch Hq; [contradiction|].
  cbn. destruct Hq as [->|Hq]; [|now apply IH].
  apply fold_create_keeps_table, create_makes_table.
Qed.

Lemma fold_create_present (qs : list create_table) (sch : schema) :
  (forall q, In q qs -> has_table_nocase sch (ct_name q) = true) ->
  fold_left create_table_if_not_exists qs sch = sch.
Proof.
  induction qs as [|q qs IH]; intros Hq; [reflexivity|].
  cbn. rewrite create_present by (apply Hq; now left).
  apply IH. intros q' Hq'. apply Hq. now right.
Qed.

(** A triple of the migration stays done when a table is created, if
    the query of its table declares its column. *)
Lemma create_keeps_done (sch : schema) (q : create_table) (t def c : string) :
  declares t c q = true -> t <> "sqlite_sequence" ->
  done t def c sch -> done t def c (create_table_if_not_exists sch q).
Proof.
  unfold done. intros Hd Ht.
  destruct (table_columns sch t) as [cols|] eqn:E.
  - now rewrite (create_keeps_columns _ q _ _ E).
  - intros _. unfold create_table_if_not_exists.
    destruct (has_table_nocase sch (ct_name q)); [now rewrite E|].
    assert (Hs : String.eqb "sqlite_sequence" t = false)
      by (apply String.eqb_neq; congruence).
    unfold declares in Hd.
    destruct (_ && _)%bool; rewrite !table_columns_app, E;
      cbn [table_columns]; rewrite ?Hs;
      destruct (String.eqb (ct_name q) t); cbn [negb orb] in Hd; auto.
Qed.

Lemma fold_create_keeps_done (qs : list create_table) (sch : schema)
    (t def c : string) :
  forallb (declares t c) qs = true -> t <> "sqlite_sequence" ->
  done t def c sch ->
  done t def c (fold_left create_table_if_not_exists qs sch).
Proof.
  revert sch. induction qs as [|q qs IH]; intros sch Hd Ht D; [exact D|].
  cbn in Hd. apply andb_true_iff in Hd. destruct Hd as [Hq Hqs].
  cbn. apply IH; [assumption..|]. now apply create_keeps_done.
Qed.

Lemma migrated_done (sch : schema) :
  done "tasks" "category TEXT DEFAULT 'General'" "category" (migrated sch) /\
  done "tasks" "created_at TEXT" "created_at" (migrated sch) /\
  done "quiz_attempts" "questions_data TEXT" "questions_data" (migrated sch).
Proof.
  unfold migrated.
  set (s1 := step "tasks" "category TEXT DEFAULT 'General'" "category" sch).
  set (s2 := step "tasks" "created_at TEXT" "created_at" s1).
  repeat split.
  - apply (MigratorFacts.done_grows _ _ _ s1); [|apply MigratorFacts.step_done].
    eapply MigratorFacts.grows_trans; apply MigratorFacts.step_grows.
  - apply (MigratorFacts.done_grows _ _ _ s2);
      [apply MigratorFacts.step_grows | apply MigratorFacts.step_done].
  - apply MigratorFacts.step_done.
Qed.

Lemma migrated_keeps_columns (sch : schema) (t : string) (cols : list string) :
  table_columns sch t = Some cols ->
  exists extra, table_columns (migrated sch) t = Some (cols ++ extra).
Proof.
  intros E.
  assert (G : grows sch (migrated sch)).
  { unfold migrated.
    eapply MigratorFacts.grows_trans; [|apply MigratorFacts.step_grows].
    eapply MigratorFacts.grows_trans; apply MigratorFacts.step_grows. }
  specialize (G t). rewrite E in G.
  destruct (table_columns (migrated sch) t); [|contradiction].
  destruct G as [extra ->]. eauto.
Qed.

(** The CREATE statements declare the columns the migration adds. *)
Lemma queries_declare :
  forallb (declares "tasks" "category") queries = true /\
  forallb (declares "tasks" "created_at") queries = true /\
  forallb (declares "quiz_attempts" "questions_data") queries = true.
Proof. repeat split; vm_compute; reflexivity. Qed.

Lemma not_sqlite_sequence :
  "tasks" <> "sqlite_sequence" /\ "quiz_attempts" <> "sqlite_sequence".
Proof. split; intros H; inversion H. Qed.

(** A schema on which the three triples are done is left by the
    migration as it is. *)
Lemma migrated_fixed (sch : schema) :
  done "tasks" "category TEXT DEFAULT 'General'" "category" sch ->
  done "tasks" "created_at TEXT" "created_at" sch ->
  done "quiz_attempts" "questions_data TEXT" "questions_data" sch ->
  migrated sch = sch.
Proof.
  intros I1 I2 I3. unfold migrated.
  rewrite (MigratorFacts.done_step _ _ _ _ I1).
  rewrite (MigratorFacts.done_step _ _ _ _ I2).
  rewrite (MigratorFacts.done_step _ _ _ _ I3).
  reflexivity.
Qed.

Lemma migrated_installed (sch : schema) : migrated (installed sch) = installed sch.
Proof.
  destruct (migrated_done sch) as (D1 & D2 & D3).
  destruct queries_declare as (Q1 & Q2 & Q3).
  destruct not_sqlite_sequence as (N1 & N2).
  apply migrated_fixed.
  - exact (fold_create_keeps_done queries (migrated sch) _ _ _ Q1 N1 D1).
  - exact (fold_create_keeps_done queries (migrated sch) _ _ _ Q2 N1 D2).
  - exact (fold_create_keeps_done queries (migrated sch) _ _ _ Q3 N2 D3).
Qed.

Lemma installed_tables (sch : schema) (q : create_table) :
  In q queries -> has_table_nocase (installed sch) (ct_name q) = true.
Proof. exact (fold_create_makes_tables queries (migrated sch) q). Qed.

Lemma installed_idempotent (sch : schema) : installed (installed sch) = installed sch.
Proof.
  generalize (migrated_installed sch) (installed_tables sch).
  generalize (installed sch). intros sch1 E T.
  change (fold_left create_table_if_not_exists queries (migrated sch1) = sch1).
  rewrite E. now apply fold_create_present.
Qed.

Lemma for_each_create_quiet (qs : list create_table) (s : state) :
  faults s = [] ->
  for_each qs execute_create s =
    (Return tt,
     {| tables := fold_left create_table_if_not_exists qs (tables s);
        sent := sent s; faults := [] |}).
Proof.
  revert s. induction qs as [|q qs IH]; intros [sch log fs] Hq;
    cbn in Hq; subst fs; [reflexivity|].
  cbn [for_each]. unfold bind, execute_create. cbn [faults next_fault].
  rewrite IH by reflexivity. reflexivity.
Qed.

(** The second [try] on a store that does not fail. *)
Lemma create_phase_quiet (s : state) :
  faults s = [] ->
  try_finally
    (try_except_sqlite
       (for_each queries execute_create ;; conn_commit)
       (fun _ => ret tt))
    conn_close s =
    (Return tt,
     {| tables := fold_left create_table_if_not_exists queries (tables s);
        sent := sent s; faults := [] |}).
Proof.
  intros Hq.
  unfold try_finally, try_except_sqlite, try_except, bind.
  rewrite (for_each_create_quiet queries s Hq).
  generalize (fold_left create_table_if_not_exists queries (tables s)).
  intros sch1. reflexivity.
Qed.

Lemma init_db_quiet (s : state) :
  faults s = [] ->
  exists log,
    init_db s =
      (Return tt,
       {| tables := installed (tables s); sent := log; faults := [] |}).
Proof.
  destruct s as [sch log fs]. cbn [faults]. intros ->.
  unfold init_db. unfold bind at 1 2 3 4, storage_call.
  cbn [faults next_fault tables sent].
  destruct (MigratorFacts.init_db_migration_quiet
              {| tables := sch; sent := log; faults := [] |} eq_refl)
    as [log1 ->].
  exists log1. cbv beta iota.
  rewrite create_phase_quiet by reflexivity.
  cbn [tables sent]. unfold installed. reflexivity.
Qed.

(** No exception of the storage layer leaves the second [try]. *)
Lemma create_phase_contained (s : state) (e : exn) :
  fst (try_finally
         (try_except_sqlite
            (for_each queries execute_create ;; conn_commit)
            (fun _ => ret tt))
         conn_close s) = Raise e ->
  is_sqlite3_Error e = false.
Proof.
  unfold try_finally, try_except_sqlite, try_except, conn_close, ret.
  match goal with
  | |- context [let (_, _) := ?body s in _] => destruct (body s) as [[[]|e'] s']
  end; cbn.
  - discriminate.
  - destruct (is_sqlite3_Error e') eqn:E; cbn; [discriminate|].
    intros H. inversion H; subst. exact E.
Qed.

End InstallerFacts.

(** X10. [init_db] on a store that does not fail, for a file that holds
    tables only: it ends normally; afterwards each of its eight tables is
    there (under its name up to case); a table that was there has the
    columns it had, in their order, possibly followed by more; and a
    second run ends normally as well and leaves the schema of the first.
    On a file without tables the result is the eight tables as the CREATE
    statements declare them, with [sqlite_sequence], and no ALTER was
    sent. *)
Theorem init_db_installs_once :
  forall (s : Migrator.state),
    Migrator.faults s = [] ->
    exists s1 s2,
      Installer.init_db s = (Return tt, s1) /\
      Installer.init_db s1 = (Return tt, s2) /\
      Migrator.tables s2 = Migrator.tables s1 /\
      (forall q, In q Installer.queries ->
         Installer.has_table_nocase (Migrator.tables s1) (Installer.ct_name q) = true) /\
      (forall t cols,
         Migrator.table_columns (Migrator.tables s) t = Some cols ->
         exists extra,
           Migrator.table_columns (Migrator.tables s1) t = Some (cols ++ extra)) /\
      (Migrator.tables s = [] ->
       Migrator.tables s1 =
         map (fun q => (Installer.ct_name q, Installer.ct_columns q))
           (firstn 1 Installer.queries) ++
         [("sqlite_sequence", ["name"; "seq"])] ++
         map (fun q => (Installer.ct_name q, Installer.ct_columns q))
           (skipn 1 Installer.queries) /\
       (Migrator.sent s = [] -> Migrator.sent s1 = [])).
Proof.
  intros s Hq.
  destruct (InstallerFacts.init_db_quiet s Hq) as [log1 E1].
  destruct (InstallerFacts.init_db_quiet
              {| Migrator.tables := Installer.installed (Migrator.tables s);
                 Migrator.sent := log1; Migrator.faults := [] |} eq_refl)
    as [log2 E2].
  eexists _, _. split; [exact E1|]. split; [exact E2|].
  cbn [Migrator.tables Migrator.sent].
  split; [apply InstallerFacts.installed_idempotent|].
  split; [|split].
  - intros q Hin. unfold Installer.installed.
    now apply InstallerFacts.fold_create_makes_tables.
  - intros t cols E.
    destruct (InstallerFacts.migrated_keeps_columns _ _ _ E) as [extra E'].
    exists extra. unfold Installer.installed.
    now apply InstallerFacts.fold_create_keeps_columns.
  - intros Hs. split; [rewrite Hs; reflexivity|].
    intros Hl. destruct s as [sch log fs]. cbn in Hs, Hl, Hq. subst.
    vm_compute in E1. now inversion E1.
Qed.

(** X10 at the first start and at the start on an installation that
    predates the three columns. *)
Lemma init_db_installs_once_witness :
  Migrator.faults Sample.old_installation = [] /\
  exists s1,
    Installer.init_db Sample.old_installation = (Return tt, s1) /\
    Installer.init_db s1 = (Return tt, s1) /\
    Migrator.table_columns (Migrator.tables s1) "tasks" =
      Some ["task_id"; "user_id"; "description"; "due_date"; "completed";
            "category"; "created_at"] /\
    Migrator.table_columns (Migrator.tables s1) "config" = Some ["key"; "value"].
Proof.
  split; [reflexivity|].
  destruct (init_db_installs_once Sample.old_installation eq_refl)
    as (s1 & s2 & E1 & E2 & _).
  exists s1. split; [exact E1|].
  vm_compute in E1. inversion E1; subst s1. clear E1.
  split; [vm_compute; reflexivity|]. split; reflexivity.
Defined.

(** X11. Whatever the store does, an exception that leaves [init_db] is
    not a storage-layer error, unless it was raised by one of the three
    calls that set up the connection, before the first [try]: the errors
    of the migration and of the CREATE statements are only printed. *)
Theorem init_db_contains_errors :
  forall (s : Migrator.state) (e : exn),
    fst (Installer.init_db s) = Raise e ->
    is_sqlite3_Error e = false \/
    exists n rest, Migrator.faults s = (n, e) :: rest /\ (n < 3)%nat.
Proof.
  intros [sch log fs] e.
  unfold Installer.init_db.
  unfold bind at 1. unfold Migrator.storage_call at 1.
  cbn [Migrator.faults Migrator.tables Migrator.sent].
  destruct fs as [|[[|n] e0] rest]; cbn [next_fault].
  2:{ cbn. intros E. inversion E; subst. right. exists 0%nat, rest. split; [reflexivity|lia]. }
  - (* no fault to come *)
    unfold bind at 1 2, Migrator.storage_call. cbn.
    unfold bind.
    pose proof (MigratorFacts.init_db_migration_contained
                  {| Migrator.tables := sch; Migrator.sent := log;
                     Migrator.faults := [] |}) as C1.
    destruct (Migrator.init_db_migration _) as [[[]|e1] s1]; cbn in *.
    + intros E. left. eapply InstallerFacts.create_phase_contained. exact E.
    + intros E. inversion E; subst. left. now apply C1.
  - unfold bind at 1. unfold Migrator.storage_call at 1.
    cbn [Migrator.faults Migrator.tables Migrator.sent next_fault].
    destruct n as [|n]; cbn [next_fault].
    { cbn. intros E. inversion E; subst. right. exists 1%nat, rest. split; [reflexivity|lia]. }
    unfold bind at 1. unfold Migrator.storage_call at 1.
    cbn [Migrator.faults Migrator.tables Migrator.sent next_fault].
    destruct n as [|n]; cbn [next_fault].
    { cbn. intros E. inversion E; subst. right. exists 2%nat, rest. split; [reflexivity|lia]. }
    unfold bind.
    match goal with
    | |- context [Migrator.init_db_migration ?st] =>
        pose proof (MigratorFacts.init_db_migration_contained st) as C1;
        destruct (Migrator.init_db_migration st) as [[[]|e1] s1]; cbn in *
    end.
    + intros E. left. eapply InstallerFacts.create_phase_contained. exact E.
    + intros E. inversion E; subst. left. now apply C1.
Qed.

(** X11 on a file without tables: an out-of-memory condition at the
    PRAGMA leaves [init_db]; a database that is locked when the second
    CREATE is sent does not, and the start goes on with one table. *)
Lemma init_db_contains_errors_witness :
  fst (Installer.init_db
         {| Migrator.tables := []; Migrator.sent := [];
            Migrator.faults := [(2%nat, PyException "MemoryError")] |}) =
    Raise (PyException "MemoryError") /\
  (is_sqlite3_Error (PyException "MemoryError") = false \/
   exists n rest,
     [(2%nat, PyException "MemoryError")] =
       (n, PyException "MemoryError") :: rest /\ (n < 3)%nat) /\
  Installer.init_db
    {| Migrator.tables := []; Migrator.sent := [];
       Migrator.faults := [(16%nat, OperationalError "database is locked")] |} =
    (Return tt,
     {| Migrator.tables := [("users", ["user_id"; "username"; "password_hash"]);
                            ("sqlite_sequence", ["name"; "seq"])];
        Migrator.sent := []; Migrator.faults := [] |}).
Proof.
  split; [reflexivity|]. split; [|vm_compute; reflexivity].
  apply (init_db_contains_errors
           {| Migrator.tables := []; Migrator.sent := [];
              Migrator.faults := [(2%nat, PyException "MemoryError")] |}).
  reflexivity.
Defined.

(** ** The study streak *)

Section StreakFacts.
Variable strptime_Ymd : string -> option Z.

Lemma in_set_In (d : Z) (dates : list Z) : in_set d dates = true <-> In d dates.
Proof.
  unfold in_set. rewrite existsb_exists. split.
  - intros (x & Hx & E). apply Z.eqb_eq in E. now subst.
  - intros H. exists d. split; [assumption | apply Z.eqb_refl].
Qed.

Lemma in_set_not_In (d : Z) (dates : list Z) : in_set d dates = false <-> ~ In d dates.
Proof.
  rewrite <- in_set_In. destruct (in_set d dates); split; congruence.
Qed.

(** The days up to the day before [check] are fewer than those up to
    [check] when [check] is one of the dates. *)
Lemma earlier_dates_fewer (dates : list Z) (check : Z) :
  In check dates ->
  (length (filter (fun d => (d <=? check - 1)%Z) dates) <
   length (filter (fun d => (d <=? check)%Z) dates))%nat.
Proof.
  induction dates as [|a dates IH]; [contradiction|].
  assert (Hle : (length (filter (fun d => (d <=? check - 1)%Z) dates) <=
                 length (filter (fun d => (d <=? check)%Z) dates))%nat).
  { clear. induction dates as [|a dates IH]; cbn; [lia|].
    destruct (a <=? check - 1) eqn:E1, (a <=? check) eqn:E2; cbn; lia. }
  intros [->|Hin]; cbn.
  - replace (check <=? check - 1) with false by (symmetry; apply Z.leb_gt; lia).
    rewrite Z.leb_refl. cbn. lia.
  - specialize (IH Hin).
    destruct (a <=? check - 1) eqn:E1, (a <=? check) eqn:E2; cbn; lia.
Qed.

(** The loop ends within the fuel and counts the days in a row. *)
Lemma streak_loop_counts (fuel : nat) (dates : list Z) (check streak : Z) :
  (forall d, In d dates -> 1 < d) ->
  (length (filter (fun d => (d <=? check)%Z) dates) < fuel)%nat ->
  exists k : nat,
    streak_loop fuel dates check streak = Some (inr (streak + Z.of_nat k)) /\
    streak_ending dates check k.
Proof.
  intros Hpos. revert check streak.
  induction fuel as [|fuel IH]; intros check streak Hf; [lia|].
  cbn [streak_loop].
  destruct (in_set check dates) eqn:E.
  - apply in_set_In in E. pose proof (Hpos _ E) as Hc.
    unfold minus_days.
    replace (check - 1 <? 1) with false by (symmetry; apply Z.ltb_ge; lia).
    destruct (IH (check - 1) (streak + 1)) as (k & Ek & Hk & Hn).
    { pose proof (earlier_dates_fewer dates check E). lia. }
    exists (S k). split; [rewrite Ek; do 2 f_equal; lia|].
    split.
    + intros [|i] Hi.
      * now rewrite Z.sub_0_r.
      * replace (check - Z.of_nat (S i)) with (check - 1 - Z.of_nat i) by lia.
        apply Hk. lia.
    + replace (check - Z.of_nat (S k)) with (check - 1 - Z.of_nat k) by lia.
      exact Hn.
  - apply in_set_not_In in E. exists 0%nat.
    split; [do 2 f_equal; lia|].
    split; [intros i Hi; lia | now rewrite Z.sub_0_r].
Qed.

Lemma filter_length_le {A : Type} (f : A -> bool) (l : list A) :
  (length (filter f l) <= length l)%nat.
Proof. induction l as [|a l IH]; cbn; [lia|]. destruct (f a); cbn; lia. Qed.

(** The set of dates holds the dates of the rows that have one. *)
Lemma unique_study_dates_In (logs : list row) (dates : list Z) (d : Z) :
  unique_study_dates strptime_Ymd logs = inr dates ->
  (In d dates <->
   exists log_item start_time,
     In log_item logs /\ nth_error log_item 2 = Some (VText start_time) /\
     strptime_Ymd (Migrator.first_word start_time) = Some d).
Proof.
  revert dates.
  induction logs as [|l logs IH]; intros dates; cbn [unique_study_dates].
  - intros E. inversion E; subst. split; [contradiction|].
    intros (? & ? & [] & _).
  - assert (Hhead : forall li st,
              In li (l :: logs) -> nth_error li 2 = Some (VText st) ->
              strptime_Ymd (Migrator.first_word st) = Some d ->
              (li = l /\ nth_error l 2 = Some (VText st)) \/
              (exists li' st', In li' logs /\
                 nth_error li' 2 = Some (VText st') /\
                 strptime_Ymd (Migrator.first_word st') = Some d)).
    { intros li st [Heq|Hin] Hn Hp; [left; subst; auto | right; eauto]. }
    destruct (nth_error l 2) as [[| |t]|] eqn:En; try discriminate.
    + destruct (unique_study_dates strptime_Ymd logs) as [e|ds]; [discriminate|].
      intros E. inversion E; subst. clear E.
      specialize (IH ds eq_refl).
      destruct (strptime_Ymd (Migrator.first_word t)) as [x|] eqn:Ep.
      * split.
        -- intros [Hx|Hin].
           ++ subst x. exists l, t. split; [now left | auto].
           ++ apply IH in Hin. destruct Hin as (li & st & Hin & Hn & Hp).
              exists li, st. split; [now right | auto].
        -- intros (li & st & Hin & Hn & Hp).
           destruct (Hhead li st Hin Hn Hp) as [[_ Hl]|Hr].
           ++ left. inversion Hl; subst. congruence.
           ++ right. now apply IH.
      * rewrite IH. split.
        -- intros (li & st & Hin & Hn & Hp). exists li, st.
           split; [now right | auto].
        -- intros (li & st & Hin & Hn & Hp).
           destruct (Hhead li st Hin Hn Hp) as [[_ Hl]|Hr]; [|exact Hr].
           inversion Hl; subst. congruence.
    + intros E. rewrite (IH dates E). split.
      * intros (li & st & Hin & Hn & Hp). exists li, st.
        split; [now right | auto].
      * intros (li & st & Hin & Hn & Hp).
        destruct (Hhead li st Hin Hn Hp) as [[_ Hl]|Hr]; [discriminate | exact Hr].
Qed.

(** X12. [calculate_study_streak] on rows whose third item is a text,
    with no study day of ordinal 1 and a today after the second day: it
    returns, without raising; the result is 0 when neither today nor
    yesterday is the date of a row; otherwise it is the number of days in
    a row with a row each that end today, or yesterday when today has
    none.  The dates are those [strptime] reads from the text before the
    first blank of [start_time]; rows it cannot read are left out. *)
Theorem calculate_study_streak_counts :
  forall (today : Z) (study_logs_data : list row) (dates : list Z),
    unique_study_dates strptime_Ymd study_logs_data = inr dates ->
    (forall d, In d dates -> 1 < d) -> 2 < today ->
    exists n : Z,
      calculate_study_streak strptime_Ymd today (Some study_logs_data) =
        Some (inr n) /\
      (~ In today dates -> ~ In (today - 1) dates -> n = 0) /\
      (In today dates ->
       exists k, n = Z.of_nat k /\ (1 <= k)%nat /\ streak_ending dates today k) /\
      (~ In today dates -> In (today - 1) dates ->
       exists k, n = Z.of_nat k /\ (1 <= k)%nat /\
                 streak_ending dates (today - 1) k) /\
      (forall d, In d dates <->
         exists log_item start_time,
           In log_item study_logs_data /\
           nth_error log_item 2 = Some (VText start_time) /\
           strptime_Ymd (Migrator.first_word start_time) = Some d).
Proof.
  intros today logs dates Hd Hpos Ht.
  assert (Hchar := fun d => unique_study_dates_In logs dates d Hd).
  unfold calculate_study_streak.
  destruct logs as [|l0 logs0].
  { cbn in Hd. inversion Hd; subst. exists 0. split; [reflexivity|].
    split; [reflexivity|]. split; [contradiction|]. split; [contradiction|].
    exact Hchar. }
  rewrite Hd.
  destruct dates as [|d0 dates0].
  { exists 0. split; [reflexivity|]. split; [reflexivity|].
    split; [contradiction|]. split; [contradiction|]. exact Hchar. }
  set (dates := d0 :: dates0) in *.
  unfold minus_days.
  replace (today - 1 <? 1) with false by (symmetry; apply Z.ltb_ge; lia).
  replace (today - 2 <? 1) with false by (symmetry; apply Z.ltb_ge; lia).
  assert (Hfuel : forall c, (length (filter (fun d => (d <=? c)%Z) dates) <
                             S (length dates))%nat).
  { intros c. pose proof (filter_length_le (fun d => (d <=? c)%Z) dates). lia. }
  destruct (in_set today dates) eqn:E1.
  - apply in_set_In in E1.
    destruct (streak_loop_counts (S (length dates)) dates today 0 Hpos (Hfuel _))
      as (k & Ek & Hk).
    rewrite Ek.
    assert (Hk1 : (1 <= k)%nat).
    { destruct k; [|lia]. destruct Hk as [_ Hn]. rewrite Z.sub_0_r in Hn.
      contradiction. }
    replace (0 + Z.of_nat k =? 0) with false by (symmetry; apply Z.eqb_neq; lia).
    exists (0 + Z.of_nat k). split; [reflexivity|].
    split; [intros; contradiction|].
    split; [intros _; exists k; repeat split; try lia; apply Hk|].
    split; [intros; contradiction | exact Hchar].
  - apply in_set_not_In in E1.
    destruct (in_set (today - 1) dates) eqn:E2.
    + apply in_set_In in E2.
      destruct (streak_loop_counts (S (length dates)) dates today 0 Hpos (Hfuel _))
        as (k & Ek & Hk).
      assert (k = 0%nat) as ->.
      { destruct k; [reflexivity|]. destruct Hk as [Hk _].
        specialize (Hk 0%nat ltac:(lia)). rewrite Z.sub_0_r in Hk. contradiction. }
      rewrite Ek. cbn [Z.of_nat Z.add Z.eqb].
      destruct (streak_loop_counts (S (length dates)) dates (today - 2) 1 Hpos
                  (Hfuel _)) as (k' & Ek' & Hk' & Hn').
      rewrite Ek'.
      exists (1 + Z.of_nat k'). split; [reflexivity|].
      split; [intros; contradiction|].
      split; [intros; contradiction|].
      split; [|exact Hchar].
      intros _ _. exists (S k'). split; [lia|]. split; [lia|].
      split.
      * intros [|i] Hi; [now rewrite Z.sub_0_r|].
        replace (today - 1 - Z.of_nat (S i)) with (today - 2 - Z.of_nat i) by lia.
        apply Hk'. lia.
      * replace (today - 1 - Z.of_nat (S k')) with (today - 2 - Z.of_nat k') by lia.
        exact Hn'.
    + apply in_set_not_In in E2.
      exists 0. split; [reflexivity|]. split; [reflexivity|].
      split; [intros; contradiction|].
      split; [intros; contradiction | exact Hchar].
Qed.

End StreakFacts.

(** X12 on the rows of the desk, on 2024-01-15 (ordinal 738900): three
    days in a row. *)
Lemma calculate_study_streak_counts_witness :
  unique_study_dates Desk.read_date Desk.study_logs =
    inr [738900; 738899; 738899; 738898; 738896] /\
  calculate_study_streak Desk.read_date 738900 (Some Desk.study_logs) =
    Some (inr 3) /\
  streak_ending [738900; 738899; 738899; 738898; 738896] 738900 3.
Proof.
  assert (Hd : unique_study_dates Desk.read_date Desk.study_logs =
               inr [738900; 738899; 738899; 738898; 738896])
    by (vm_compute; reflexivity).
  split; [exact Hd|].
  destruct (calculate_study_streak_counts Desk.read_date 738900
              Desk.study_logs _ Hd) as (n & E & _ & Hk & _).
  - intros d Hin. cbn in Hin.
    repeat (destruct Hin as [<-|Hin]; [lia|]). contradiction.
  - lia.
  - destruct Hk as (k & Hn & _ & Hs); [cbn; auto|].
    assert (Hn3 : n = 3).
    { assert (E' := E). vm_compute in E'. now inversion E'. }
    subst n. assert (k = 3%nat) by lia. subst k.
    split; [exact E | exact Hs].
Defined.
